(** * Catalog backend: items routes, stats cache and error middleware

    A shallow embedding of the Express backend of the catalog application
    ([backend/src/routes/items.js], [backend/src/routes/stats.js],
    [backend/src/middleware/errorHandler.js]) together with the properties
    stated for it.

    Conventions of the embedding.
    - A JavaScript string is a [string]: a sequence of code units below 256
      (the Latin-1 range).  On that range [trim], [toLowerCase], [includes]
      and the relational operators are the ECMAScript ones.
    - The numbers that the routes compute with ([parseInt] results, lengths,
      offsets, page counts, ids, timestamps) are integers; they are kept exact
      in [num], which adds the IEEE values a route can produce from them
      (negative zero, the infinities, NaN).  The embedding is exact while the
      integers stay below 2^53; [Binary64] gives the Numbers that the engine
      holds beyond, and the two paginated routes computed with them.
    - A price is a binary64 number, a primitive [float].
    - An exception is a value: code that may throw returns a [Res].
    - Two built-ins that convert a string to a binary64 number, and the
      engine's rendering of a stack trace, are taken as an [Engine]. *)

From Stdlib Require Import List String Ascii ZArith NArith Bool Lia.
From Stdlib Require Import Sorted Permutation.
From Stdlib Require Import Floats.
Import ListNotations.

Local Open Scope string_scope.
Local Open Scope Z_scope.

(** ** Exceptions *)

(** An [Error] object as the routes and the middleware use it: its [message]
    and its optional [status] property. *)
Record Exn := mkExn { message : string; status : option Z }.

Inductive Res (A : Type) : Type :=
| Ok (a : A)
| Throw (e : Exn).

Arguments Ok {A} a.
Arguments Throw {A} e.

Definition bind {A B : Type} (r : Res A) (k : A -> Res B) : Res B :=
  match r with
  | Ok a => k a
  | Throw e => Throw e
  end.

Notation "x <- r ;; k" := (bind r (fun x => k))
  (at level 61, r at next level, right associativity).

(** [null.toLowerCase()], [undefined.toLowerCase()] and a call of a property
    that is not a function all raise a TypeError, which carries no [status].
    The text is V8's; nothing below depends on it. *)
Definition typeError (what : string) : Exn :=
  mkExn ("Cannot read properties of " ++ what ++ " (reading 'toLowerCase')") None.

Definition notAFunction : Exn :=
  mkExn "toLowerCase is not a function" None.

(** ** Strings *)

Module JsString.

(** WhiteSpace and LineTerminator code units below 256:
    TAB, LF, VT, FF, CR, SP and NBSP. *)
Definition isWhiteSpace (c : ascii) : bool :=
  let n := N_of_ascii c in
  ((9 <=? n) && (n <=? 13) || (n =? 32) || (n =? 160))%N.

Fixpoint trimStart (s : string) : string :=
  match s with
  | EmptyString => EmptyString
  | String c s' => if isWhiteSpace c then trimStart s' else s
  end.

Fixpoint trimEnd (s : string) : string :=
  match s with
  | EmptyString => EmptyString
  | String c s' =>
      match trimEnd s' with
      | EmptyString => if isWhiteSpace c then EmptyString else String c EmptyString
      | t => String c t
      end
  end.

(** [String.prototype.trim] *)
Definition trim (s : string) : string := trimEnd (trimStart s).

(** Lower-case mapping of one code unit below 256: A-Z, and U+00C0-U+00DE
    except the multiplication sign U+00D7, move up by 32. *)
Definition lowerChar (c : ascii) : ascii :=
  let n := N_of_ascii c in
  if ((65 <=? n) && (n <=? 90) || (192 <=? n) && (n <=? 222) && negb (n =? 215))%N
  then ascii_of_N (n + 32) else c.

(** [String.prototype.toLowerCase] *)
Fixpoint toLowerCase (s : string) : string :=
  match s with
  | EmptyString => EmptyString
  | String c s' => String (lowerChar c) (toLowerCase s')
  end.

(** [s.includes(t)]: [t] occurs in [s] at some position. *)
Fixpoint includes (s t : string) : bool :=
  prefix t s ||
  match s with
  | EmptyString => false
  | String _ s' => includes s' t
  end.

(** ToBoolean of a string: the empty string is the only falsy one. *)
Definition truthy (s : string) : bool :=
  match s with
  | EmptyString => false
  | String _ _ => true
  end.

(** [Array.prototype.join] with separator [","], as [Array.prototype.toString]
    uses it. *)
Definition join (l : list string) : string := String.concat "," l.

End JsString.

(** ** Integer-valued numbers *)

Inductive num : Type :=
| Fin (z : Z)
| NegZero
| PosInf
| NegInf
| NaN.

Module Num.

Definition isNeg (a : num) : bool :=
  match a with
  | Fin z => z <? 0
  | NegZero | NegInf => true
  | PosInf | NaN => false
  end.

Definition isZero (a : num) : bool :=
  match a with
  | Fin 0 | NegZero => true
  | _ => false
  end.

Definition zero (neg : bool) : num := if neg then NegZero else Fin 0.
Definition inf (neg : bool) : num := if neg then NegInf else PosInf.

(** Unary minus *)
Definition neg (a : num) : num :=
  match a with
  | Fin 0 => NegZero
  | Fin z => Fin (- z)
  | NegZero => Fin 0
  | PosInf => NegInf
  | NegInf => PosInf
  | NaN => NaN
  end.

(** [a + b] *)
Definition add (a b : num) : num :=
  match a, b with
  | NaN, _ | _, NaN => NaN
  | PosInf, NegInf | NegInf, PosInf => NaN
  | PosInf, _ | _, PosInf => PosInf
  | NegInf, _ | _, NegInf => NegInf
  | NegZero, NegZero => NegZero
  | NegZero, Fin y => Fin y
  | Fin x, NegZero => Fin x
  | Fin x, Fin y => Fin (x + y)
  end.

(** [a - b] *)
Definition sub (a b : num) : num := add a (neg b).

(** [a * b] *)
Definition mul (a b : num) : num :=
  match a, b with
  | NaN, _ | _, NaN => NaN
  | (PosInf | NegInf), _ =>
      if isZero b then NaN else inf (xorb (isNeg a) (isNeg b))
  | _, (PosInf | NegInf) =>
      if isZero a then NaN else inf (xorb (isNeg a) (isNeg b))
  | _, _ =>
      let x := match a with Fin x => x | _ => 0 end in
      let y := match b with Fin y => y | _ => 0 end in
      if x * y =? 0 then zero (xorb (isNeg a) (isNeg b)) else Fin (x * y)
  end.

(** [a < b] *)
Definition ltb (a b : num) : bool :=
  match a, b with
  | NaN, _ | _, NaN => false
  | _, NegInf => false
  | NegInf, _ => true
  | PosInf, _ => false
  | _, PosInf => true
  | _, _ =>
      let x := match a with Fin x => x | _ => 0 end in
      let y := match b with Fin y => y | _ => 0 end in
      x <? y
  end.

(** [a === b] on numbers *)
Definition eqb (a b : num) : bool :=
  match a, b with
  | NaN, _ | _, NaN => false
  | PosInf, PosInf | NegInf, NegInf => true
  | (Fin _ | NegZero), (Fin _ | NegZero) =>
      let x := match a with Fin x => x | _ => 0 end in
      let y := match b with Fin y => y | _ => 0 end in
      x =? y
  | _, _ => false
  end.

(** [Math.ceil(n / b)] for an array length [n].  The quotient of two
    integers below 2^53 is never rounded across an integer, so the ceiling of
    the binary64 quotient is the ceiling of the exact one. *)
Definition ceilDiv (n : nat) (b : num) : num :=
  let a := Z.of_nat n in
  match b with
  | NaN => NaN
  | PosInf => Fin 0
  | NegInf => NegZero
  | Fin 0 => if a =? 0 then NaN else PosInf
  | NegZero => if a =? 0 then NaN else NegInf
  | Fin l =>
      let q := - ((- a) / l) in
      if (q =? 0) && (l <? 0) then NegZero else Fin q
  end.

End Num.

(** ** [parseInt] with no radix argument *)

Module ParseInt.

Definition digitVal (radix : Z) (c : ascii) : option Z :=
  let n := Z.of_N (N_of_ascii c) in
  let d :=
    if (48 <=? n) && (n <=? 57) then Some (n - 48)
    else if (97 <=? n) && (n <=? 122) then Some (n - 87)
    else if (65 <=? n) && (n <=? 90) then Some (n - 55)
    else None in
  match d with
  | Some v => if v <? radix then Some v else None
  | None => None
  end.

(** Value of the longest prefix of [s] made of digits in [radix]; [acc] is the
    value of the digits read so far, [None] when none was read. *)
Fixpoint digits (radix : Z) (s : string) (acc : option Z) : option Z :=
  match s with
  | EmptyString => acc
  | String c s' =>
      match digitVal radix c with
      | Some d =>
          digits radix s' (Some (match acc with Some a => a * radix + d | None => d end))
      | None => acc
      end
  end.

Definition stripSign (s : string) : bool * string :=
  match s with
  | String "-" r => (true, r)
  | String "+" r => (false, r)
  | _ => (false, s)
  end.

Definition stripHex (s : string) : Z * string :=
  match s with
  | String "0" (String "x" r) => (16, r)
  | String "0" (String "X" r) => (16, r)
  | _ => (10, s)
  end.

(** The integer that the text denotes.  The engine holds the Number nearest
    to it, [Binary64.parseInt] below, which is this integer when it is below
    2^53. *)
Definition parseInt (s : string) : num :=
  let (negative, s1) := stripSign (JsString.trimStart s) in
  let (radix, s2) := stripHex s1 in
  match digits radix s2 None with
  | None => NaN
  | Some v => if negative then (if v =? 0 then NegZero else Fin (- v)) else Fin v
  end.

End ParseInt.

(** ** The text of a number *)

Module NumberToString.

Definition digitChar (d : Z) : ascii := ascii_of_N (Z.to_N (48 + d)).

(** The decimal digits of [z] in front of [acc]; [fuel] bounds their number. *)
Fixpoint digitsOf (fuel : nat) (z : Z) (acc : string) : string :=
  match fuel with
  | O => acc
  | S fuel' =>
      let acc' := String (digitChar (z mod 10)) acc in
      if z <? 10 then acc' else digitsOf fuel' (z / 10) acc'
  end.

Definition unsigned (n : Z) : string :=
  digitsOf (S (Z.to_nat (Z.log2 n))) n "".

(** ToString of an integer of magnitude below 10^21, as a template literal
    or a URL built from an id renders it. *)
Definition toString (n : Z) : string :=
  if n <? 0 then "-" ++ unsigned (- n) else unsigned n.

End NumberToString.

(** ** [Array.prototype.slice] *)

Module JsArray.

(** A relative index after ToIntegerOrInfinity, clamped into [0, len]. *)
Definition clampIndex (len : Z) (rel : num) : Z :=
  match rel with
  | NaN | NegZero => 0
  | NegInf => 0
  | PosInf => len
  | Fin r => if r <? 0 then Z.max (len + r) 0 else Z.min r len
  end.

(** [l.slice(start, end)] *)
Definition slice {A : Type} (l : list A) (start stop : num) : list A :=
  let len := Z.of_nat (List.length l) in
  let k := clampIndex len start in
  let final := clampIndex len stop in
  firstn (Z.to_nat (Z.max (final - k) 0)) (skipn (Z.to_nat k) l).

End JsArray.

(** ** The engine *)

(** The conversions from a string to a binary64 number ([parseFloat] and
    ToNumber applied to a string) and the text of an error's [stack]. *)
Class Engine : Type := {
  parseFloat : string -> float;
  stringToNumber : string -> float;
  stackTrace : Exn -> string
}.

(** The binary64 number nearest to an integer. *)
Definition ofZ (z : Z) : float := SF2Prim (binary_normalize prec emax z 0 false).

(** ** Items *)

(** A property of a stored object: missing, [null], or a value of the type the
    data model gives it (an integer id, a string name and category, a number
    price, the optional strings [createdAt] and [description], the optional
    array of strings [tags]). *)
Inductive field (A : Type) : Type :=
| Absent
| Null
| Val (a : A).

Arguments Absent {A}.
Arguments Null {A}.
Arguments Val {A} a.

Record Item := mkItem {
  id : field Z;
  name : field string;
  category : field string;
  price : field float;
  createdAt : field string;
  description : field string;
  tags : field (list string)
}.

(** What [item[key]] evaluates to. *)
Inductive JsVal : Type :=
| VUndefined
| VNull
| VInt (z : Z)
| VNum (f : float)
| VStr (s : string)
| VArr (l : list string).

Definition valueOf {A : Type} (inj : A -> JsVal) (f : field A) : JsVal :=
  match f with
  | Absent => VUndefined
  | Null => VNull
  | Val a => inj a
  end.

(** [item[key]].  A key that is not an own property yields [undefined] or a
    value inherited from [Object.prototype], the same for every item; the
    comparator below cannot tell these apart, and [VUndefined] stands for
    both. *)
Definition getField (key : string) (item : Item) : JsVal :=
  if String.eqb key "id" then valueOf VInt (id item)
  else if String.eqb key "name" then valueOf VStr (name item)
  else if String.eqb key "category" then valueOf VStr (category item)
  else if String.eqb key "price" then valueOf VNum (price item)
  else if String.eqb key "createdAt" then valueOf VStr (createdAt item)
  else if String.eqb key "description" then valueOf VStr (description item)
  else if String.eqb key "tags" then valueOf VArr (tags item)
  else VUndefined.

Module Js.

(** ToPrimitive: an array becomes its [toString()]. *)
Definition toPrimitive (v : JsVal) : JsVal :=
  match v with
  | VArr l => VStr (JsString.join l)
  | _ => v
  end.

(** ToNumber *)
Definition toNumber `{Engine} (v : JsVal) : float :=
  match v with
  | VUndefined => nan
  | VNull => zero
  | VInt z => ofZ z
  | VNum f => f
  | VStr s => stringToNumber s
  | VArr l => stringToNumber (JsString.join l)
  end.

(** [a < b]: two strings compare by code units, anything else as numbers;
    two integers compare exactly. *)
Definition lessThan `{Engine} (a b : JsVal) : bool :=
  match toPrimitive a, toPrimitive b with
  | VStr s, VStr t => String.ltb s t
  | VInt x, VInt y => x <? y
  | VInt x, VNull => x <? 0
  | VNull, VInt y => 0 <? y
  | pa, pb => PrimFloat.ltb (toNumber pa) (toNumber pb)
  end.

(** [v.toLowerCase()] *)
Definition toLowerCase (v : JsVal) : Res string :=
  match v with
  | VStr s => Ok (JsString.toLowerCase s)
  | VUndefined => Throw (typeError "undefined")
  | VNull => Throw (typeError "null")
  | VInt _ | VNum _ | VArr _ => Throw notAFunction
  end.

(** [Array.prototype.filter] with a callback that may throw: the callback
    runs on the elements in order and the first exception ends the call. *)
Fixpoint filter {A : Type} (f : A -> Res bool) (l : list A) : Res (list A) :=
  match l with
  | [] => Ok []
  | x :: l' =>
      keep <- f x ;;
      rest <- filter f l' ;;
      Ok (if keep then x :: rest else rest)
  end.

(** [Array.prototype.sort] with a comparator, as a stable insertion sort: an
    element moves behind the ones the comparator puts strictly before it.
    ECMAScript fixes the result of [sort] when the comparator is a consistent
    ordering that does not throw; which exception surfaces first otherwise is
    the engine's choice. *)
Fixpoint insert {A : Type} (cmp : A -> A -> Res Z) (x : A) (l : list A) : Res (list A) :=
  match l with
  | [] => Ok [x]
  | y :: l' =>
      v <- cmp x y ;;
      if 0 <? v then (r <- insert cmp x l' ;; Ok (y :: r)) else Ok (x :: l)
  end.

Fixpoint sort {A : Type} (cmp : A -> A -> Res Z) (l : list A) : Res (list A) :=
  match l with
  | [] => Ok []
  | x :: l' => s <- sort cmp l' ;; insert cmp x s
  end.

End Js.

(** ** Requests and responses *)

Module Query.

(** [req.query]: every parameter is a string or is missing (a parameter given
    twice, which Express parses to an array, is left out). *)
Record t := mk {
  limit : option string;
  page : option string;
  q : option string;
  sortBy : option string;
  sortOrder : option string;
  category : option string;
  minPrice : option string;
  maxPrice : option string
}.

Definition empty : t := mk None None None None None None None None.

End Query.

(** A destructuring default: it applies when the parameter is missing. *)
Definition orDefault (d : string) (o : option string) : string :=
  match o with
  | Some s => s
  | None => d
  end.

Record Pagination := mkPagination {
  currentPage : num;
  totalPages : num;
  totalItems : nat;
  itemsPerPage : num;
  hasNextPage : bool;
  hasPrevPage : bool
}.

Module Filters.

(** The echoed filters; the list route has no [minPrice] and [maxPrice]. *)
Record t := mk {
  search : string;
  category : string;
  minPrice : option string;
  maxPrice : option string;
  sortBy : string;
  sortOrder : string
}.

End Filters.

Record Page := mkPage {
  data : list Item;
  pagination : Pagination;
  filters : Filters.t
}.

(** ** routes/items.js *)

(** The data file as one request sees it: what [readData] yields (the parsed
    array, or the error of [fs.readFile] or [JSON.parse]) and whether
    [fs.writeFile] fails.  Stored numbers are finite, so [JSON.stringify]
    followed by [JSON.parse] gives back the array that was written. *)
Record World := mkWorld {
  file : Res (list Item);
  writeFault : option Exn
}.

Definition readData (w : World) : Res (list Item) := file w.

(** SameValueZero on category values, the equality of [Set]. *)
Definition sameValueZero (a b : field string) : bool :=
  match a, b with
  | Absent, Absent => true
  | Null, Null => true
  | Val s, Val t => String.eqb s t
  | _, _ => false
  end.

(** [Set.prototype.add] on the values seen so far, in insertion order. *)
Definition remember (seen : list (field string)) (v : field string)
  : list (field string) :=
  if existsb (sameValueZero v) seen then seen else (seen ++ [v])%list.

(** [[...new Set(values)]]: the first occurrence of each value, in order. *)
Definition unique (values : list (field string)) : list (field string) :=
  fold_left remember values [].

(** ToString of a category value that is not [undefined]. *)
Definition toStringOf (v : field string) : string :=
  match v with
  | Val s => s
  | Null => "null"
  | Absent => "undefined"
  end.

(** The comparison [sort()] uses when it is given no comparator: [undefined]
    goes last, the rest is ordered by the code units of ToString. *)
Definition defaultCompare (x y : field string) : Res Z :=
  Ok match x, y with
     | Absent, Absent => 0
     | Absent, _ => 1
     | _, Absent => -1
     | _, _ =>
         if String.ltb (toStringOf x) (toStringOf y) then -1
         else if String.ltb (toStringOf y) (toStringOf x) then 1
         else 0
     end.

Definition getCategories (w : World) : Res (list (field string)) :=
  data <- readData w ;;
  let categories := unique (map category data) in
  Js.sort defaultCompare categories.

(** [item.name.toLowerCase()], [item.category.toLowerCase()] *)
Definition lower (f : field string) : Res string :=
  Js.toLowerCase (valueOf VStr f).

(** The callback of the text filter of the list route. *)
Definition matchesText (searchTerm : string) (item : Item) : Res bool :=
  n <- lower (name item) ;;
  if JsString.includes n searchTerm then Ok true
  else c <- lower (category item) ;; Ok (JsString.includes c searchTerm).

(** The callback of the category filter of the list route. *)
Definition matchesCategory (wanted : string) (item : Item) : Res bool :=
  c <- lower (category item) ;;
  Ok (String.eqb c (JsString.trim (JsString.toLowerCase wanted))).

(** The text search of the list route (its [if (q.trim())] block). *)
Definition textFilter (q : string) (filteredResults : list Item) : Res (list Item) :=
  if JsString.truthy (JsString.trim q) then
    let searchTerm := JsString.trim (JsString.toLowerCase q) in
    Js.filter (matchesText searchTerm) filteredResults
  else Ok filteredResults.

(** The category filter of the list route (its [if (category.trim())] block). *)
Definition categoryFilter (category : string) (filteredResults : list Item)
  : Res (list Item) :=
  if JsString.truthy (JsString.trim category) then
    Js.filter (matchesCategory category) filteredResults
  else Ok filteredResults.

(** The request body after [item.id = Date.now()]. *)
Definition withId (now : Z) (item : Item) : Item :=
  mkItem (Val now) (name item) (category item) (price item)
         (createdAt item) (description item) (tags item).

(** [i.id === n] *)
Definition idIs (n : num) (i : Item) : bool :=
  match id i with
  | Val z => Num.eqb (Fin z) n
  | Absent | Null => false
  end.

Section Routes.

Context `{Engine}.

Definition searchItems (items : list Item) (q category minPrice maxPrice : string)
  : Res (list Item) :=
  Js.filter (fun item =>
    matchesTextOk <-
      (if JsString.truthy q && JsString.truthy (JsString.trim q) then
         matchesText (JsString.trim (JsString.toLowerCase q)) item
       else Ok true) ;;
    if negb matchesTextOk then Ok false else
    sameCategory <-
      (if JsString.truthy category && JsString.truthy (JsString.trim category) then
         matchesCategory category item
       else Ok true) ;;
    if negb sameCategory then Ok false else
    if JsString.truthy minPrice &&
       Js.lessThan (valueOf VNum (price item)) (VNum (parseFloat minPrice))
    then Ok false else
    if JsString.truthy maxPrice &&
       Js.lessThan (VNum (parseFloat maxPrice)) (valueOf VNum (price item))
    then Ok false else
    Ok true) items.

(** The comparator both routes pass to [sort]. *)
Definition comparator (sortBy sortOrder : string) (a b : Item) : Res Z :=
  let aVal := getField sortBy a in
  let bVal := getField sortBy b in
  vals <-
    match aVal with
    | VStr _ =>
        a' <- Js.toLowerCase aVal ;;
        b' <- Js.toLowerCase bVal ;;
        Ok (VStr a', VStr b')
    | _ => Ok (aVal, bVal)
    end ;;
  let (aVal, bVal) := vals : JsVal * JsVal in
  if String.eqb sortOrder "desc" then
    Ok (if Js.lessThan aVal bVal then 1 else if Js.lessThan bVal aVal then -1 else 0)
  else
    Ok (if Js.lessThan bVal aVal then 1 else if Js.lessThan aVal bVal then -1 else 0).

(** The metadata both routes build. *)
Definition paginate (pageNum limitNum : num) (totalItems : nat) : Pagination :=
  let totalPages := Num.ceilDiv totalItems limitNum in
  mkPagination pageNum totalPages totalItems limitNum
               (Num.ltb pageNum totalPages) (Num.ltb (Fin 1) pageNum).

(** GET /api/items, after [readData].  The default of [limit] and of [page]
    is a number; [parseInt] reads its decimal text. *)
Definition listItems (data : list Item) (query : Query.t) : Res Page :=
  let limit := orDefault "10" (Query.limit query) in
  let page := orDefault "1" (Query.page query) in
  let q := orDefault "" (Query.q query) in
  let sortBy := orDefault "id" (Query.sortBy query) in
  let sortOrder := orDefault "asc" (Query.sortOrder query) in
  let category := orDefault "" (Query.category query) in
  let limitNum := ParseInt.parseInt limit in
  let pageNum := ParseInt.parseInt page in
  let offset := Num.mul (Num.sub pageNum (Fin 1)) limitNum in
  filteredResults <- textFilter q data ;;
  filteredResults <- categoryFilter category filteredResults ;;
  let totalItems := List.length filteredResults in
  sorted <- Js.sort (comparator sortBy sortOrder) filteredResults ;;
  let paginatedResults := JsArray.slice sorted offset (Num.add offset limitNum) in
  Ok (mkPage paginatedResults
             (paginate pageNum limitNum totalItems)
             (Filters.mk q category None None sortBy sortOrder)).

(** GET /api/items/search, after [readData]. *)
Definition searchRoute (data : list Item) (query : Query.t) : Res Page :=
  let q := orDefault "" (Query.q query) in
  let category := orDefault "" (Query.category query) in
  let minPrice := orDefault "" (Query.minPrice query) in
  let maxPrice := orDefault "" (Query.maxPrice query) in
  let limit := orDefault "10" (Query.limit query) in
  let page := orDefault "1" (Query.page query) in
  let sortBy := orDefault "id" (Query.sortBy query) in
  let sortOrder := orDefault "asc" (Query.sortOrder query) in
  let limitNum := ParseInt.parseInt limit in
  let pageNum := ParseInt.parseInt page in
  let offset := Num.mul (Num.sub pageNum (Fin 1)) limitNum in
  filteredResults <- searchItems data q category minPrice maxPrice ;;
  let totalItems := List.length filteredResults in
  sorted <- Js.sort (comparator sortBy sortOrder) filteredResults ;;
  let paginatedResults := JsArray.slice sorted offset (Num.add offset limitNum) in
  Ok (mkPage paginatedResults
             (paginate pageNum limitNum totalItems)
             (Filters.mk q category (Some minPrice) (Some maxPrice) sortBy sortOrder)).

End Routes.

(** GET /api/items/:id, after [readData]. *)
Definition findItem (data : list Item) (idParam : string) : Res Item :=
  match find (idIs (ParseInt.parseInt idParam)) data with
  | Some item => Ok item
  | None => Throw (mkExn "Item not found" (Some 404))
  end.

(** POST /api/items at time [now] (milliseconds): the new content of the
    world and what the route hands to [res.status(201).json] or to [next]. *)
Definition createItem (w : World) (now : Z) (body : Item) : World * Res Item :=
  match readData w with
  | Throw e => (w, Throw e)
  | Ok data =>
      let item := withId now body in
      let data' := (data ++ [item])%list in
      match writeFault w with
      | Some e => (w, Throw e)
      | None => (mkWorld (Ok data') (writeFault w), Ok item)
      end
  end.

(** ** middleware/errorHandler.js and the responses of the application *)

Inductive Body : Type :=
| JsonPage (p : Page)
| JsonItem (i : Item)
| JsonCategories (cs : list (field string))
| JsonObject (members : list (string * string)).

Record Response := mkResponse { statusCode : Z; body : Body }.

(** [err.status || 500] *)
Definition statusOf (err : Exn) : Z :=
  match status err with
  | Some s => if s =? 0 then 500 else s
  | None => 500
  end.

Definition isDevelopment (nodeEnv : option string) : bool :=
  match nodeEnv with
  | Some v => String.eqb v "development"
  | None => false
  end.

Definition errorHandler `{Engine} (nodeEnv : option string) (err : Exn) : Response :=
  mkResponse (statusOf err)
    (JsonObject (("message", message err) ::
                 (if isDevelopment nodeEnv then [("stack", stackTrace err)] else []))).

(** The error middleware that the test suite installs in place of
    [errorHandler]. *)
Definition testErrorHandler (err : Exn) : Response :=
  mkResponse (statusOf err)
    (JsonObject [("error",
                  if JsString.truthy (message err) then message err
                  else "Internal Server Error")]).

(** A route: [res.status(ok).json(value)], or [next(err)] into the error
    middleware [onError]. *)
Definition respond {A : Type} (onError : Exn -> Response) (ok : Z)
           (toBody : A -> Body) (r : Res A) : Response :=
  match r with
  | Ok a => mkResponse ok (toBody a)
  | Throw e => onError e
  end.

Module App.

Section Handlers.

Context `{Engine}.
Variable nodeEnv : option string.

Definition getItems (w : World) (query : Query.t) : Response :=
  respond (errorHandler nodeEnv) 200 JsonPage
          (data <- readData w ;; listItems data query).

Definition getSearch (w : World) (query : Query.t) : Response :=
  respond (errorHandler nodeEnv) 200 JsonPage
          (data <- readData w ;; searchRoute data query).

Definition getCategoriesRoute (w : World) : Response :=
  respond (errorHandler nodeEnv) 200 JsonCategories (getCategories w).

Definition getItemById (w : World) (idParam : string) : Response :=
  respond (errorHandler nodeEnv) 200 JsonItem
          (data <- readData w ;; findItem data idParam).

Definition postItem (w : World) (now : Z) (body : Item) : World * Response :=
  let (w', r) := createItem w now body in
  (w', respond (errorHandler nodeEnv) 201 JsonItem r).

End Handlers.

End App.

(** ** routes/stats.js *)

Module Stats.

Record t := mk { total : nat; averagePrice : float }.

(** [acc + cur.price]: [null] counts as 0 and a missing price as NaN. *)
Definition plus (acc : float) (p : field float) : float :=
  match p with
  | Val f => acc + f
  | Null => acc + zero
  | Absent => acc + nan
  end.

Definition calculate (items : list Item) : t :=
  mk (List.length items)
     (fold_left (fun acc cur => plus acc (price cur)) items zero
      / ofZ (Z.of_nat (List.length items))).

(** The two module-level variables. *)
Record Cache := mkCache {
  statsCache : option t;
  lastModified : option Z
}.

Definition initial : Cache := mkCache None None.

(** What [fs.readFile] hands to its callback when it succeeds: text that
    [JSON.parse] rejects with an exception, or the text of an array. *)
Inductive Content : Type :=
| Malformed (e : Exn)
| Parsed (items : list Item).

(** The data file as one request sees it: the result of [fs.stat] (the
    modification time in milliseconds) and of the [fs.readFile] after it. *)
Record Disk := mkDisk {
  stat : Res Z;
  readFile : Res Content
}.

(** How a request ends: [res.json], [next(err)], or an exception thrown in
    the [readFile] callback, which nothing catches. *)
Inductive Outcome : Type :=
| Json (s : t)
| Next (e : Exn)
| Uncaught (e : Exn).

(** The effects of one request: the variables afterwards, how it ended, and
    the number of calls of [fs.readFile]. *)
Record Step := mkStep {
  cache : Cache;
  outcome : Outcome;
  reads : nat
}.

(** The callback of [fs.stat] once the cache is found stale. *)
Definition readAndCalculate (c : Cache) (mtime : Z) (d : Disk) : Step :=
  match readFile d with
  | Throw err => mkStep c (Next err) 1
  | Ok (Malformed e) => mkStep c (Uncaught e) 1
  | Ok (Parsed items) =>
      let calculatedStats := calculate items in
      mkStep (mkCache (Some calculatedStats) (Some mtime)) (Json calculatedStats) 1
  end.

(** GET /api/stats.  [statsCache] and [lastModified] are objects when they are
    set, hence truthy. *)
Definition getStats (c : Cache) (d : Disk) : Step :=
  match stat d with
  | Throw err => mkStep c (Next err) 0
  | Ok mtime =>
      match statsCache c, lastModified c with
      | Some cached, Some recorded =>
          if mtime <=? recorded then mkStep c (Json cached) 0
          else readAndCalculate c mtime d
      | _, _ => readAndCalculate c mtime d
      end
  end.

(** The variables after a sequence of requests, from the state in which the
    module is loaded. *)
Definition after (requests : list Disk) : Cache :=
  fold_left (fun c d => cache (getStats c d)) requests initial.

(** The number of [fs.readFile] calls of a sequence of requests from [c]. *)
Fixpoint readsOf (c : Cache) (requests : list Disk) : nat :=
  match requests with
  | [] => 0
  | d :: rest => (reads (getStats c d) + readsOf (cache (getStats c d)) rest)%nat
  end.

End Stats.

(** ** Sample data: the collection of the test suite *)

Definition item (i : Z) (n c : string) (p : float) : Item :=
  mkItem (Val i) (Val n) (Val c) (Val p) Absent Absent Absent.

Definition mockItems : list Item :=
  [ item 1 "Laptop Pro" "Electronics" 2499;
    item 2 "Headphones" "Electronics" 399;
    item 3 "Monitor" "Electronics" 999 ].

(** Requests of the test suite. *)
Definition withLimit (l : string) : Query.t :=
  Query.mk (Some l) None None None None None None None.

Definition withPage (p l : string) : Query.t :=
  Query.mk (Some l) (Some p) None None None None None None.

Definition withQ (q : string) : Query.t :=
  Query.mk None None (Some q) None None None None None.

Definition sortedOn (key order : string) : Query.t :=
  Query.mk None None None (Some key) (Some order) None None None.

Definition withMinPrice (m : string) : Query.t :=
  Query.mk None None None None None None (Some m) None.

Definition cheapAndExpensive : list Item :=
  [ item 1 "Cheap Item" "Test" 10; item 2 "Expensive Item" "Test" 1000 ].

(** The body of the test "should handle POST with null values", and the
    collection after it is posted at time 4. *)
Definition nullBody : Item := mkItem Absent Null Null Null Absent Absent Absent.

Definition withNulls : list Item := (mockItems ++ [withId 4 nullBody])%list.

(** A collection whose only item was created at time 1700000000000, and the
    body of a creation request. *)
Definition clashing : list Item := [item 1700000000000 "Old Item" "Test" 1].

Definition newBody : Item :=
  mkItem Absent (Val "New Item") (Val "Test") (Val 199%float) Absent Absent Absent.

Definition sampleDisk : Stats.Disk :=
  Stats.mkDisk (Ok 1000) (Ok (Stats.Parsed mockItems)).

(** An engine for the examples.  Its conversions read an unsigned decimal
    integer of at most fifteen digits, on which they agree with ECMAScript,
    and give NaN on any other text. *)
Definition decimal (s : string) : float :=
  match ParseInt.digits 10 s None with
  | Some v =>
      if (Nat.leb (String.length s) 15
          && forallb (fun c => match ParseInt.digitVal 10 c with Some _ => true | None => false end)
                     (list_ascii_of_string s))%bool
      then ofZ v else nan
  | None => nan
  end.

Definition sampleEngine : Engine :=
  {| parseFloat := decimal;
     stringToNumber := decimal;
     stackTrace := fun e => "Error: " ++ message e |}.

(** ** Vocabulary of the properties *)

(** [limitNum], [pageNum] and [offset] of a request. *)
Definition limitNumOf (query : Query.t) : num :=
  ParseInt.parseInt (orDefault "10" (Query.limit query)).

Definition pageNumOf (query : Query.t) : num :=
  ParseInt.parseInt (orDefault "1" (Query.page query)).

Definition offsetOf (query : Query.t) : num :=
  Num.mul (Num.sub (pageNumOf query) (Fin 1)) (limitNumOf query).

(** The collection that the list route counts, sorts and cuts. *)
Definition listFiltered (items : list Item) (query : Query.t) : Res (list Item) :=
  f <- textFilter (orDefault "" (Query.q query)) items ;;
  categoryFilter (orDefault "" (Query.category query)) f.

(** The same for the search route. *)
Definition searchFiltered `{Engine} (items : list Item) (query : Query.t)
  : Res (list Item) :=
  searchItems items
              (orDefault "" (Query.q query))
              (orDefault "" (Query.category query))
              (orDefault "" (Query.minPrice query))
              (orDefault "" (Query.maxPrice query)).

Definition sortedBy `{Engine} (query : Query.t) (filtered : list Item)
  : Res (list Item) :=
  Js.sort (comparator (orDefault "id" (Query.sortBy query))
                      (orDefault "asc" (Query.sortOrder query))) filtered.

Definition isStr (v : JsVal) : bool :=
  match v with
  | VStr _ => true
  | _ => false
  end.

(** An item whose name and category are strings. *)
Definition textual (i : Item) : Prop :=
  exists n c, name i = Val n /\ category i = Val c.

(** The items agree on whether the sort key holds a string. *)
Definition uniform (key : string) (items : list Item) : Prop :=
  forall a b, In a items -> In b items ->
              isStr (getField key a) = isStr (getField key b).

(** A parameter with nothing to look for: empty after trimming. *)
Definition blank (s : string) : Prop :=
  JsString.truthy (JsString.trim s) = false.

(** A request on which no filter and no comparison can throw: the filters
    run on strings only, or do not run, and the items agree on the type of the
    sort key. *)
Definition safeRequest (items : list Item) (query : Query.t) : Prop :=
  (Forall textual items \/
   (blank (orDefault "" (Query.q query)) /\
    blank (orDefault "" (Query.category query)))) /\
  uniform (orDefault "id" (Query.sortBy query)) items.

(** What the metadata of a page says when [filtered] is the collection that
    was counted, for a limit that [parseInt] read as the positive integer [l]:
    [totalPages] is the ceiling of [totalItems / l], and the two flags compare
    the page number with it and with 1. *)
Definition consistent (m : Pagination) (pageNum : num) (l : Z) (filtered : list Item)
  : Prop :=
  totalItems m = List.length filtered /\
  itemsPerPage m = Fin l /\
  (exists pages,
      totalPages m = Fin pages /\
      (pages - 1) * l < Z.of_nat (totalItems m) <= pages * l /\
      hasNextPage m = Num.ltb pageNum (Fin pages) /\
      (forall p, pageNum = Fin p -> hasNextPage m = (p <? pages))) /\
  hasPrevPage m = Num.ltb (Fin 1) pageNum /\
  (forall p, pageNum = Fin p -> hasPrevPage m = (1 <? p)).

(** [t] is a substring of [s]. *)
Definition occursIn (t s : string) : Prop :=
  exists pre post, s = pre ++ t ++ post.

(** The text filter in the words of the specification: the name or the
    category, case-folded, contains the case-folded trimmed [q]. *)
Definition textMatch (q : string) (i : Item) : Prop :=
  exists n c,
    name i = Val n /\ category i = Val c /\
    (occursIn (JsString.toLowerCase (JsString.trim q)) (JsString.toLowerCase n) \/
     occursIn (JsString.toLowerCase (JsString.trim q)) (JsString.toLowerCase c)).

(** Its decision procedure. *)
Definition keepsText (q : string) (i : Item) : bool :=
  match name i, category i with
  | Val n, Val c =>
      let term := JsString.toLowerCase (JsString.trim q) in
      JsString.includes (JsString.toLowerCase n) term ||
      JsString.includes (JsString.toLowerCase c) term
  | _, _ => false
  end.

(** A number other than NaN. *)
Definition isNumber (f : float) : Prop := PrimFloat.eqb f f = true.

(** An item whose price is a number other than NaN. *)
Definition numericPrice (i : Item) : Prop :=
  exists f, price i = Val f /\ isNumber f.

(** An item whose name is a string. *)
Definition stringName (i : Item) : Prop :=
  exists n, name i = Val n.

(** The price of [a] is at least the price of [b]. *)
Definition priceGe (a b : Item) : Prop :=
  exists x y, price a = Val x /\ price b = Val y /\ PrimFloat.leb y x = true.

(** The case-folded name of [a] is at most the case-folded name of [b], by
    code units. *)
Definition nameLe (a b : Item) : Prop :=
  exists x y,
    name a = Val x /\ name b = Val y /\
    String.leb (JsString.toLowerCase x) (JsString.toLowerCase y) = true.

(** The order of [sort()] on category values: [undefined] last, the others by
    the code units of their text. *)
Definition keyLe (x y : field string) : Prop :=
  match x, y with
  | _, Absent => True
  | Absent, _ => False
  | _, _ => String.leb (toStringOf x) (toStringOf y) = true
  end.

(** Two category strings in strictly ascending order. *)
Definition ascending (x y : field string) : Prop :=
  exists s t, x = Val s /\ y = Val t /\ String.ltb s t = true.

(** The two variables of the stats route are set together. *)
Definition paired (c : Stats.Cache) : Prop :=
  (Stats.statsCache c = None /\ Stats.lastModified c = None) \/
  (exists s t, Stats.statsCache c = Some s /\ Stats.lastModified c = Some t).

(** The verdict of a callback, an exception counting as a rejection. *)
Definition accepts {A : Type} (f : A -> Res bool) (x : A) : bool :=
  match f x with
  | Ok b => b
  | Throw _ => false
  end.

(** The text starts with a digit, and a digit or nothing follows it. *)
Definition digitFirst (s : string) : Prop :=
  exists d rest,
    0 <= d < 10 /\ s = String (NumberToString.digitChar d) rest /\
    (rest = "" \/
     exists d' rest', 0 <= d' < 10 /\ rest = String (NumberToString.digitChar d') rest').

(** ** Further vocabulary: the other filters *)

(** What a computation returns when it does not throw. *)
Definition value {A : Type} (r : Res A) : option A :=
  match r with
  | Ok a => Some a
  | Throw _ => None
  end.

(** The category filter in words: the category, case-folded, is the trimmed
    and case-folded parameter. *)
Definition categoryMatch (wanted : string) (i : Item) : Prop :=
  exists c,
    category i = Val c /\
    JsString.toLowerCase c = JsString.toLowerCase (JsString.trim wanted).

(** Its decision procedure. *)
Definition keepsCategory (wanted : string) (i : Item) : bool :=
  match category i with
  | Val c =>
      String.eqb (JsString.toLowerCase c)
                 (JsString.toLowerCase (JsString.trim wanted))
  | Absent | Null => false
  end.

(** An item whose category is a string. *)
Definition stringCategory (i : Item) : Prop :=
  exists c, category i = Val c.

(** ToNumber of the price of an item: NaN when it is missing, 0 when it is
    [null]. *)
Definition priceNumber (i : Item) : float :=
  match price i with
  | Absent => nan
  | Null => zero
  | Val p => p
  end.

(** The two price tests of [searchItems] on one item. *)
Definition withinBounds `{Engine} (minPrice maxPrice : string) (i : Item) : bool :=
  negb (JsString.truthy minPrice &&
        PrimFloat.ltb (priceNumber i) (parseFloat minPrice)) &&
  negb (JsString.truthy maxPrice &&
        PrimFloat.ltb (parseFloat maxPrice) (priceNumber i)).

(** ** Further vocabulary: what a page holds *)

(** Two tests in a row on one element, the second only if the first
    passes. *)
Definition andThen {A : Type} (t c : A -> Res bool) (x : A) : Res bool :=
  b <- t x ;; if b then c x else Ok false.

(** The text test of a request on one item, when the request has a text to
    look for. *)
Definition textTest (q : string) (i : Item) : Res bool :=
  if JsString.truthy (JsString.trim q)
  then matchesText (JsString.trim (JsString.toLowerCase q)) i
  else Ok true.

(** The category test of a request on one item. *)
Definition categoryTest (wanted : string) (i : Item) : Res bool :=
  if JsString.truthy (JsString.trim wanted)
  then matchesCategory wanted i
  else Ok true.

(** The text search found the item: its name is a string and, case-folded,
    contains the case-folded trimmed [q], or its category does. *)
Definition textHit (q : string) (i : Item) : Prop :=
  exists n,
    name i = Val n /\
    (occursIn (JsString.toLowerCase (JsString.trim q)) (JsString.toLowerCase n) \/
     exists c,
       category i = Val c /\
       occursIn (JsString.toLowerCase (JsString.trim q)) (JsString.toLowerCase c)).

(** The page that both routes build from the filtered and sorted
    collection. *)
Definition pageOfSorted (query : Query.t) (filtered sorted : list Item)
           (echo : Filters.t) : Page :=
  mkPage (JsArray.slice sorted (offsetOf query)
                        (Num.add (offsetOf query) (limitNumOf query)))
         (paginate (pageNumOf query) (limitNumOf query) (List.length filtered))
         echo.

(** ** Further vocabulary: walking through the pages *)

(** The same request for another page. *)
Definition atPage (query : Query.t) (p : Z) : Query.t :=
  Query.mk (Query.limit query) (Some (NumberToString.toString p))
           (Query.q query) (Query.sortBy query) (Query.sortOrder query)
           (Query.category query) (Query.minPrice query) (Query.maxPrice query).

(** The items a client receives: those of the page, or none when the route
    throws. *)
Definition itemsOf (r : Res Page) : list Item :=
  match r with
  | Ok pg => data pg
  | Throw _ => []
  end.

(** What a client collects that asks a route for the pages 1, 2, ..., [n] of
    one request in this order. *)
Definition walk (route : Query.t -> Res Page) (query : Query.t) (n : nat)
  : list Item :=
  List.concat (List.map (fun k => itemsOf (route (atPage query (Z.of_nat k)))) (seq 1 n)).

(** ** Further vocabulary: the order of a page *)

(** An item whose id is an integer. *)
Definition integerId (i : Item) : Prop :=
  exists z, id i = Val z.

(** The id of [a] is at most the id of [b]. *)
Definition idLe (a b : Item) : Prop :=
  exists x y, id a = Val x /\ id b = Val y /\ x <= y.


(** A sort key under which no item of the list holds a value. *)
Definition keyless (key : string) (l : list Item) : Prop :=
  Forall (fun i => getField key i = VUndefined) l.

(** The cut of a request out of a sorted collection. *)
Definition cut {A : Type} (query : Query.t) (sorted : list A) : list A :=
  JsArray.slice sorted (offsetOf query)
                (Num.add (offsetOf query) (limitNumOf query)).

(** ** Further vocabulary: the id in the path *)

(** A text that may follow the decimal digits of [n] without changing what
    [parseInt] reads: it is empty or starts with a character that is no
    decimal digit, and after a lone 0 it does not start with x or X, which
    would announce a hexadecimal number. *)
Definition trailing (n : Z) (tail : string) : Prop :=
  match tail with
  | EmptyString => True
  | String c _ =>
      ParseInt.digitVal 10 c = None /\
      (n = 0 -> c <> "x"%char /\ c <> "X"%char)
  end.

(** ** Further vocabulary: failures *)

(** The text search cannot be evaluated on the item: the name is no string,
    or the name does not contain the term and the category is no string. *)
Definition textFails (q : string) (i : Item) : Prop :=
  match name i with
  | Val n =>
      ~ occursIn (JsString.toLowerCase (JsString.trim q)) (JsString.toLowerCase n) /\
      ~ stringCategory i
  | Absent | Null => True
  end.

(** [notFound] of middleware/errorHandler.js: the error it hands to [next]
    for a request to [originalUrl]. *)
Definition notFound (originalUrl : string) : Exn :=
  mkExn ("Route " ++ originalUrl ++ " not found") (Some 404).

(** ** Further vocabulary: several requests in a row *)

(** POST /api/items once for every pair of a time and a body, in order: the
    world at the end and the responses. *)
Fixpoint postAll `{Engine} (nodeEnv : option string) (w : World)
         (requests : list (Z * Item)) : World * list Response :=
  match requests with
  | [] => (w, [])
  | (now, body) :: rest =>
      let (w1, r) := App.postItem nodeEnv w now body in
      let (w2, rs) := postAll nodeEnv w1 rest in
      (w2, r :: rs)
  end.

(** The item that a creation request stores. *)
Definition created (request : Z * Item) : Item :=
  withId (fst request) (snd request).

(** ** Further vocabulary: prices in the statistics *)

(** The item with a [null] price replaced by the price 0. *)
Definition zeroed (i : Item) : Item :=
  match price i with
  | Null => mkItem (id i) (name i) (category i) (Val zero)
                   (createdAt i) (description i) (tags i)
  | Absent | Val _ => i
  end.

(** An item whose price is missing or is NaN. *)
Definition priceless (i : Item) : Prop :=
  price i = Absent \/ price i = Val nan.

(** ** Further vocabulary: the history of the stats cache *)

(** The request can compute [s]: [fs.stat] gives the time [t], and
    [fs.readFile] the text of an array whose statistics are [s]. *)
Definition computes (d : Stats.Disk) (t : Z) (s : Stats.t) : Prop :=
  Stats.stat d = Ok t /\
  exists items, Stats.readFile d = Ok (Stats.Parsed items) /\ s = Stats.calculate items.

(** ** frontend/src/pages/Items.js: the pagination bar *)

Module Ui.

(** A number of the response after [JSON.stringify] and [JSON.parse]: NaN
    and the infinities arrive as [null], -0 as 0. *)
Definition received (n : num) : option Z :=
  match n with
  | Fin z => Some z
  | NegZero => Some 0
  | PosInf | NegInf | NaN => None
  end.

(** [null] counts as 0 in arithmetic and in [<=]. *)
Definition numeric (v : option Z) : Z :=
  match v with
  | Some z => z
  | None => 0
  end.

(** The elements that [renderPagination] pushes: the two arrow buttons with
    the page their click asks for and their [disabled] attribute, a numbered
    button with its page and whether it carries the class [active], and the
    ellipsis. *)
Inductive Control : Type :=
| Previous (target : Z) (disabled : bool)
| Numbered (page : Z) (active : bool)
| Ellipsis
| Following (target : Z) (disabled : bool).

Definition maxVisiblePages : Z := 5.

(** The values of [i] in [for (let i = a; ...; i++)] over [count] rounds. *)
Fixpoint upFrom (a : Z) (count : nat) : list Z :=
  match count with
  | O => []
  | S count' => a :: upFrom (a + 1) count'
  end.

(** [i === currentPage] *)
Definition isCurrent (currentPage : option Z) (i : Z) : bool :=
  match currentPage with
  | Some c => i =? c
  | None => false
  end.

(** The loop over [startPage .. endPage]. *)
Definition pageButtons (startPage endPage : Z) (currentPage : option Z)
  : list Control :=
  map (fun i => Numbered i (isCurrent currentPage i))
      (upFrom startPage (Z.to_nat (endPage - startPage + 1))).

(** [renderPagination] on the [pagination] of the state: [None] is the
    [null] it returns when there is at most one page. *)
Definition renderPagination (pagination : Pagination) : option (list Control) :=
  let totalPages := received (totalPages pagination) in
  let currentPage := received (currentPage pagination) in
  if numeric totalPages <=? 1 then None else
  let total := numeric totalPages in
  let current := numeric currentPage in
  let startPage := Z.max 1 (current - maxVisiblePages / 2) in
  let endPage := Z.min total (startPage + maxVisiblePages - 1) in
  let startPage :=
    if endPage - startPage + 1 <? maxVisiblePages
    then Z.max 1 (endPage - maxVisiblePages + 1)
    else startPage in
  Some ([Previous (current - 1) (negb (hasPrevPage pagination))]
        ++ (if 1 <? startPage
            then Numbered 1 false :: (if 2 <? startPage then [Ellipsis] else [])
            else [])
        ++ pageButtons startPage endPage currentPage
        ++ (if endPage <? total
            then (if endPage <? total - 1 then [Ellipsis] else [])
                 ++ [Numbered total false]
            else [])
        ++ [Following (current + 1) (negb (hasNextPage pagination))])%list.

(** The pages of the numbered buttons, from left to right. *)
Definition numbersOf (controls : list Control) : list Z :=
  flat_map (fun c => match c with Numbered p _ => [p] | _ => [] end) controls.

(** The pages of the buttons marked as the current page. *)
Definition activeOf (controls : list Control) : list Z :=
  flat_map (fun c => match c with Numbered p true => [p] | _ => [] end) controls.

(** The pages that a click on a control that is not disabled asks for. *)
Definition targetsOf (controls : list Control) : list Z :=
  flat_map (fun c =>
              match c with
              | Previous t false | Following t false => [t]
              | Numbered p _ => [p]
              | _ => []
              end) controls.

(** Every numbered button shows the page after the one shown before it, or
    stands behind an ellipsis that hides at least one page; [shown] is the
    last page shown so far. *)
Fixpoint spaced (shown : Z) (controls : list Control) : bool :=
  match controls with
  | [] => true
  | Numbered p _ :: rest => (p =? shown + 1) && spaced p rest
  | Ellipsis :: rest =>
      match rest with
      | Numbered p _ :: rest' => (shown + 1 <? p) && spaced p rest'
      | _ => false
      end
  | _ :: rest => spaced shown rest
  end.

End Ui.

(** ** frontend/src/state/DataContext.js: the requests of the client *)

Module Client.

(** The [params] object of [fetchItems] and of [fetchAllItems]: each key is
    present with a value or is missing.  The keys are the ones the items
    page passes; an object with a key [q] is left out. *)
Record Params := mkParams {
  page : option Z;
  limit : option Z;
  search : option string;
  category : option string;
  sortBy : option string;
  sortOrder : option string
}.

Definition noParams : Params := mkParams None None None None None None.


(** [value || fallback] for a string: the empty string and a missing value
    are falsy. *)
Definition stringOr (value : option string) (fallback : string) : string :=
  match value with
  | Some EmptyString | None => fallback
  | Some s => s
  end.

(** [value !== undefined ? value : fallback] *)
Definition definedOr (value : option string) (fallback : string) : string :=
  match value with
  | Some s => s
  | None => fallback
  end.

(** A key of the object literal that [...params] follows: when [params] has
    the key, its value replaces the one of the literal. *)
Definition spread {A : Type} (own : option A) (literal : A) : A :=
  match own with
  | Some v => v
  | None => literal
  end.



(** The query string that [fetchAllItems] sends: a limit of 1000 and no
    page. *)
Definition fetchAllItemsQuery (searchParams : Params) : Query.t :=
  Query.mk
    (Some (NumberToString.toString (spread (limit searchParams) 1000)))
    (option_map NumberToString.toString (page searchParams))
    (Some (definedOr (search searchParams) ""))
    (Some (spread (sortBy searchParams) (stringOr (sortBy searchParams) "id")))
    (Some (spread (sortOrder searchParams)
                  (stringOr (sortOrder searchParams) "asc")))
    (Some (spread (category searchParams)
                  (definedOr (category searchParams) "")))
    None None.

(** The part of the state that a response replaces. *)
Record State := mkState {
  items : list Item;
  pagination : Pagination
}.

(** The pagination that [fetchItems] falls back to. *)
Definition fallbackPagination : Pagination :=
  mkPagination (Fin 1) (Fin 1) 0 (Fin 10) false false.

(** [fetchItems] on the response: [result.data || []] and
    [result.pagination || {...}]; the status of the response is not read. *)
Definition afterFetchItems (response : Response) : State :=
  match body response with
  | JsonPage (mkPage resultData resultPagination _) =>
      mkState resultData resultPagination
  | _ => mkState [] fallbackPagination
  end.

(** [fetchAllItems] on the response: the items, and a pagination made of
    their number. *)
Definition afterFetchAllItems (response : Response) : State :=
  match body response with
  | JsonPage (mkPage resultData _ _) =>
      mkState resultData
              (mkPagination (Fin 1) (Fin 1) (List.length resultData)
                            (Fin (Z.of_nat (List.length resultData))) false false)
  | _ => mkState [] (mkPagination (Fin 1) (Fin 1) 0 (Fin 0) false false)
  end.

End Client.

(** ** The Numbers of the engine

    [ParseInt.parseInt] gives the integer that the digits denote, and [Num]
    computes with integers exactly.  The engine holds binary64 Numbers: what
    it keeps of an integer is the nearest Number, ties to even, which is the
    integer itself below 2^53 and an infinity from 2^1024 on.  [Binary64]
    states this rounding, and the two routes with every Number rounded as the
    engine rounds it. *)

Module Binary64.

(** The Number nearest to the integer [v]. *)
Definition ofInteger (v : Z) : num :=
  match binary_normalize prec emax v 0 false with
  | S754_zero _ => Fin 0
  | S754_finite s m e => Fin ((if s then -1 else 1) * Z.shiftl (Z.pos m) e)
  | S754_infinity s => if s then NegInf else PosInf
  | S754_nan => NaN
  end.

(** The Number that the engine holds for an exact value. *)
Definition number (n : num) : num :=
  match n with
  | Fin v => ofInteger v
  | NegZero | PosInf | NegInf | NaN => n
  end.

(** [Number.isSafeInteger] *)
Definition safeInteger (z : Z) : Prop := Z.abs z < 2 ^ 53.

(** [parseInt(s)] with no radix argument, as a Number. *)
Definition parseInt (s : string) : num := number (ParseInt.parseInt s).

(** [a + b], [a - b] and [a * b] on Numbers whose values are integers: the
    exact result, rounded. *)
Definition add (a b : num) : num := number (Num.add a b).
Definition sub (a b : num) : num := number (Num.sub a b).
Definition mul (a b : num) : num := number (Num.mul a b).

Section Routes.

Context `{Engine}.

(** GET /api/items, after [readData]. *)
Definition listItems (data : list Item) (query : Query.t) : Res Page :=
  let limit := orDefault "10" (Query.limit query) in
  let page := orDefault "1" (Query.page query) in
  let q := orDefault "" (Query.q query) in
  let sortBy := orDefault "id" (Query.sortBy query) in
  let sortOrder := orDefault "asc" (Query.sortOrder query) in
  let category := orDefault "" (Query.category query) in
  let limitNum := parseInt limit in
  let pageNum := parseInt page in
  let offset := mul (sub pageNum (Fin 1)) limitNum in
  filteredResults <- textFilter q data ;;
  filteredResults <- categoryFilter category filteredResults ;;
  let totalItems := List.length filteredResults in
  sorted <- Js.sort (comparator sortBy sortOrder) filteredResults ;;
  let paginatedResults := JsArray.slice sorted offset (add offset limitNum) in
  Ok (mkPage paginatedResults
             (paginate pageNum limitNum totalItems)
             (Filters.mk q category None None sortBy sortOrder)).

(** GET /api/items/search, after [readData]. *)
Definition searchRoute (data : list Item) (query : Query.t) : Res Page :=
  let q := orDefault "" (Query.q query) in
  let category := orDefault "" (Query.category query) in
  let minPrice := orDefault "" (Query.minPrice query) in
  let maxPrice := orDefault "" (Query.maxPrice query) in
  let limit := orDefault "10" (Query.limit query) in
  let page := orDefault "1" (Query.page query) in
  let sortBy := orDefault "id" (Query.sortBy query) in
  let sortOrder := orDefault "asc" (Query.sortOrder query) in
  let limitNum := parseInt limit in
  let pageNum := parseInt page in
  let offset := mul (sub pageNum (Fin 1)) limitNum in
  filteredResults <- searchItems data q category minPrice maxPrice ;;
  let totalItems := List.length filteredResults in
  sorted <- Js.sort (comparator sortBy sortOrder) filteredResults ;;
  let paginatedResults := JsArray.slice sorted offset (add offset limitNum) in
  Ok (mkPage paginatedResults
             (paginate pageNum limitNum totalItems)
             (Filters.mk q category (Some minPrice) (Some maxPrice) sortBy sortOrder)).

End Routes.

End Binary64.

(** A limit of 310 digits: the digit 1 followed by 309 zeros. *)
Definition hugeLimit : string :=
  String "1" (List.fold_right String EmptyString (List.repeat "0"%char 309)).

(** A collection on which the comparator of the sort key is an order that
    cannot throw, so that every stable sort gives the same result: the key is
    [id] and the ids are integers, or [name] or [category] and these are
    strings, or [price] and the prices are numbers other than NaN, or no item
    holds a value under the key. *)
Definition ordered (key : string) (l : list Item) : Prop :=
  (key = "id" /\ Forall integerId l) \/
  (key = "name" /\ Forall stringName l) \/
  (key = "category" /\ Forall stringCategory l) \/
  (key = "price" /\ Forall numericPrice l) \/
  keyless key l.

(** * Properties *)

(** ** The expectations of the test suite *)

Section TestSuite.

Existing Instance sampleEngine.

Example returns_all_items :
  option_map data (match listItems mockItems Query.empty with
                   | Ok pg => Some pg
                   | Throw _ => None
                   end) = Some mockItems.
Proof. reflexivity. Qed.

Example filters_by_query :
  listItems mockItems (withQ "laptop") =
  Ok (mkPage [item 1 "Laptop Pro" "Electronics" 2499]
             (mkPagination (Fin 1) (Fin 1) 1 (Fin 10) false false)
             (Filters.mk "laptop" "" None None "id" "asc")).
Proof. reflexivity. Qed.

Example filters_case_insensitively :
  listItems mockItems (withQ "LAPTOP") =
  Ok (mkPage [item 1 "Laptop Pro" "Electronics" 2499]
             (mkPagination (Fin 1) (Fin 1) 1 (Fin 10) false false)
             (Filters.mk "LAPTOP" "" None None "id" "asc")).
Proof. reflexivity. Qed.

Example second_page :
  listItems mockItems (withPage "2" "2") =
  Ok (mkPage [item 3 "Monitor" "Electronics" 999]
             (mkPagination (Fin 2) (Fin 2) 3 (Fin 2) false true)
             (Filters.mk "" "" None None "id" "asc")).
Proof. reflexivity. Qed.

Example zero_limit :
  listItems mockItems (withLimit "0") =
  Ok (mkPage []
             (mkPagination (Fin 1) PosInf 3 (Fin 0) true false)
             (Filters.mk "" "" None None "id" "asc")).
Proof. reflexivity. Qed.

Example negative_limit :
  listItems mockItems (withLimit "-1") =
  Ok (mkPage [item 1 "Laptop Pro" "Electronics" 2499;
              item 2 "Headphones" "Electronics" 399]
             (mkPagination (Fin 1) (Fin (-3)) 3 (Fin (-1)) false false)
             (Filters.mk "" "" None None "id" "asc")).
Proof. reflexivity. Qed.

Example non_numeric_limit :
  listItems mockItems (withLimit "abc") =
  Ok (mkPage []
             (mkPagination (Fin 1) NaN 3 NaN false false)
             (Filters.mk "" "" None None "id" "asc")).
Proof. reflexivity. Qed.

Example filters_by_price_range :
  option_map data (match searchRoute cheapAndExpensive (withMinPrice "500") with
                   | Ok pg => Some pg
                   | Throw _ => None
                   end) = Some [item 2 "Expensive Item" "Test" 1000].
Proof. reflexivity. Qed.

Example item_by_id :
  App.getItemById None (mkWorld (Ok mockItems) None) "1" =
  mkResponse 200 (JsonItem (item 1 "Laptop Pro" "Electronics" 2499)).
Proof. reflexivity. Qed.

Example invalid_id :
  respond testErrorHandler 200 JsonItem (findItem mockItems "invalid") =
  mkResponse 404 (JsonObject [("error", "Item not found")]).
Proof. reflexivity. Qed.

Example item_with_id_zero :
  findItem (item 0 "Zero ID Item" "Test" 100 :: mockItems) "0" =
  Ok (item 0 "Zero ID Item" "Test" 100).
Proof. reflexivity. Qed.

Example categories_keep_case :
  getCategories (mkWorld (Ok [item 1 "a" "tools" 1; item 2 "b" "Tools" 2;
                              item 3 "c" "tools" 3]) None) =
  Ok [Val "Tools"; Val "tools"].
Proof. reflexivity. Qed.

Example average_price :
  Stats.calculate mockItems = Stats.mk 3 1299 /\
  PrimFloat.is_nan (Stats.averagePrice (Stats.calculate [])) = true.
Proof. split; reflexivity. Qed.

End TestSuite.

(** ** The stats cache *)

Module StatsFacts.

Import Stats.

Lemma paired_initial : paired initial.
Proof. left; split; reflexivity. Qed.

Lemma paired_readAndCalculate (c : Cache) (mtime : Z) (d : Disk) :
  paired c -> paired (cache (readAndCalculate c mtime d)).
Proof.
  intros Hc. unfold readAndCalculate.
  destruct (readFile d) as [[e | items] | e]; simpl; trivial.
  right. eexists. eexists. split; reflexivity.
Qed.

Lemma paired_getStats (c : Cache) (d : Disk) :
  paired c -> paired (cache (getStats c d)).
Proof.
  intros Hc. unfold getStats.
  destruct (stat d) as [mtime | e]; simpl; trivial.
  destruct (statsCache c) as [cached |] eqn:Hs;
    destruct (lastModified c) as [recorded |] eqn:Hl;
    try (apply paired_readAndCalculate; assumption).
  destruct (mtime <=? recorded); simpl; trivial.
  apply paired_readAndCalculate; assumption.
Qed.

Lemma after_app (requests : list Disk) (d : Disk) :
  after (requests ++ [d]) = cache (getStats (after requests) d).
Proof. unfold after. rewrite fold_left_app. reflexivity. Qed.

Lemma paired_after (requests : list Disk) : paired (after requests).
Proof.
  induction requests as [| d requests IH] using rev_ind.
  - apply paired_initial.
  - rewrite after_app. apply paired_getStats, IH.
Qed.

(** A request that finds the cache fresh. *)
Lemma getStats_hit (c : Cache) (d : Disk) (mtime recorded : Z) (cached : t) :
  stat d = Ok mtime ->
  statsCache c = Some cached -> lastModified c = Some recorded ->
  mtime <= recorded ->
  getStats c d = mkStep c (Json cached) 0.
Proof.
  intros Hd Hs Hl Hle. unfold getStats. rewrite Hd, Hs, Hl.
  apply Z.leb_le in Hle. rewrite Hle. reflexivity.
Qed.

(** A request that finds it empty or stale. *)
Lemma getStats_miss (c : Cache) (d : Disk) (mtime : Z) :
  stat d = Ok mtime ->
  (statsCache c = None \/
   exists recorded, lastModified c = Some recorded /\ recorded < mtime) ->
  getStats c d = readAndCalculate c mtime d.
Proof.
  intros Hd Hmiss. unfold getStats. rewrite Hd.
  destruct Hmiss as [Hs | [recorded [Hl Hlt]]].
  - rewrite Hs. reflexivity.
  - rewrite Hl. destruct (statsCache c); trivial.
    apply Z.leb_gt in Hlt. rewrite Hlt. reflexivity.
Qed.

Lemma reads_readAndCalculate (c : Cache) (mtime : Z) (d : Disk) :
  reads (readAndCalculate c mtime d) = 1%nat.
Proof.
  unfold readAndCalculate.
  destruct (readFile d) as [[e | items] | e]; reflexivity.
Qed.

Lemma readAndCalculate_parsed (c : Cache) (mtime : Z) (d : Disk) (items : list Item) :
  readFile d = Ok (Parsed items) ->
  readAndCalculate c mtime d =
  mkStep (mkCache (Some (calculate items)) (Some mtime)) (Json (calculate items)) 1.
Proof. intros Hr. unfold readAndCalculate. rewrite Hr. reflexivity. Qed.

(** The first request after the module is loaded. *)
Lemma getStats_initial (d : Disk) (mtime : Z) (items : list Item) :
  stat d = Ok mtime ->
  readFile d = Ok (Parsed items) ->
  getStats initial d =
  mkStep (mkCache (Some (calculate items)) (Some mtime)) (Json (calculate items)) 1.
Proof.
  intros Hd Hr. rewrite (getStats_miss initial d mtime Hd).
  - apply readAndCalculate_parsed, Hr.
  - left. reflexivity.
Qed.

(** Fresh or not: the two cases cover every paired state. *)
Lemma fresh_or_stale (c : Cache) (mtime : Z) :
  paired c ->
  (exists cached recorded,
      statsCache c = Some cached /\ lastModified c = Some recorded /\ mtime <= recorded) \/
  (statsCache c = None \/
   exists recorded, lastModified c = Some recorded /\ recorded < mtime).
Proof.
  intros [[Hs Hl] | [s [r [Hs Hl]]]].
  - right. left. exact Hs.
  - destruct (Z_le_gt_dec mtime r) as [Hle | Hgt].
    + left. exists s, r. auto.
    + right. right. exists r. split; [exact Hl | lia].
Qed.

End StatsFacts.

(** C1.  In every state that a sequence of requests to GET /api/stats can
    reach, a request that sees modification time [mtime] answers from the cache,
    without reading the file and without changing the variables, exactly when a
    cached value is present and the recorded time is at least [mtime]; otherwise
    it calls [fs.readFile] once and, when the file parses, answers with the
    recomputed stats and records them together with [mtime], the time that
    [fs.stat] observed before the read.  From the freshly loaded module, two
    requests that see the same file read it exactly once, and a second request
    that sees a later modification time reads it again. *)
Theorem stats_cache_protocol :
  forall (requests : list Stats.Disk) (d : Stats.Disk) (mtime : Z),
    Stats.stat d = Ok mtime ->
    let c := Stats.after requests in
    let fresh := exists cached recorded,
        Stats.statsCache c = Some cached /\
        Stats.lastModified c = Some recorded /\ mtime <= recorded in
    (fresh \/ ~ fresh) /\
    (forall cached recorded,
        Stats.statsCache c = Some cached ->
        Stats.lastModified c = Some recorded ->
        mtime <= recorded ->
        Stats.getStats c d = Stats.mkStep c (Stats.Json cached) 0) /\
    (~ fresh ->
     Stats.reads (Stats.getStats c d) = 1%nat /\
     forall items,
       Stats.readFile d = Ok (Stats.Parsed items) ->
       Stats.getStats c d =
       Stats.mkStep
         (Stats.mkCache (Some (Stats.calculate items)) (Some mtime))
         (Stats.Json (Stats.calculate items)) 1) /\
    (Stats.reads (Stats.getStats c d) = 0%nat <-> fresh) /\
    (forall items,
        Stats.readFile d = Ok (Stats.Parsed items) ->
        Stats.readsOf Stats.initial [d; d] = 1%nat /\
        Stats.reads (Stats.getStats (Stats.cache (Stats.getStats c d)) d) = 0%nat /\
        Stats.outcome (Stats.getStats (Stats.cache (Stats.getStats c d)) d) =
        Stats.outcome (Stats.getStats c d)) /\
    (forall items d' mtime',
        Stats.readFile d = Ok (Stats.Parsed items) ->
        Stats.stat d' = Ok mtime' ->
        mtime < mtime' ->
        Stats.readsOf Stats.initial [d; d'] = 2%nat).
Proof.
  intros requests d mtime Hd c fresh.
  assert (Hp : paired c) by apply StatsFacts.paired_after.
  assert (Hcases := StatsFacts.fresh_or_stale c mtime Hp).
  assert (Hstale : ~ fresh ->
                   Stats.statsCache c = None \/
                   exists recorded, Stats.lastModified c = Some recorded /\ recorded < mtime).
  { intros Hn. destruct Hcases as [Hf | Hs]; [contradiction | exact Hs]. }
  assert (Hnot : (Stats.statsCache c = None \/
                  exists recorded, Stats.lastModified c = Some recorded /\ recorded < mtime) ->
                 ~ fresh).
  { intros [Hs | [r [Hl Hlt]]] [cached [recorded [Hs' [Hl' Hle]]]].
    - congruence.
    - rewrite Hl in Hl'. injection Hl' as <-. lia. }
  split; [| split; [| split; [| split; [| split]]]].
  - destruct Hcases as [Hf | Hs]; [left; exact Hf | right; apply Hnot, Hs].
  - intros cached recorded Hs Hl Hle.
    apply (StatsFacts.getStats_hit c d mtime recorded); assumption.
  - intros Hn. rewrite (StatsFacts.getStats_miss c d mtime Hd (Hstale Hn)).
    split.
    + apply StatsFacts.reads_readAndCalculate.
    + intros items Hr. apply StatsFacts.readAndCalculate_parsed, Hr.
  - split.
    + intros H0. destruct Hcases as [Hf | Hs]; [exact Hf |].
      rewrite (StatsFacts.getStats_miss c d mtime Hd Hs) in H0.
      rewrite StatsFacts.reads_readAndCalculate in H0. discriminate.
    + intros [cached [recorded [Hs [Hl Hle]]]].
      rewrite (StatsFacts.getStats_hit c d mtime recorded cached); trivial.
  - intros items Hr. split; [| ].
    + unfold Stats.readsOf.
      rewrite (StatsFacts.getStats_initial d mtime items Hd Hr). simpl.
      rewrite (StatsFacts.getStats_hit _ d mtime mtime (Stats.calculate items));
        trivial; lia.
    + destruct Hcases as [[cached [recorded [Hs [Hl Hle]]]] | Hs].
      * rewrite (StatsFacts.getStats_hit c d mtime recorded cached); trivial.
        simpl.
        rewrite (StatsFacts.getStats_hit c d mtime recorded cached); trivial.
        split; reflexivity.
      * rewrite (StatsFacts.getStats_miss c d mtime Hd Hs).
        rewrite (StatsFacts.readAndCalculate_parsed _ _ _ items Hr). simpl.
        rewrite (StatsFacts.getStats_hit _ d mtime mtime (Stats.calculate items));
          trivial; try lia.
        split; reflexivity.
  - intros items d' mtime' Hr Hd' Hlt.
    unfold Stats.readsOf.
    rewrite (StatsFacts.getStats_initial d mtime items Hd Hr). simpl.
    rewrite (StatsFacts.getStats_miss _ d' mtime' Hd').
    + rewrite StatsFacts.reads_readAndCalculate. reflexivity.
    + right. exists mtime. split; [reflexivity | exact Hlt].
Qed.

Lemma stats_cache_protocol_witness :
  Stats.readsOf Stats.initial [sampleDisk; sampleDisk] = 1%nat /\
  Stats.readsOf Stats.initial
                [sampleDisk; Stats.mkDisk (Ok 2000) (Ok (Stats.Parsed []))] = 2%nat.
Proof.
  destruct (stats_cache_protocol [] sampleDisk 1000 eq_refl)
    as (_ & _ & _ & _ & Hsame & Hnewer).
  split.
  - apply (Hsame mockItems eq_refl).
  - apply (Hnewer mockItems (Stats.mkDisk (Ok 2000) (Ok (Stats.Parsed []))) 2000);
      reflexivity.
Defined.

(** ** Exceptions, arrays and numbers *)

Lemma bind_Ok {A B : Type} (r : Res A) (k : A -> Res B) (b : B) :
  bind r k = Ok b -> exists a, r = Ok a /\ k a = Ok b.
Proof.
  destruct r as [a | e]; simpl; intros Hb; [| discriminate].
  exists a. split; [reflexivity | exact Hb].
Qed.

(** Splits a hypothesis [x <- r ;; k = Ok b] into its two halves. *)
Ltac bind_inv H :=
  let a := fresh "a" in
  let Ha := fresh "Ha" in
  apply bind_Ok in H; destruct H as [a [Ha H]].

Module JsFacts.

Lemma filter_Ok {A : Type} (f : A -> Res bool) (l r : list A) :
  Js.filter f l = Ok r ->
  (forall x, In x l -> exists b, f x = Ok b) /\ r = List.filter (accepts f) l.
Proof.
  revert r. induction l as [| x l IH]; simpl; intros r Hr.
  - injection Hr as <-. split; [intros x [] | reflexivity].
  - bind_inv Hr. bind_inv Hr. injection Hr as <-.
    destruct (IH _ Ha0) as [Hall Heq].
    split.
    + intros y [<- | Hy]; [eauto | auto].
    + unfold accepts at 1. rewrite Ha. rewrite Heq. reflexivity.
Qed.

Lemma filter_total {A : Type} (f : A -> Res bool) (l : list A) :
  (forall x, In x l -> exists b, f x = Ok b) ->
  Js.filter f l = Ok (List.filter (accepts f) l).
Proof.
  induction l as [| x l IH]; simpl; intros Hall; [reflexivity |].
  destruct (Hall x (or_introl eq_refl)) as [b Hb].
  unfold accepts at 1. rewrite Hb. simpl.
  rewrite IH by auto. reflexivity.
Qed.

Lemma filter_incl {A : Type} (f : A -> Res bool) (l r : list A) :
  Js.filter f l = Ok r -> incl r l.
Proof.
  intros Hr. apply filter_Ok in Hr. destruct Hr as [_ ->].
  intros x Hx. apply filter_In in Hx. tauto.
Qed.

Lemma insert_perm {A : Type} (cmp : A -> A -> Res Z) (x : A) (l r : list A) :
  Js.insert cmp x l = Ok r -> Permutation (x :: l) r.
Proof.
  revert r. induction l as [| y l IH]; simpl; intros r Hr.
  - injection Hr as <-. reflexivity.
  - bind_inv Hr. destruct (0 <? a).
    + bind_inv Hr. injection Hr as <-.
      rewrite perm_swap. apply perm_skip. apply IH. exact Ha0.
    + injection Hr as <-. reflexivity.
Qed.

Lemma sort_perm {A : Type} (cmp : A -> A -> Res Z) (l s : list A) :
  Js.sort cmp l = Ok s -> Permutation l s.
Proof.
  revert s. induction l as [| x l IH]; simpl; intros s Hs.
  - injection Hs as <-. reflexivity.
  - bind_inv Hs. apply insert_perm in Hs.
    rewrite <- Hs. apply perm_skip. apply IH. exact Ha.
Qed.

Lemma sort_length {A : Type} (cmp : A -> A -> Res Z) (l s : list A) :
  Js.sort cmp l = Ok s -> List.length s = List.length l.
Proof. intros Hs. symmetry. apply Permutation_length, (sort_perm cmp), Hs. Qed.

Lemma insert_total {A : Type} (cmp : A -> A -> Res Z) (x : A) (l : list A) :
  (forall y, In y l -> exists v, cmp x y = Ok v) ->
  exists r, Js.insert cmp x l = Ok r.
Proof.
  induction l as [| y l IH]; simpl; intros Hall; [eauto |].
  destruct (Hall y (or_introl eq_refl)) as [v Hv]. rewrite Hv. simpl.
  destruct (0 <? v); [| eauto].
  destruct IH as [r Hr]; [auto |]. rewrite Hr. simpl. eauto.
Qed.

Lemma sort_total {A : Type} (cmp : A -> A -> Res Z) (l : list A) :
  (forall x y, In x l -> In y l -> exists v, cmp x y = Ok v) ->
  exists s, Js.sort cmp l = Ok s.
Proof.
  induction l as [| x l IH]; simpl; intros Hall; [eauto |].
  destruct IH as [s Hs]; [auto |]. rewrite Hs. simpl.
  apply insert_total. intros y Hy. apply Hall; [auto |].
  right. apply (Permutation_in y (Permutation_sym (sort_perm cmp l s Hs))), Hy.
Qed.

Lemma clampIndex_range (len : Z) (rel : num) :
  0 <= len -> 0 <= JsArray.clampIndex len rel <= len.
Proof.
  intros Hlen. destruct rel as [r | | | |]; simpl; try lia.
  destruct (r <? 0) eqn:Hr; lia.
Qed.

Lemma slice_length {A : Type} (l : list A) (start stop : num) :
  let len := Z.of_nat (List.length l) in
  Z.of_nat (List.length (JsArray.slice l start stop)) =
  Z.max (JsArray.clampIndex len stop - JsArray.clampIndex len start) 0.
Proof.
  intros len. unfold JsArray.slice. fold len.
  assert (Hk := clampIndex_range len start (Nat2Z.is_nonneg _)).
  assert (Hf := clampIndex_range len stop (Nat2Z.is_nonneg _)).
  rewrite length_firstn, length_skipn. unfold len in *. lia.
Qed.

(** The offset and the end of the page for a limit and a page that
    [parseInt] read as integers. *)
Lemma offset_Fin (p l : Z) :
  1 <= p -> 0 < l ->
  Num.mul (Num.sub (Fin p) (Fin 1)) (Fin l) = Fin ((p - 1) * l).
Proof.
  intros Hp Hl. unfold Num.sub. simpl.
  destruct ((p + -1) * l =? 0) eqn:Hz.
  - apply Z.eqb_eq in Hz.
    replace (p + -1 <? 0) with false by (symmetry; apply Z.ltb_ge; lia).
    replace (l <? 0) with false by (symmetry; apply Z.ltb_ge; lia).
    simpl. f_equal; lia.
  - f_equal; lia.
Qed.

End JsFacts.

(** ** The shape of a page *)

Module RouteFacts.

Section WithEngine.

Context `{Engine}.

Lemma listItems_Ok (items : list Item) (query : Query.t) (pg : Page) :
  listItems items query = Ok pg ->
  exists filtered sorted,
    listFiltered items query = Ok filtered /\
    sortedBy query filtered = Ok sorted /\
    data pg = JsArray.slice sorted (offsetOf query)
                            (Num.add (offsetOf query) (limitNumOf query)) /\
    pagination pg =
    paginate (pageNumOf query) (limitNumOf query) (List.length filtered).
Proof.
  unfold listItems. intros Hpg.
  bind_inv Hpg. bind_inv Hpg. bind_inv Hpg. injection Hpg as <-.
  exists a0, a1. unfold listFiltered, sortedBy. rewrite Ha. simpl.
  repeat split; assumption || reflexivity.
Qed.

Lemma searchRoute_Ok (items : list Item) (query : Query.t) (pg : Page) :
  searchRoute items query = Ok pg ->
  exists filtered sorted,
    searchFiltered items query = Ok filtered /\
    sortedBy query filtered = Ok sorted /\
    data pg = JsArray.slice sorted (offsetOf query)
                            (Num.add (offsetOf query) (limitNumOf query)) /\
    pagination pg =
    paginate (pageNumOf query) (limitNumOf query) (List.length filtered).
Proof.
  unfold searchRoute. intros Hpg.
  bind_inv Hpg. bind_inv Hpg. injection Hpg as <-.
  exists a, a0. unfold searchFiltered, sortedBy.
  repeat split; assumption || reflexivity.
Qed.

Lemma lower_textual (i : Item) :
  textual i ->
  lower (name i) = Ok (JsString.toLowerCase (match name i with Val n => n | _ => "" end)) /\
  lower (category i) =
  Ok (JsString.toLowerCase (match category i with Val c => c | _ => "" end)).
Proof. intros [n [c [-> ->]]]. split; reflexivity. Qed.

Lemma matchesText_total (term : string) (i : Item) :
  textual i -> exists b, matchesText term i = Ok b.
Proof.
  intros Hi. destruct (lower_textual i Hi) as [Hn Hc].
  unfold matchesText. rewrite Hn. simpl.
  destruct (JsString.includes _ term); [eauto |].
  rewrite Hc. simpl. eauto.
Qed.

Lemma matchesCategory_total (wanted : string) (i : Item) :
  textual i -> exists b, matchesCategory wanted i = Ok b.
Proof.
  intros Hi. destruct (lower_textual i Hi) as [_ Hc].
  unfold matchesCategory. rewrite Hc. simpl. eauto.
Qed.

Lemma textFilter_total (q : string) (items : list Item) :
  Forall textual items ->
  exists r, textFilter q items = Ok r /\ incl r items.
Proof.
  intros Hall. unfold textFilter.
  destruct (JsString.truthy (JsString.trim q)).
  - eexists. split.
    + apply JsFacts.filter_total. intros x Hx. apply matchesText_total.
      rewrite Forall_forall in Hall. auto.
    + intros x Hx. apply filter_In in Hx. tauto.
  - exists items. split; [reflexivity | apply incl_refl].
Qed.

Lemma categoryFilter_total (c : string) (items : list Item) :
  Forall textual items ->
  exists r, categoryFilter c items = Ok r /\ incl r items.
Proof.
  intros Hall. unfold categoryFilter.
  destruct (JsString.truthy (JsString.trim c)).
  - eexists. split.
    + apply JsFacts.filter_total. intros x Hx. apply matchesCategory_total.
      rewrite Forall_forall in Hall. auto.
    + intros x Hx. apply filter_In in Hx. tauto.
  - exists items. split; [reflexivity | apply incl_refl].
Qed.

Lemma Forall_incl {A : Type} (P : A -> Prop) (l r : list A) :
  incl r l -> Forall P l -> Forall P r.
Proof.
  intros Hincl Hl. rewrite Forall_forall in *. auto.
Qed.

Lemma listFiltered_total (items : list Item) (query : Query.t) :
  Forall textual items ->
  exists r, listFiltered items query = Ok r /\ incl r items.
Proof.
  intros Hall. unfold listFiltered.
  destruct (textFilter_total (orDefault "" (Query.q query)) items Hall)
    as [r1 [Hr1 Hi1]].
  rewrite Hr1. simpl.
  destruct (categoryFilter_total (orDefault "" (Query.category query)) r1
                                 (Forall_incl _ _ _ Hi1 Hall))
    as [r2 [Hr2 Hi2]].
  exists r2. split; [exact Hr2 |].
  intros x Hx. auto.
Qed.

Lemma searchFiltered_total (items : list Item) (query : Query.t) :
  Forall textual items ->
  exists r, searchFiltered items query = Ok r /\ incl r items.
Proof.
  intros Hall. unfold searchFiltered, searchItems.
  eexists. split.
  - apply JsFacts.filter_total. intros x Hx.
    rewrite Forall_forall in Hall. specialize (Hall x Hx).
    destruct (JsString.truthy (orDefault "" (Query.q query)) && _).
    + destruct (matchesText_total
                  (JsString.trim (JsString.toLowerCase (orDefault "" (Query.q query))))
                  x Hall) as [b ->].
      simpl. destruct b; simpl; [| eauto].
      destruct (JsString.truthy (orDefault "" (Query.category query)) && _).
      * destruct (matchesCategory_total (orDefault "" (Query.category query)) x Hall)
          as [b ->].
        simpl. destruct b; simpl; [| eauto].
        repeat match goal with |- context [if ?c then _ else _] => destruct c end; eauto.
      * simpl.
        repeat match goal with |- context [if ?c then _ else _] => destruct c end; eauto.
    + simpl.
      destruct (JsString.truthy (orDefault "" (Query.category query)) && _).
      * destruct (matchesCategory_total (orDefault "" (Query.category query)) x Hall)
          as [b ->].
        simpl. destruct b; simpl; [| eauto].
        repeat match goal with |- context [if ?c then _ else _] => destruct c end; eauto.
      * simpl.
        repeat match goal with |- context [if ?c then _ else _] => destruct c end; eauto.
  - intros x Hx. apply filter_In in Hx. tauto.
Qed.

Lemma comparator_total (key order : string) (a b : Item) :
  isStr (getField key a) = isStr (getField key b) ->
  exists v, comparator key order a b = Ok v.
Proof.
  unfold comparator. intros Hab.
  destruct (getField key a), (getField key b); simpl in *; try discriminate;
    destruct (String.eqb order "desc"); eauto.
Qed.

Lemma sortedBy_total (query : Query.t) (items filtered : list Item) :
  uniform (orDefault "id" (Query.sortBy query)) items ->
  incl filtered items ->
  exists sorted, sortedBy query filtered = Ok sorted.
Proof.
  intros Hu Hincl. apply JsFacts.sort_total.
  intros x y Hx Hy. apply comparator_total. apply Hu; auto.
Qed.

Lemma listItems_total (items : list Item) (query : Query.t) :
  Forall textual items ->
  uniform (orDefault "id" (Query.sortBy query)) items ->
  exists pg, listItems items query = Ok pg.
Proof.
  intros Hall Hu.
  destruct (listFiltered_total items query Hall) as [r [Hr Hi]].
  destruct (sortedBy_total query items r Hu Hi) as [s Hs].
  unfold listFiltered in Hr. bind_inv Hr.
  unfold sortedBy in Hs. unfold listItems.
  rewrite Ha. simpl. rewrite Hr. simpl. rewrite Hs. simpl. eauto.
Qed.

Lemma searchRoute_total (items : list Item) (query : Query.t) :
  Forall textual items ->
  uniform (orDefault "id" (Query.sortBy query)) items ->
  exists pg, searchRoute items query = Ok pg.
Proof.
  intros Hall Hu.
  destruct (searchFiltered_total items query Hall) as [r [Hr Hi]].
  destruct (sortedBy_total query items r Hu Hi) as [s Hs].
  unfold searchFiltered in Hr. unfold sortedBy in Hs. unfold searchRoute.
  rewrite Hr. simpl. rewrite Hs. simpl. eauto.
Qed.

(** With no text and no category to look for, the filters read no item. *)
Lemma listFiltered_blank (items : list Item) (query : Query.t) :
  JsString.truthy (JsString.trim (orDefault "" (Query.q query))) = false ->
  JsString.truthy (JsString.trim (orDefault "" (Query.category query))) = false ->
  listFiltered items query = Ok items.
Proof.
  intros Hq Hc. unfold listFiltered, textFilter, categoryFilter.
  rewrite Hq. simpl. rewrite Hc. reflexivity.
Qed.

Lemma searchFiltered_blank (items : list Item) (query : Query.t) :
  JsString.truthy (JsString.trim (orDefault "" (Query.q query))) = false ->
  JsString.truthy (JsString.trim (orDefault "" (Query.category query))) = false ->
  exists r, searchFiltered items query = Ok r /\ incl r items.
Proof.
  intros Hq Hc. unfold searchFiltered, searchItems.
  rewrite Hq, Hc, !andb_false_r.
  eexists. split.
  - apply JsFacts.filter_total. intros x _. simpl.
    repeat match goal with |- context [if ?c then _ else _] => destruct c end; eauto.
  - intros x Hx. apply filter_In in Hx. tauto.
Qed.

(** An id is never a string. *)
Lemma uniform_id (items : list Item) : uniform "id" items.
Proof.
  intros a b _ _. unfold getField. simpl.
  destruct (id a), (id b); reflexivity.
Qed.

Lemma routes_total_blank (items : list Item) (query : Query.t) :
  JsString.truthy (JsString.trim (orDefault "" (Query.q query))) = false ->
  JsString.truthy (JsString.trim (orDefault "" (Query.category query))) = false ->
  uniform (orDefault "id" (Query.sortBy query)) items ->
  (exists pg, listItems items query = Ok pg) /\
  (exists pg, searchRoute items query = Ok pg).
Proof.
  intros Hq Hc Hu. split.
  - assert (Hf := listFiltered_blank items query Hq Hc).
    destruct (sortedBy_total query items items Hu (incl_refl _)) as [s Hs].
    unfold listFiltered in Hf. bind_inv Hf.
    unfold sortedBy in Hs. unfold listItems.
    rewrite Ha. simpl. rewrite Hf. simpl. rewrite Hs. simpl. eauto.
  - destruct (searchFiltered_blank items query Hq Hc) as [r [Hr Hi]].
    destruct (sortedBy_total query items r Hu Hi) as [s Hs].
    unfold searchFiltered in Hr. unfold sortedBy in Hs. unfold searchRoute.
    rewrite Hr. simpl. rewrite Hs. simpl. eauto.
Qed.

Lemma routes_safe (items : list Item) (query : Query.t) :
  safeRequest items query ->
  (exists pg, listItems items query = Ok pg) /\
  (exists pg, searchRoute items query = Ok pg).
Proof.
  intros [[Hall | [Hq Hc]] Hu].
  - split.
    + apply listItems_total; assumption.
    + apply searchRoute_total; assumption.
  - apply routes_total_blank; assumption.
Qed.

(** A request that names no [q], [category] or [sortBy] is safe on every
    collection. *)
Lemma safeRequest_default (items : list Item) (query : Query.t) :
  Query.q query = None -> Query.category query = None ->
  Query.sortBy query = None ->
  safeRequest items query.
Proof.
  intros Hq Hc Hkey. unfold safeRequest, blank. rewrite Hq, Hc, Hkey.
  split; [right; split; reflexivity | apply uniform_id].
Qed.

End WithEngine.

(** The page cut out of [sorted] for an integer limit and page. *)
Lemma page_slice_length {A : Type} (sorted : list A) (p l : Z) :
  1 <= p -> 0 < l ->
  Z.of_nat (List.length
              (JsArray.slice sorted (Fin ((p - 1) * l))
                             (Num.add (Fin ((p - 1) * l)) (Fin l)))) =
  Z.min l (Z.max 0 (Z.of_nat (List.length sorted) - (p - 1) * l)).
Proof.
  intros Hp Hl. rewrite JsFacts.slice_length. simpl.
  assert (Ho : 0 <= (p - 1) * l) by nia.
  destruct ((p - 1) * l <? 0) eqn:H1; [apply Z.ltb_lt in H1; lia |].
  destruct ((p - 1) * l + l <? 0) eqn:H2; [apply Z.ltb_lt in H2; lia |].
  lia.
Qed.

(** [Math.ceil(n / l)] for a positive [l] is the least number of pages of
    [l] items that hold [n] items. *)
Lemma ceilDiv_positive (n : nat) (l : Z) :
  0 < l ->
  exists pages,
    Num.ceilDiv n (Fin l) = Fin pages /\
    (pages - 1) * l < Z.of_nat n <= pages * l.
Proof.
  intros Hl. exists (- (- Z.of_nat n / l)). split.
  - unfold Num.ceilDiv. destruct l as [| l' | l']; try lia.
    replace (Z.pos l' <? 0) with false by reflexivity.
    rewrite andb_false_r. reflexivity.
  - assert (H1 := Z.mul_div_le (- Z.of_nat n) l Hl).
    assert (H2 := Z.mul_succ_div_gt (- Z.of_nat n) l Hl).
    nia.
Qed.

End RouteFacts.

(** ** Pagination *)

Lemma paginate_consistent (pageNum : num) (l : Z) (filtered : list Item) :
  0 < l ->
  consistent (paginate pageNum (Fin l) (List.length filtered)) pageNum l filtered.
Proof.
  intros Hl.
  destruct (RouteFacts.ceilDiv_positive (List.length filtered) l Hl)
    as [pages [Hpages Hbounds]].
  unfold consistent, paginate. cbv zeta. rewrite Hpages. simpl.
  repeat split; trivial.
  - exists pages. repeat split; try lia.
    intros p ->. reflexivity.
  - intros p ->. reflexivity.
Qed.

(** ** Numbers below 2^53 *)

Module Exact.

Lemma digits_lower (m : positive) :
  2 ^ (Z.pos (digits2_pos m) - 1) <= Z.pos m < 2 ^ Z.pos (digits2_pos m).
Proof.
  induction m as [m IH | m IH |]; cbn [digits2_pos].
  - rewrite Pos2Z.inj_succ.
    replace (Z.succ (Z.pos (digits2_pos m)) - 1)
      with (Z.succ (Z.pos (digits2_pos m) - 1)) by lia.
    rewrite !Z.pow_succ_r by lia. lia.
  - rewrite Pos2Z.inj_succ.
    replace (Z.succ (Z.pos (digits2_pos m)) - 1)
      with (Z.succ (Z.pos (digits2_pos m) - 1)) by lia.
    rewrite !Z.pow_succ_r by lia. lia.
  - split; reflexivity.
Qed.

Lemma digits_safe (m : positive) :
  Z.pos m < 2 ^ 53 -> Z.pos (digits2_pos m) <= 53.
Proof.
  intros Hm.
  destruct (Z_le_gt_dec (Z.pos (digits2_pos m)) 53) as [H | H]; [exact H |].
  exfalso. destruct (digits_lower m) as [Hlow _].
  assert (2 ^ 53 <= 2 ^ (Z.pos (digits2_pos m) - 1))
    by (apply Z.pow_le_mono_r; lia).
  lia.
Qed.

Lemma iter_xO_value (m k : positive) :
  Z.pos (Pos.iter xO m k) = Z.pos m * 2 ^ Z.pos k.
Proof.
  revert m. induction k as [| k IH] using Pos.peano_ind; intros m.
  - change (Pos.iter xO m 1) with (xO m). change (2 ^ 1) with 2. lia.
  - rewrite Pos.iter_succ, Pos2Z.inj_succ, Z.pow_succ_r by lia.
    rewrite Pos2Z.inj_xO, IH. lia.
Qed.

Lemma iter_xO_digits (m k : positive) :
  Z.pos (digits2_pos (Pos.iter xO m k)) = Z.pos (digits2_pos m) + Z.pos k.
Proof.
  revert m. induction k as [| k IH] using Pos.peano_ind; intros m.
  - cbn. lia.
  - rewrite Pos.iter_succ. cbn [digits2_pos]. rewrite Pos2Z.inj_succ, IH. lia.
Qed.

(** An integer below 2^53 fits the 53 bits of a mantissa: rounding shifts
    it and cuts nothing off. *)
Lemma round_safe (s : bool) (m : positive) :
  Z.pos m < 2 ^ 53 ->
  exists mz ez,
    binary_round prec emax s m 0 = S754_finite s mz ez /\
    Z.shiftl (Z.pos mz) ez = Z.pos m.
Proof.
  intros Hm. pose proof (digits_safe m Hm) as Hd.
  pose proof (Pos2Z.is_pos (digits2_pos m)) as Hpos.
  unfold binary_round.
  set (d := Z.pos (digits2_pos m)) in *.
  assert (Hfexp : fexp prec emax (d + 0) = d - 53).
  { unfold fexp, emin, prec, emax. lia. }
  rewrite Hfexp. unfold shl_align.
  assert (Haux : forall mz ez,
             Z.pos (digits2_pos mz) + ez = d -> ez = d - 53 ->
             binary_round_aux prec emax s (Z.pos mz) ez loc_Exact =
             S754_finite s mz ez).
  { intros mz ez Hdz Hez. unfold binary_round_aux, shr_fexp.
    cbn [Zdigits2 shr_record_of_loc].
    assert (Hf : fexp prec emax (Z.pos (digits2_pos mz) + ez) = ez).
    { rewrite Hdz. unfold fexp, emin, prec, emax. lia. }
    rewrite Hf, Z.sub_diag.
    cbn [shr shr_m loc_of_shr_record round_nearest_even Zdigits2].
    rewrite Hf, Z.sub_diag. cbn [shr shr_m].
    replace (ez <=? emax - prec) with true
      by (symmetry; apply Z.leb_le; unfold emax, prec; lia).
    reflexivity. }
  destruct (d - 53 - 0) as [| k | k] eqn:Hk.
  - exists m, 0. split; [apply Haux; lia |]. apply Z.shiftl_0_r.
  - lia.
  - exists (Pos.iter xO m k), (d - 53). split.
    + apply Haux; [| reflexivity]. rewrite iter_xO_digits. fold d. lia.
    + rewrite iter_xO_value. replace (d - 53) with (- Z.pos k) by lia.
      rewrite Z.shiftl_opp_r, Z.shiftr_div_pow2 by lia.
      apply Z.div_mul. apply Z.pow_nonzero; lia.
Qed.

(** The engine holds a safe integer as it is. *)
Lemma ofInteger_safe (z : Z) :
  Binary64.safeInteger z -> Binary64.ofInteger z = Fin z.
Proof.
  unfold Binary64.safeInteger, Binary64.ofInteger. intros Hz.
  destruct z as [| m | m]; cbn [binary_normalize].
  - reflexivity.
  - assert (Hm : Z.pos m < 2 ^ 53) by lia.
    destruct (round_safe false m Hm) as (mz & ez & -> & Hv).
    rewrite Hv. f_equal; lia.
  - assert (Hm : Z.pos m < 2 ^ 53) by lia.
    destruct (round_safe true m Hm) as (mz & ez & -> & Hv).
    rewrite Hv. f_equal; lia.
Qed.

(** Above 2^53 it does not, and from 2^1024 on it holds an infinity. *)
Lemma ofInteger_rounds :
  Binary64.ofInteger (2 ^ 53 + 1) = Fin (2 ^ 53) /\
  Binary64.ofInteger (2 ^ 53 + 3) = Fin (2 ^ 53 + 4) /\
  Binary64.ofInteger (2 ^ 1024) = PosInf /\
  Binary64.parseInt hugeLimit = PosInf.
Proof. repeat split; vm_compute; reflexivity. Qed.

(** The page number, the limit, the offset and the end of a page whose end
    is below 2^53. *)
Lemma offset_safe (p l : Z) :
  1 <= p -> 0 < l -> p * l < 2 ^ 53 ->
  Binary64.number (Fin p) = Fin p /\
  Binary64.number (Fin l) = Fin l /\
  Binary64.mul (Binary64.sub (Fin p) (Fin 1)) (Fin l) = Fin ((p - 1) * l) /\
  Binary64.add (Fin ((p - 1) * l)) (Fin l) = Fin ((p - 1) * l + l).
Proof.
  intros Hp Hl Hend.
  assert (Hsafe : forall z, 0 <= z <= p * l -> Binary64.number (Fin z) = Fin z).
  { intros z Hz. apply ofInteger_safe. unfold Binary64.safeInteger. lia. }
  split; [apply Hsafe; nia |]. split; [apply Hsafe; nia |].
  unfold Binary64.mul, Binary64.sub, Binary64.add. split.
  - replace (Num.sub (Fin p) (Fin 1)) with (Fin (p - 1)) by reflexivity.
    rewrite (Hsafe (p - 1)) by nia.
    replace (Fin (p - 1)) with (Num.sub (Fin p) (Fin 1)) by reflexivity.
    rewrite (JsFacts.offset_Fin p l Hp Hl). apply Hsafe. nia.
  - cbn [Num.add]. apply Hsafe. nia.
Qed.

(** On a request whose page ends below 2^53 the routes with rounded Numbers
    are the routes of the model. *)
Lemma routes_exact `{Engine} (items : list Item) (query : Query.t) (l p : Z) :
  limitNumOf query = Fin l -> pageNumOf query = Fin p ->
  1 <= p -> 0 < l -> p * l < 2 ^ 53 ->
  Binary64.listItems items query = listItems items query /\
  Binary64.searchRoute items query = searchRoute items query.
Proof.
  intros Hlimit Hpage Hp Hl Hend.
  destruct (offset_safe p l Hp Hl Hend) as (Hnp & Hnl & Hoffset & Hstop).
  unfold Binary64.listItems, Binary64.searchRoute, listItems, searchRoute,
    Binary64.parseInt.
  cbv zeta.
  change (ParseInt.parseInt (orDefault "10" (Query.limit query)))
    with (limitNumOf query).
  change (ParseInt.parseInt (orDefault "1" (Query.page query)))
    with (pageNumOf query).
  rewrite Hlimit, Hpage, Hnp, Hnl, Hoffset, Hstop.
  rewrite (JsFacts.offset_Fin p l Hp Hl). split; reflexivity.
Qed.

End Exact.

(** C2, for the limits that the engine holds exactly.  For a limit [l] with
    [0 < l < 2^53] and a page [p >= 1], a page that the list route or the
    search route returns holds [min(l, max(0, totalItems - (p-1)*l))] items,
    where [totalItems] is the size of the filtered collection.  Both routes
    do return a page on a safe request: when every item has a string for name
    and category, or [q] and [category] are blank, and the items agree on the
    type of the sort key; a request that names no [q], [category] or [sortBy]
    is safe on every collection. *)
Theorem page_length :
  forall (E : Engine) (items : list Item) (query : Query.t) (l p : Z),
    limitNumOf query = Fin l ->
    pageNumOf query = Fin p ->
    0 < l < 2 ^ 53 -> 1 <= p ->
    (forall pg,
        listItems items query = Ok pg ->
        exists filtered,
          listFiltered items query = Ok filtered /\
          totalItems (pagination pg) = List.length filtered /\
          Z.of_nat (List.length (data pg)) =
          Z.min l (Z.max 0 (Z.of_nat (totalItems (pagination pg)) - (p - 1) * l))) /\
    (forall pg,
        searchRoute items query = Ok pg ->
        exists filtered,
          searchFiltered items query = Ok filtered /\
          totalItems (pagination pg) = List.length filtered /\
          Z.of_nat (List.length (data pg)) =
          Z.min l (Z.max 0 (Z.of_nat (totalItems (pagination pg)) - (p - 1) * l))) /\
    (safeRequest items query ->
     (exists pg, listItems items query = Ok pg) /\
     (exists pg, searchRoute items query = Ok pg)) /\
    (Query.q query = None -> Query.category query = None ->
     Query.sortBy query = None ->
     safeRequest items query).
Proof.
  intros E items query l p Hlimit Hpage [Hl Hsafe] Hp.
  assert (Hcut : forall (pg : Page) (filtered sorted : list Item),
             sortedBy query filtered = Ok sorted ->
             data pg = JsArray.slice sorted (offsetOf query)
                                     (Num.add (offsetOf query) (limitNumOf query)) ->
             pagination pg =
             paginate (pageNumOf query) (limitNumOf query) (List.length filtered) ->
             totalItems (pagination pg) = List.length filtered /\
             Z.of_nat (List.length (data pg)) =
             Z.min l (Z.max 0 (Z.of_nat (totalItems (pagination pg)) - (p - 1) * l))).
  { intros pg filtered sorted Hsorted Hdata Hmeta.
    rewrite Hmeta, Hdata. unfold offsetOf. rewrite Hlimit, Hpage.
    rewrite (JsFacts.offset_Fin p l Hp Hl).
    rewrite RouteFacts.page_slice_length by assumption.
    unfold sortedBy in Hsorted. apply JsFacts.sort_length in Hsorted.
    rewrite Hsorted. split; reflexivity. }
  split; [| split; [| split]].
  - intros pg Hpg.
    destruct (RouteFacts.listItems_Ok items query pg Hpg)
      as (filtered & sorted & Hf & Hs & Hdata & Hmeta).
    exists filtered. split; [exact Hf |]. apply (Hcut pg filtered sorted); assumption.
  - intros pg Hpg.
    destruct (RouteFacts.searchRoute_Ok items query pg Hpg)
      as (filtered & sorted & Hf & Hs & Hdata & Hmeta).
    exists filtered. split; [exact Hf |]. apply (Hcut pg filtered sorted); assumption.
  - apply RouteFacts.routes_safe.
  - apply RouteFacts.safeRequest_default.
Qed.

Lemma mockItems_textual : Forall textual mockItems.
Proof.
  unfold mockItems.
  repeat constructor; eexists; eexists; split; reflexivity.
Qed.

Lemma mockItems_uniform (key : string) : uniform key mockItems.
Proof.
  assert (Hall : forall a, In a mockItems ->
                           isStr (getField key a) =
                           isStr (getField key (item 1 "Laptop Pro" "Electronics" 2499))).
  { intros a Ha. unfold mockItems in Ha. simpl in Ha.
    destruct Ha as [<- | [<- | [<- | []]]]; unfold getField; simpl;
      repeat match goal with |- context [String.eqb key ?k] => destruct (String.eqb key k) end;
      reflexivity. }
  intros a b Ha Hb. rewrite (Hall a Ha), (Hall b Hb). reflexivity.
Qed.

Lemma page_length_witness :
  exists pg,
    listItems (H := sampleEngine) mockItems
              (Query.mk (Some "2") (Some "2") None None None None None None) = Ok pg /\
    Z.of_nat (List.length (data pg)) = 1.
Proof.
  destruct (page_length sampleEngine mockItems
              (Query.mk (Some "2") (Some "2") None None None None None None)
              2 2 eq_refl eq_refl (conj eq_refl eq_refl))
    as (Hlist & _ & Hresponds & _).
  - discriminate.
  - destruct (Hresponds (conj (or_introl mockItems_textual) (mockItems_uniform _)))
      as [[pg Hpg] _].
    exists pg. split; [exact Hpg |].
    destruct (Hlist pg Hpg) as (filtered & Hf & Htotal & Hlen).
    rewrite Hlen, Htotal.
    vm_compute in Hf. injection Hf as <-. reflexivity.
Defined.

(** C2 fails for a limit that the engine cannot hold.  [parseInt] reads the
    310 digits of [hugeLimit] as a positive integer, 10^309; the Number for
    it is [Infinity], the offset [0 * Infinity] is NaN, and [slice(NaN, NaN)]
    is empty: both routes answer page 1 of the three items with no item,
    where the formula gives [min(10^309, max(0, 3 - 0)) = 3]. *)
Lemma page_length_counterexample :
  limitNumOf (withLimit hugeLimit) = Fin (10 ^ 309) /\
  pageNumOf (withLimit hugeLimit) = Fin 1 /\
  0 < 10 ^ 309 /\ 1 <= 1 /\
  Binary64.parseInt hugeLimit = PosInf /\
  Binary64.mul (Binary64.sub (Fin 1) (Fin 1)) PosInf = NaN /\
  exists pg pg',
    Binary64.listItems (H := sampleEngine) mockItems (withLimit hugeLimit) = Ok pg /\
    Binary64.searchRoute (H := sampleEngine) mockItems (withLimit hugeLimit) = Ok pg' /\
    totalItems (pagination pg) = 3%nat /\
    totalItems (pagination pg') = 3%nat /\
    data pg = [] /\
    data pg' = [] /\
    Z.of_nat (List.length (data pg)) <>
    Z.min (10 ^ 309)
          (Z.max 0 (Z.of_nat (totalItems (pagination pg)) - (1 - 1) * 10 ^ 309)) /\
    Z.of_nat (List.length (data pg')) <>
    Z.min (10 ^ 309)
          (Z.max 0 (Z.of_nat (totalItems (pagination pg')) - (1 - 1) * 10 ^ 309)).
Proof.
  split; [vm_compute; reflexivity |].
  split; [reflexivity |].
  split; [reflexivity |].
  split; [discriminate |].
  split; [vm_compute; reflexivity |].
  split; [reflexivity |].
  eexists. eexists.
  split; [vm_compute; reflexivity |].
  split; [vm_compute; reflexivity |].
  repeat (split; [reflexivity |]).
  split; vm_compute; discriminate.
Qed.

(** C3, for the limits that the engine holds exactly.  For a limit [l] with
    [0 < l < 2^53], the metadata of a page that the list route or the search
    route returns has [itemsPerPage = l], [totalPages = ceil(totalItems / l)],
    [hasNextPage = (page < totalPages)] and [hasPrevPage = (page > 1)], where
    [totalItems] is the size of the filtered collection, counted before the
    sort and before the cut.  On a safe request both routes return a page. *)
Theorem pagination_metadata :
  forall (E : Engine) (items : list Item) (query : Query.t) (l : Z),
    limitNumOf query = Fin l ->
    0 < l < 2 ^ 53 ->
    (forall pg,
        listItems items query = Ok pg ->
        exists filtered,
          listFiltered items query = Ok filtered /\
          consistent (pagination pg) (pageNumOf query) l filtered) /\
    (forall pg,
        searchRoute items query = Ok pg ->
        exists filtered,
          searchFiltered items query = Ok filtered /\
          consistent (pagination pg) (pageNumOf query) l filtered) /\
    (safeRequest items query ->
     (exists pg, listItems items query = Ok pg) /\
     (exists pg, searchRoute items query = Ok pg)).
Proof.
  intros E items query l Hlimit [Hl Hsafe]. split; [| split].
  - intros pg Hpg.
    destruct (RouteFacts.listItems_Ok items query pg Hpg)
      as (filtered & sorted & Hf & Hs & Hdata & Hmeta).
    exists filtered. split; [exact Hf |].
    rewrite Hmeta, Hlimit. apply paginate_consistent, Hl.
  - intros pg Hpg.
    destruct (RouteFacts.searchRoute_Ok items query pg Hpg)
      as (filtered & sorted & Hf & Hs & Hdata & Hmeta).
    exists filtered. split; [exact Hf |].
    rewrite Hmeta, Hlimit. apply paginate_consistent, Hl.
  - apply RouteFacts.routes_safe.
Qed.

Lemma pagination_metadata_witness :
  exists pg,
    listItems (H := sampleEngine) mockItems
              (Query.mk (Some "2") (Some "2") None None None None None None) = Ok pg /\
    totalPages (pagination pg) = Fin 2 /\
    hasNextPage (pagination pg) = false /\
    hasPrevPage (pagination pg) = true.
Proof.
  destruct (RouteFacts.listItems_total (H := sampleEngine) mockItems
              (Query.mk (Some "2") (Some "2") None None None None None None)
              mockItems_textual (mockItems_uniform _)) as [pg Hpg].
  exists pg. split; [exact Hpg |].
  destruct (pagination_metadata sampleEngine mockItems
              (Query.mk (Some "2") (Some "2") None None None None None None)
              2 eq_refl (conj eq_refl eq_refl)) as (Hlist & _ & _).
  destruct (Hlist pg Hpg)
    as (filtered & Hf & Htotal & _ & (pages & Hpages & Hbounds & _ & Hnext) & _ & Hprev).
  vm_compute in Hf. injection Hf as <-.
  rewrite Htotal in Hbounds. simpl in Hbounds.
  assert (pages = 2) as -> by lia.
  rewrite Hpages, (Hnext 2 eq_refl), (Hprev 2 eq_refl).
  repeat split; reflexivity.
Defined.

(** C3 fails for a limit that the engine cannot hold.  For the 310 digits of
    [hugeLimit], which [parseInt] reads as the positive integer 10^309, the
    engine computes with [Infinity]: [Math.ceil(3 / Infinity)] is 0, so both
    routes report [totalPages = 0] for three items, where the ceiling of
    [3 / 10^309] is 1; and [itemsPerPage] is [Infinity], not the limit. *)
Lemma pagination_metadata_counterexample :
  limitNumOf (withLimit hugeLimit) = Fin (10 ^ 309) /\
  0 < 10 ^ 309 /\
  Binary64.parseInt hugeLimit = PosInf /\
  Num.ceilDiv 3 (Fin (10 ^ 309)) = Fin 1 /\
  exists pg pg',
    Binary64.listItems (H := sampleEngine) mockItems (withLimit hugeLimit) = Ok pg /\
    Binary64.searchRoute (H := sampleEngine) mockItems (withLimit hugeLimit) = Ok pg' /\
    totalItems (pagination pg) = 3%nat /\
    totalItems (pagination pg') = 3%nat /\
    totalPages (pagination pg) = Fin 0 /\
    totalPages (pagination pg') = Fin 0 /\
    itemsPerPage (pagination pg) = PosInf /\
    itemsPerPage (pagination pg') = PosInf /\
    totalPages (pagination pg) <>
    Num.ceilDiv (totalItems (pagination pg)) (limitNumOf (withLimit hugeLimit)) /\
    totalPages (pagination pg') <>
    Num.ceilDiv (totalItems (pagination pg')) (limitNumOf (withLimit hugeLimit)).
Proof.
  split; [vm_compute; reflexivity |].
  split; [reflexivity |].
  split; [vm_compute; reflexivity |].
  split; [vm_compute; reflexivity |].
  eexists. eexists.
  split; [vm_compute; reflexivity |].
  split; [vm_compute; reflexivity |].
  repeat (split; [reflexivity |]).
  split; vm_compute; discriminate.
Qed.






(** ** Lookup by id *)

Lemma find_none_of {A : Type} (f : A -> bool) (l : list A) :
  (forall x, In x l -> f x = false) -> find f l = None.
Proof.
  induction l as [| x l IH]; simpl; intros Hall; [reflexivity |].
  rewrite (Hall x (or_introl eq_refl)). apply IH. auto.
Qed.

Lemma findItem_missing (items : list Item) (idParam : string) :
  (forall i, In i items -> idIs (ParseInt.parseInt idParam) i = false) ->
  findItem items idParam = Throw (mkExn "Item not found" (Some 404)).
Proof.
  intros Hall. unfold findItem. rewrite (find_none_of _ _ Hall). reflexivity.
Qed.

(** C4, as the code has it.  When no item of the collection has the id that
    [parseInt] reads from the path segment, GET /api/items/:id answers with
    status 404 and the body [{message: "Item not found"}], to which
    [errorHandler] adds a [stack] member when NODE_ENV is "development".  The
    body [{error: "Item not found"}] is what the error middleware of the test
    suite makes of the same exception. *)
Theorem item_not_found :
  forall (E : Engine) (nodeEnv : option string) (w : World) (items : list Item)
         (idParam : string),
    readData w = Ok items ->
    (forall i, In i items -> idIs (ParseInt.parseInt idParam) i = false) ->
    statusCode (App.getItemById nodeEnv w idParam) = 404 /\
    body (App.getItemById nodeEnv w idParam) =
    JsonObject
      (("message", "Item not found") ::
       (if isDevelopment nodeEnv
        then [("stack", stackTrace (mkExn "Item not found" (Some 404)))]
        else [])) /\
    (isDevelopment nodeEnv = false ->
     App.getItemById nodeEnv w idParam =
     mkResponse 404 (JsonObject [("message", "Item not found")])) /\
    respond testErrorHandler 200 JsonItem
            (data <- readData w ;; findItem data idParam) =
    mkResponse 404 (JsonObject [("error", "Item not found")]).
Proof.
  intros E nodeEnv w items idParam Hread Hall.
  unfold App.getItemById. rewrite Hread. simpl.
  rewrite (findItem_missing items idParam Hall). simpl.
  unfold errorHandler. simpl.
  repeat split; trivial.
  intros Hdev. rewrite Hdev. reflexivity.
Qed.

Lemma mockItems_no_999 :
  forall i, In i mockItems -> idIs (ParseInt.parseInt "999") i = false.
Proof.
  intros i Hi. unfold mockItems in Hi. simpl in Hi.
  destruct Hi as [<- | [<- | [<- | []]]]; reflexivity.
Qed.

Lemma item_not_found_witness :
  App.getItemById (H := sampleEngine) None (mkWorld (Ok mockItems) None) "999" =
  mkResponse 404 (JsonObject [("message", "Item not found")]).
Proof.
  destruct (item_not_found sampleEngine None (mkWorld (Ok mockItems) None)
                           mockItems "999" eq_refl mockItems_no_999)
    as (_ & _ & Hbody & _).
  apply Hbody. reflexivity.
Defined.

(** C4 as stated fails: the application answers GET /api/items/999 on the
    collection of the test suite with [{message: ...}], not [{error: ...}]. *)
Lemma item_not_found_counterexample :
  (forall i, In i mockItems -> idIs (ParseInt.parseInt "999") i = false) /\
  App.getItemById (H := sampleEngine) None (mkWorld (Ok mockItems) None) "999" =
  mkResponse 404 (JsonObject [("message", "Item not found")]) /\
  App.getItemById (H := sampleEngine) None (mkWorld (Ok mockItems) None) "999" <>
  mkResponse 404 (JsonObject [("error", "Item not found")]).
Proof.
  split; [exact mockItems_no_999 |].
  split; [reflexivity | discriminate].
Qed.

(** ** The filters on values that are not strings *)

(** C10.  There is a collection with an item whose name and category are
    [null] (the test suite posts such an item and gets 201) on which, for a
    non-blank [q] and for a non-blank [category], the text filter and the
    category filter raise a TypeError instead of dropping the item, so that the
    list route and the search route answer 500. *)
Theorem filters_throw_on_null :
  exists (items : list Item) (q wanted : string),
    (exists i, In i items /\ name i = Null /\ category i = Null) /\
    snd (createItem (mkWorld (Ok mockItems) None) 4 nullBody) = Ok (withId 4 nullBody) /\
    readData (fst (createItem (mkWorld (Ok mockItems) None) 4 nullBody)) = Ok items /\
    JsString.truthy (JsString.trim q) = true /\
    JsString.truthy (JsString.trim wanted) = true /\
    forall (E : Engine) (nodeEnv : option string) (fault : option Exn),
      let w := mkWorld (Ok items) fault in
      let byText := Query.mk None None (Some q) None None None None None in
      let byCategory := Query.mk None None None None None (Some wanted) None None in
      textFilter q items = Throw (typeError "null") /\
      categoryFilter wanted items = Throw (typeError "null") /\
      searchItems items q "" "" "" = Throw (typeError "null") /\
      searchItems items "" wanted "" "" = Throw (typeError "null") /\
      statusCode (App.getItems nodeEnv w byText) = 500 /\
      statusCode (App.getItems nodeEnv w byCategory) = 500 /\
      statusCode (App.getSearch nodeEnv w byText) = 500 /\
      statusCode (App.getSearch nodeEnv w byCategory) = 500.
Proof.
  exists withNulls, "laptop", "Electronics".
  split.
  { exists (withId 4 nullBody). split; [| split; reflexivity].
    unfold withNulls. apply in_or_app. right. left. reflexivity. }
  repeat split; reflexivity.
Qed.

(** ** Strings *)

Module StringFacts.

Lemma prefix_spec (t s : string) :
  prefix t s = true <-> exists post, s = t ++ post.
Proof.
  revert s. induction t as [| c t IH]; intros s.
  - destruct s; simpl; split; eauto.
  - destruct s as [| d s]; simpl.
    + split; [discriminate | intros [post Hp]; discriminate].
    + destruct (ascii_dec c d) as [-> | Hne].
      * rewrite IH. split; intros [post Hp]; exists post.
        -- rewrite Hp. reflexivity.
        -- injection Hp. auto.
      * split; [discriminate |].
        intros [post Hp]. injection Hp. intros _ Hcd. congruence.
Qed.

Lemma includes_spec (s t : string) :
  JsString.includes s t = true <-> occursIn t s.
Proof.
  unfold occursIn. induction s as [| c s IH]; cbn [JsString.includes].
  - rewrite orb_false_r, prefix_spec. split.
    + intros [post Hp]. exists "", post. exact Hp.
    + intros [pre [post Hp]]. destruct pre; simpl in Hp; [eauto | discriminate].
  - rewrite orb_true_iff, prefix_spec, IH. split.
    + intros [[post Hp] | [pre [post Hp]]].
      * exists "", post. exact Hp.
      * exists (String c pre), post. simpl. rewrite Hp. reflexivity.
    + intros [pre [post Hp]]. destruct pre as [| d pre]; simpl in Hp.
      * left. eauto.
      * right. injection Hp as _ Hp. eauto.
Qed.

Lemma isWhiteSpace_lowerChar (c : ascii) :
  JsString.isWhiteSpace (JsString.lowerChar c) = JsString.isWhiteSpace c.
Proof. destruct c as [[] [] [] [] [] [] [] []]; reflexivity. Qed.

Lemma trimStart_toLowerCase (s : string) :
  JsString.trimStart (JsString.toLowerCase s) =
  JsString.toLowerCase (JsString.trimStart s).
Proof.
  induction s as [| c s IH]; simpl; [reflexivity |].
  rewrite isWhiteSpace_lowerChar.
  destruct (JsString.isWhiteSpace c); [exact IH | reflexivity].
Qed.

Lemma trimEnd_toLowerCase (s : string) :
  JsString.trimEnd (JsString.toLowerCase s) =
  JsString.toLowerCase (JsString.trimEnd s).
Proof.
  induction s as [| c s IH]; simpl; [reflexivity |].
  rewrite IH, isWhiteSpace_lowerChar.
  destruct (JsString.trimEnd s); simpl; [| reflexivity].
  destruct (JsString.isWhiteSpace c); reflexivity.
Qed.

(** Folding the case and trimming commute. *)
Lemma trim_toLowerCase (s : string) :
  JsString.trim (JsString.toLowerCase s) = JsString.toLowerCase (JsString.trim s).
Proof.
  unfold JsString.trim. rewrite trimStart_toLowerCase. apply trimEnd_toLowerCase.
Qed.

Lemma truthy_trim (s : string) :
  JsString.truthy (JsString.trim s) = true -> JsString.truthy s = true.
Proof. destruct s; [discriminate | reflexivity]. Qed.

End StringFacts.

(** ** The text filter *)

Module FilterFacts.

Lemma filter_by {A : Type} (f : A -> Res bool) (g : A -> bool) (l : list A) :
  (forall x, In x l -> f x = Ok (g x)) ->
  Js.filter f l = Ok (List.filter g l).
Proof.
  induction l as [| x l IH]; simpl; intros Hall; [reflexivity |].
  rewrite (Hall x (or_introl eq_refl)). simpl.
  rewrite IH by auto. reflexivity.
Qed.

Lemma filter_all {A : Type} (f : A -> Res bool) (l : list A) :
  (forall x, In x l -> f x = Ok true) -> Js.filter f l = Ok l.
Proof.
  induction l as [| x l IH]; simpl; intros Hall; [reflexivity |].
  rewrite (Hall x (or_introl eq_refl)). simpl.
  rewrite IH by auto. reflexivity.
Qed.

Lemma keepsText_spec (q : string) (i : Item) :
  keepsText q i = true <-> textMatch q i.
Proof.
  unfold keepsText, textMatch.
  destruct (name i) as [| | n]; try (split; [discriminate | intros (? & ? & ? & _); discriminate]).
  destruct (category i) as [| | c];
    try (split; [discriminate | intros (? & ? & _ & ? & _); discriminate]).
  rewrite orb_true_iff, !StringFacts.includes_spec. split.
  - intros Hm. exists n, c. auto.
  - intros (n' & c' & Hn & Hc & Hm). injection Hn as <-. injection Hc as <-. exact Hm.
Qed.

Lemma matchesText_textual (q : string) (i : Item) :
  textual i ->
  matchesText (JsString.trim (JsString.toLowerCase q)) i = Ok (keepsText q i).
Proof.
  intros (n & c & Hn & Hc). unfold matchesText, keepsText, lower.
  rewrite Hn, Hc. simpl. rewrite StringFacts.trim_toLowerCase.
  destruct (JsString.includes (JsString.toLowerCase n) _); reflexivity.
Qed.

End FilterFacts.

(** C5, as the code has it.  On a collection whose items all have a string
    for name and for category, a [q] that is not blank after trimming makes the
    text filter of the list route, and [searchItems] with no other filter,
    keep exactly the items whose name or category, case-folded, contains the
    case-folded trimmed [q]; a blank [q] (the default of an absent one) keeps
    every item of every collection.  "LAPTOP" and "laptop" both match an item
    named "Laptop Pro". *)
Theorem text_filter :
  forall (E : Engine) (items : list Item) (q : string),
    (blank q ->
     textFilter q items = Ok items /\
     searchItems items q "" "" "" = Ok items) /\
    (JsString.truthy (JsString.trim q) = true ->
     Forall textual items ->
     (forall i, keepsText q i = true <-> textMatch q i) /\
     textFilter q items = Ok (List.filter (keepsText q) items) /\
     searchItems items q "" "" "" = Ok (List.filter (keepsText q) items)) /\
    (forall query,
        Query.q query = None -> Query.category query = None ->
        listFiltered items query = Ok items) /\
    (forall i,
        name i = Val "Laptop Pro" ->
        textFilter "LAPTOP" [i] = Ok [i] /\ textFilter "laptop" [i] = Ok [i] /\
        searchItems [i] "LAPTOP" "" "" "" = Ok [i] /\
        searchItems [i] "laptop" "" "" "" = Ok [i]).
Proof.
  intros E items q. split; [| split; [| split]].
  - intros Hblank. unfold blank in Hblank. unfold textFilter, searchItems.
    rewrite Hblank.
    rewrite andb_false_r. split; [reflexivity |].
    apply FilterFacts.filter_all. intros x _. reflexivity.
  - intros Hq Hall. rewrite Forall_forall in Hall.
    split; [intros i; apply FilterFacts.keepsText_spec |]. split.
    + unfold textFilter. rewrite Hq.
      apply FilterFacts.filter_by. intros x Hx.
      apply FilterFacts.matchesText_textual. auto.
    + unfold searchItems. rewrite Hq, (StringFacts.truthy_trim q Hq). simpl.
      apply FilterFacts.filter_by. intros x Hx.
      rewrite (FilterFacts.matchesText_textual q x (Hall x Hx)). simpl.
      destruct (keepsText q x); reflexivity.
  - intros query Hq Hc. unfold listFiltered. rewrite Hq, Hc. reflexivity.
  - intros i Hn. unfold textFilter, searchItems, matchesText, lower. simpl.
    rewrite Hn. simpl. repeat split; reflexivity.
Qed.

Lemma text_filter_witness :
  textFilter "LAPTOP" mockItems = Ok [item 1 "Laptop Pro" "Electronics" 2499] /\
  textFilter "   " mockItems = Ok mockItems.
Proof.
  destruct (text_filter sampleEngine mockItems "LAPTOP") as (_ & Hkeep & _).
  destruct (text_filter sampleEngine mockItems "   ") as (Hblank & _).
  split.
  - destruct (Hkeep eq_refl mockItems_textual) as (_ & -> & _). reflexivity.
  - apply Hblank. reflexivity.
Defined.

(** C5 as stated fails on a collection with an item whose name is [null]:
    nothing is kept, the filter raises. *)
Lemma text_filter_counterexample :
  JsString.truthy (JsString.trim "laptop") = true /\
  textFilter "laptop" withNulls = Throw (typeError "null") /\
  searchItems (H := sampleEngine) withNulls "laptop" "" "" "" = Throw (typeError "null") /\
  forall kept, textFilter "laptop" withNulls <> Ok kept.
Proof.
  repeat split; try reflexivity. intros kept. discriminate.
Qed.

(** ** Printing and reading an id *)

Module NumberFacts.

Import NumberToString.

Lemma small_cases (d : Z) :
  0 <= d < 10 ->
  d = 0 \/ d = 1 \/ d = 2 \/ d = 3 \/ d = 4 \/ d = 5 \/ d = 6 \/ d = 7 \/ d = 8 \/ d = 9.
Proof. lia. Qed.

Lemma digitVal_digitChar (d : Z) :
  0 <= d < 10 -> ParseInt.digitVal 10 (digitChar d) = Some d.
Proof.
  intros Hd.
  destruct (small_cases d Hd) as [-> | [-> | [-> | [-> | [-> | [-> | [-> | [-> | [-> | ->]]]]]]]]];
    reflexivity.
Qed.

Lemma digits_step (d : Z) (rest : string) (acc : option Z) :
  0 <= d < 10 ->
  ParseInt.digits 10 (String (digitChar d) rest) acc =
  ParseInt.digits 10 rest
                  (Some (match acc with Some a => a * 10 + d | None => d end)).
Proof.
  intros Hd. cbn [ParseInt.digits]. rewrite (digitVal_digitChar d Hd). reflexivity.
Qed.

(** Reading back the digits that [digitsOf] wrote. *)
Lemma digits_digitsOf (fuel : nat) (z : Z) (acc : string) :
  0 <= z < 10 ^ Z.of_nat (S fuel) ->
  ParseInt.digits 10 (digitsOf (S fuel) z acc) None =
  ParseInt.digits 10 acc (Some z).
Proof.
  revert z acc. induction fuel as [| fuel IH]; intros z acc Hz.
  - cbn [digitsOf]. change (10 ^ Z.of_nat 1) with 10 in Hz.
    assert (Hm : z mod 10 = z) by (apply Z.mod_small; lia).
    destruct (z <? 10); rewrite digits_step, Hm by lia; reflexivity.
  - change (digitsOf (S (S fuel)) z acc)
      with (if z <? 10 then String (digitChar (z mod 10)) acc
            else digitsOf (S fuel) (z / 10) (String (digitChar (z mod 10)) acc)).
    assert (Hmod : 0 <= z mod 10 < 10) by (apply Z.mod_pos_bound; lia).
    destruct (z <? 10) eqn:Hlt.
    + apply Z.ltb_lt in Hlt.
      rewrite digits_step by exact Hmod.
      rewrite Z.mod_small by lia. reflexivity.
    + rewrite IH.
      * rewrite digits_step by exact Hmod. do 2 f_equal.
        rewrite (Z.div_mod z 10) at 3 by lia. lia.
      * split; [apply Z.div_pos; lia |].
        apply Z.div_lt_upper_bound; [lia |].
        rewrite Nat2Z.inj_succ, Z.pow_succ_r in Hz by lia. lia.
Qed.

Lemma digitsOf_shape (fuel : nat) (z : Z) (acc : string) :
  0 <= z ->
  exists d rest,
    0 <= d < 10 /\ digitsOf (S fuel) z acc = String (digitChar d) rest /\
    (rest = acc \/ exists d' rest', 0 <= d' < 10 /\ rest = String (digitChar d') rest').
Proof.
  revert z acc. induction fuel as [| fuel IH]; intros z acc Hz.
  - exists (z mod 10), acc.
    split; [apply Z.mod_pos_bound; lia |]. split; [| left; reflexivity].
    cbn [digitsOf]. destruct (z <? 10); reflexivity.
  - assert (Hmod : 0 <= z mod 10 < 10) by (apply Z.mod_pos_bound; lia).
    change (digitsOf (S (S fuel)) z acc)
      with (if z <? 10 then String (digitChar (z mod 10)) acc
            else digitsOf (S fuel) (z / 10) (String (digitChar (z mod 10)) acc)).
    destruct (z <? 10).
    + exists (z mod 10), acc. split; [exact Hmod |]. split; [reflexivity | left; reflexivity].
    + destruct (IH (z / 10) (String (digitChar (z mod 10)) acc))
        as (d & rest & Hd & Heq & Hrest).
      { apply Z.div_pos; lia. }
      exists d, rest. split; [exact Hd |]. split; [exact Heq |].
      right. destruct Hrest as [-> | Hrest]; [| exact Hrest].
      exists (z mod 10), acc. split; [exact Hmod | reflexivity].
Qed.

(** On such a text [parseInt] skips nothing and reads in base ten. *)
Lemma parseInt_digitFirst (s : string) :
  digitFirst s ->
  ParseInt.parseInt s =
  match ParseInt.digits 10 s None with
  | None => NaN
  | Some v => Fin v
  end.
Proof.
  intros (d & rest & Hd & -> & Hrest).
  destruct (small_cases d Hd) as [-> | [-> | [-> | [-> | [-> | [-> | [-> | [-> | [-> | ->]]]]]]]]];
    try reflexivity.
  destruct Hrest as [-> | (d' & rest' & Hd' & ->)]; [reflexivity |].
  destruct (small_cases d' Hd')
    as [-> | [-> | [-> | [-> | [-> | [-> | [-> | [-> | [-> | ->]]]]]]]]];
    reflexivity.
Qed.

Lemma fuel_enough (n : Z) :
  0 <= n -> 0 <= n < 10 ^ Z.of_nat (S (Z.to_nat (Z.log2 n))).
Proof.
  intros Hn. split; [exact Hn |].
  rewrite Nat2Z.inj_succ, Z2Nat.id by apply Z.log2_nonneg.
  destruct (Z.eq_dec n 0) as [-> | Hne].
  - reflexivity.
  - assert (Hlog := Z.log2_spec n ltac:(lia)).
    assert (Hpow : 2 ^ Z.succ (Z.log2 n) <= 10 ^ Z.succ (Z.log2 n)).
    { apply Z.pow_le_mono_l. lia. }
    lia.
Qed.

(** [parseInt] reads back the text of a non-negative integer. *)
Lemma parseInt_toString (n : Z) :
  0 <= n -> ParseInt.parseInt (toString n) = Fin n.
Proof.
  intros Hn. unfold toString.
  replace (n <? 0) with false by (symmetry; apply Z.ltb_ge; exact Hn).
  unfold unsigned. rewrite parseInt_digitFirst.
  - rewrite digits_digitsOf by (apply fuel_enough; exact Hn). reflexivity.
  - destruct (digitsOf_shape (Z.to_nat (Z.log2 n)) n "" Hn)
      as (d & rest & Hd & Heq & Hrest).
    exists d, rest. auto.
Qed.

End NumberFacts.

(** ** Creation *)

Lemma find_app_last (f : Item -> bool) (items : list Item) (created : Item) :
  (forall i, In i items -> f i = false) ->
  f created = true ->
  find f (items ++ [created]) = Some created.
Proof.
  induction items as [| x items IH]; simpl; intros Hall Hc.
  - rewrite Hc. reflexivity.
  - rewrite (Hall x (or_introl eq_refl)). apply IH; auto.
Qed.

Lemma idIs_other (now : Z) (i : Item) :
  id i <> Val now -> idIs (Fin now) i = false.
Proof.
  unfold idIs. destruct (id i) as [| | z]; trivial.
  intros Hne. simpl. apply Z.eqb_neq. congruence.
Qed.

(** C7, as the code has it.  On a readable collection, a creation request at
    time [now] whose write succeeds answers 201 with the body of the request
    with [id = now], and stores the collection with that one item appended, the
    existing items unchanged and in their order.  When no existing item has
    the id [now], a later GET by that id answers with the created item. *)
Theorem create_then_fetch :
  forall (E : Engine) (nodeEnv : option string) (w : World) (items : list Item)
         (now : Z) (body : Item),
    readData w = Ok items ->
    writeFault w = None ->
    snd (App.postItem nodeEnv w now body) =
    mkResponse 201 (JsonItem (withId now body)) /\
    readData (fst (App.postItem nodeEnv w now body)) =
    Ok (items ++ [withId now body])%list /\
    firstn (List.length items) (items ++ [withId now body]) = items /\
    List.length (items ++ [withId now body]) = S (List.length items) /\
    id (withId now body) = Val now /\
    (name (withId now body), category (withId now body), price (withId now body),
     createdAt (withId now body), description (withId now body),
     tags (withId now body)) =
    (name body, category body, price body,
     createdAt body, description body, tags body) /\
    (forall idParam,
        ParseInt.parseInt idParam = Fin now ->
        (forall i, In i items -> id i <> Val now) ->
        App.getItemById nodeEnv (fst (App.postItem nodeEnv w now body)) idParam =
        mkResponse 200 (JsonItem (withId now body))) /\
    (0 <= now ->
     (forall i, In i items -> id i <> Val now) ->
     App.getItemById nodeEnv (fst (App.postItem nodeEnv w now body))
                     (NumberToString.toString now) =
     mkResponse 200 (JsonItem (withId now body))).
Proof.
  intros E nodeEnv w items now body Hread Hwrite.
  unfold App.postItem, createItem. rewrite Hread, Hwrite. simpl.
  assert (Hget : forall idParam,
             ParseInt.parseInt idParam = Fin now ->
             (forall i, In i items -> id i <> Val now) ->
             App.getItemById nodeEnv
               (mkWorld (Ok (items ++ [withId now body])%list) None) idParam =
             mkResponse 200 (JsonItem (withId now body))).
  { intros idParam Hparse Hfresh. unfold App.getItemById. simpl.
    unfold findItem. rewrite Hparse.
    rewrite (find_app_last (idIs (Fin now)) items (withId now body)).
    - reflexivity.
    - intros i Hi. apply idIs_other. auto.
    - unfold idIs. simpl. apply Z.eqb_refl. }
  repeat split.
  - rewrite firstn_app, Nat.sub_diag, firstn_all. simpl. apply app_nil_r.
  - rewrite length_app. simpl. lia.
  - exact Hget.
  - intros Hnow Hfresh. apply Hget; [| exact Hfresh].
    apply NumberFacts.parseInt_toString, Hnow.
Qed.

Lemma create_then_fetch_witness :
  NumberToString.toString 1700000000000 = "1700000000000" /\
  App.getItemById (H := sampleEngine) None
    (fst (App.postItem (H := sampleEngine) None (mkWorld (Ok mockItems) None)
                       1700000000000 newBody))
    "1700000000000" =
  mkResponse 200 (JsonItem (withId 1700000000000 newBody)).
Proof.
  split; [reflexivity |].
  destruct (create_then_fetch sampleEngine None (mkWorld (Ok mockItems) None)
              mockItems 1700000000000 newBody eq_refl eq_refl)
    as (_ & _ & _ & _ & _ & _ & _ & Hget).
  apply Hget; [discriminate |].
  intros i Hi. unfold mockItems in Hi. simpl in Hi.
  destruct Hi as [<- | [<- | [<- | []]]]; discriminate.
Defined.

(** C7 as stated fails when an existing item already has the id that the
    clock assigns: the later GET answers with the older item. *)
Lemma create_then_fetch_counterexample :
  snd (App.postItem (H := sampleEngine) None (mkWorld (Ok clashing) None)
                    1700000000000 newBody) =
  mkResponse 201 (JsonItem (withId 1700000000000 newBody)) /\
  App.getItemById (H := sampleEngine) None
    (fst (App.postItem (H := sampleEngine) None (mkWorld (Ok clashing) None)
                       1700000000000 newBody))
    "1700000000000" =
  mkResponse 200 (JsonItem (item 1700000000000 "Old Item" "Test" 1)) /\
  App.getItemById (H := sampleEngine) None
    (fst (App.postItem (H := sampleEngine) None (mkWorld (Ok clashing) None)
                       1700000000000 newBody))
    "1700000000000" <>
  mkResponse 200 (JsonItem (withId 1700000000000 newBody)).
Proof.
  split; [reflexivity |]. split; [reflexivity |].
  intros Heq. vm_compute in Heq. discriminate Heq.
Qed.

(** ** Sorting *)

Module SortFacts.

Section Insertion.

Context {A : Type}.
Variable cmp : A -> A -> Res Z.
Variable R : A -> A -> Prop.
Variable P : A -> Prop.

(** On the elements that satisfy [P] the comparator decides [R]: a positive
    result puts the second argument first. *)
Hypothesis cmp_decides :
  forall a b v, P a -> P b -> cmp a b = Ok v -> if 0 <? v then R b a else R a b.

Lemma insert_HdRel (h x : A) (l r : list A) :
  Js.insert cmp x l = Ok r -> HdRel R h l -> R h x -> HdRel R h r.
Proof.
  destruct l as [| y l]; simpl; intros Hr Hl Hx.
  - injection Hr as <-. constructor. exact Hx.
  - bind_inv Hr. destruct (0 <? a).
    + bind_inv Hr. injection Hr as <-. constructor.
      inversion Hl; assumption.
    + injection Hr as <-. constructor. exact Hx.
Qed.

Lemma insert_sorted (x : A) (l r : list A) :
  P x -> Forall P l -> Sorted R l -> Js.insert cmp x l = Ok r -> Sorted R r.
Proof.
  intros Hx. revert r. induction l as [| y l IH]; simpl; intros r Hall Hl Hr.
  - injection Hr as <-. repeat constructor.
  - inversion Hall as [| ? ? Hy Hall']; subst.
    inversion Hl as [| ? ? Hl' Hhd]; subst.
    bind_inv Hr. assert (Hd := cmp_decides x y a Hx Hy Ha).
    destruct (0 <? a).
    + bind_inv Hr. injection Hr as <-. constructor.
      * apply IH; assumption.
      * apply (insert_HdRel y x l a0); assumption.
    + injection Hr as <-. constructor; [assumption |].
      constructor. exact Hd.
Qed.

Lemma sort_sorted (l s : list A) :
  Forall P l -> Js.sort cmp l = Ok s -> Sorted R s.
Proof.
  revert s. induction l as [| x l IH]; simpl; intros s Hall Hs.
  - injection Hs as <-. constructor.
  - inversion Hall as [| ? ? Hx Hall']; subst.
    bind_inv Hs. apply (insert_sorted x a s); trivial.
    + apply (Permutation_Forall (JsFacts.sort_perm cmp l a Ha)). exact Hall'.
    + apply IH; assumption.
Qed.

End Insertion.

Lemma Sorted_skipn {A : Type} (R : A -> A -> Prop) (k : nat) (l : list A) :
  Sorted R l -> Sorted R (skipn k l).
Proof.
  revert l. induction k as [| k IH]; intros l Hl; [exact Hl |].
  destruct l as [| x l]; simpl; [constructor |].
  apply IH. inversion Hl; assumption.
Qed.

Lemma Sorted_firstn {A : Type} (R : A -> A -> Prop) (n : nat) (l : list A) :
  Sorted R l -> Sorted R (firstn n l).
Proof.
  revert l. induction n as [| n IH]; intros l Hl; [constructor |].
  destruct l as [| x l]; simpl; [constructor |].
  inversion Hl as [| ? ? Hl' Hhd]; subst. constructor.
  - apply IH. exact Hl'.
  - destruct n; [constructor |].
    destruct l as [| y l]; simpl; constructor.
    inversion Hhd; assumption.
Qed.

Lemma Sorted_slice {A : Type} (R : A -> A -> Prop) (l : list A) (start stop : num) :
  Sorted R l -> Sorted R (JsArray.slice l start stop).
Proof.
  intros Hl. unfold JsArray.slice. apply Sorted_firstn, Sorted_skipn, Hl.
Qed.

(** In a list without duplicates, neighbours differ. *)
Lemma Sorted_NoDup {A : Type} (R : A -> A -> Prop) (l : list A) :
  Sorted R l -> NoDup l -> Sorted (fun a b => R a b /\ a <> b) l.
Proof.
  induction 1 as [| x l Hl IH Hhd]; intros Hnd; [constructor |].
  inversion Hnd as [| ? ? Hx Hnd']; subst. constructor; [auto |].
  destruct Hhd as [| y l Hxy]; constructor.
  split; [exact Hxy |]. intros Heq. apply Hx. left. symmetry. exact Heq.
Qed.

Lemma Sorted_impl {A : Type} (R S : A -> A -> Prop) (P : A -> Prop) (l : list A) :
  (forall a b, P a -> P b -> R a b -> S a b) ->
  Forall P l -> Sorted R l -> Sorted S l.
Proof.
  intros HRS Hall Hl. induction Hl as [| x l Hl IH Hhd]; [constructor |].
  inversion Hall as [| ? ? Hx Hall']; subst. constructor; [auto |].
  destruct Hhd as [| y l Hxy]; constructor.
  inversion Hall'; subst. auto.
Qed.

(** Strings *)

Lemma string_ltb_leb (s t : string) :
  String.ltb s t = true -> String.leb s t = true.
Proof.
  unfold String.ltb, String.leb. destruct (String.compare s t); auto.
Qed.

Lemma string_nltb_leb (s t : string) :
  String.ltb t s = false -> String.leb s t = true.
Proof.
  unfold String.ltb, String.leb. rewrite (String.compare_antisym s t).
  destruct (String.compare t s); simpl; auto.
Qed.

Lemma string_leb_neq_ltb (s t : string) :
  String.leb s t = true -> s <> t -> String.ltb s t = true.
Proof.
  unfold String.ltb, String.leb. intros Hle Hne.
  destruct (String.compare s t) eqn:Hc; auto.
  apply String.compare_eq_iff in Hc. contradiction.
Qed.

(** Binary64 numbers *)

Lemma SFcompare_antisym (x y : spec_float) :
  SFcompare y x = option_map CompOpp (SFcompare x y).
Proof.
  destruct x as [s | s | | s m e], y as [s' | s' | | s' m' e']; simpl;
    try reflexivity;
    try (destruct s; reflexivity);
    try (destruct s'; reflexivity);
    try (destruct s, s'; reflexivity).
  assert (Hm : Pos.compare_cont Eq m' m = CompOpp (Pos.compare_cont Eq m m'))
    by (rewrite Pos.compare_cont_antisym; reflexivity).
  destruct s, s'; simpl; try reflexivity;
    rewrite (Z.compare_antisym e e'), Hm;
    destruct (e ?= e')%Z; simpl; try reflexivity;
    destruct (Pos.compare_cont Eq m m'); reflexivity.
Qed.

Lemma SFcompare_numbers (x y : spec_float) :
  SFeqb x x = true -> SFeqb y y = true -> exists c, SFcompare x y = Some c.
Proof.
  unfold SFeqb.
  destruct x as [s | s | | s m e], y as [s' | s' | | s' m' e']; simpl;
    intros Hx Hy; try discriminate; eauto.
Qed.

Lemma float_ltb_leb (a b : float) :
  PrimFloat.ltb a b = true -> PrimFloat.leb a b = true.
Proof.
  rewrite FloatAxioms.ltb_spec, FloatAxioms.leb_spec. unfold SFltb, SFleb.
  destruct (SFcompare (Prim2SF a) (Prim2SF b)) as [[] |]; auto.
Qed.

Lemma float_nltb_leb (a b : float) :
  isNumber a -> isNumber b ->
  PrimFloat.ltb b a = false -> PrimFloat.leb a b = true.
Proof.
  unfold isNumber.
  rewrite !FloatAxioms.eqb_spec, FloatAxioms.ltb_spec, FloatAxioms.leb_spec.
  intros Ha Hb. unfold SFltb, SFleb.
  rewrite (SFcompare_antisym (Prim2SF b) (Prim2SF a)).
  destruct (SFcompare_numbers _ _ Hb Ha) as [c ->]. simpl.
  destruct c; simpl; auto.
Qed.

End SortFacts.

Module OrderFacts.

Lemma comparator_price_desc `{Engine} (a b : Item) (v : Z) :
  numericPrice a -> numericPrice b ->
  comparator "price" "desc" a b = Ok v ->
  if 0 <? v then priceGe b a else priceGe a b.
Proof.
  intros (x & Hx & Nx) (y & Hy & Ny). unfold comparator, getField. simpl.
  rewrite Hx, Hy. simpl. unfold Js.lessThan. simpl.
  intros Hv. injection Hv as <-.
  destruct (PrimFloat.ltb x y) eqn:Hxy; simpl.
  - exists y, x. repeat split; trivial. apply SortFacts.float_ltb_leb, Hxy.
  - assert (Hge : PrimFloat.leb y x = true)
      by (apply SortFacts.float_nltb_leb; assumption).
    destruct (PrimFloat.ltb y x); simpl; exists x, y; repeat split; trivial.
Qed.

Lemma comparator_name_asc `{Engine} (a b : Item) (v : Z) :
  stringName a -> stringName b ->
  comparator "name" "asc" a b = Ok v ->
  if 0 <? v then nameLe b a else nameLe a b.
Proof.
  intros (x & Hx) (y & Hy). unfold comparator, getField. simpl.
  rewrite Hx, Hy. simpl. unfold Js.lessThan. simpl.
  intros Hv. injection Hv as <-.
  destruct (String.ltb (JsString.toLowerCase y) (JsString.toLowerCase x)) eqn:Hyx; simpl.
  - exists y, x. repeat split; trivial. apply SortFacts.string_ltb_leb, Hyx.
  - assert (Hle : String.leb (JsString.toLowerCase x) (JsString.toLowerCase y) = true)
      by (apply SortFacts.string_nltb_leb; assumption).
    destruct (String.ltb (JsString.toLowerCase x) (JsString.toLowerCase y)); simpl;
      exists x, y; repeat split; trivial.
Qed.

Lemma sort_price_desc `{Engine} (items : list Item) :
  Forall numericPrice items ->
  exists sorted,
    Js.sort (comparator "price" "desc") items = Ok sorted /\
    Permutation items sorted /\ Sorted priceGe sorted.
Proof.
  intros Hall.
  destruct (JsFacts.sort_total (comparator "price" "desc") items) as [sorted Hs].
  { intros a b Ha Hb. rewrite Forall_forall in Hall.
    destruct (Hall a Ha) as (x & Hx & _). destruct (Hall b Hb) as (y & Hy & _).
    apply RouteFacts.comparator_total. unfold getField. simpl.
    rewrite Hx, Hy. reflexivity. }
  exists sorted. split; [exact Hs |]. split.
  - apply (JsFacts.sort_perm _ _ _ Hs).
  - apply (SortFacts.sort_sorted (comparator "price" "desc") priceGe numericPrice
                                 comparator_price_desc items sorted Hall Hs).
Qed.

Lemma sort_name_asc `{Engine} (items : list Item) :
  Forall stringName items ->
  exists sorted,
    Js.sort (comparator "name" "asc") items = Ok sorted /\
    Permutation items sorted /\ Sorted nameLe sorted.
Proof.
  intros Hall.
  destruct (JsFacts.sort_total (comparator "name" "asc") items) as [sorted Hs].
  { intros a b Ha Hb. rewrite Forall_forall in Hall.
    destruct (Hall a Ha) as (x & Hx). destruct (Hall b Hb) as (y & Hy).
    apply RouteFacts.comparator_total. unfold getField. simpl.
    rewrite Hx, Hy. reflexivity. }
  exists sorted. split; [exact Hs |]. split.
  - apply (JsFacts.sort_perm _ _ _ Hs).
  - apply (SortFacts.sort_sorted (comparator "name" "asc") nameLe stringName
                                 comparator_name_asc items sorted Hall Hs).
Qed.

Lemma textFilter_incl (q : string) (items r : list Item) :
  textFilter q items = Ok r -> incl r items.
Proof.
  unfold textFilter. destruct (JsString.truthy (JsString.trim q)).
  - apply JsFacts.filter_incl.
  - intros Hr. injection Hr as <-. apply incl_refl.
Qed.

Lemma categoryFilter_incl (c : string) (items r : list Item) :
  categoryFilter c items = Ok r -> incl r items.
Proof.
  unfold categoryFilter. destruct (JsString.truthy (JsString.trim c)).
  - apply JsFacts.filter_incl.
  - intros Hr. injection Hr as <-. apply incl_refl.
Qed.

Lemma listFiltered_incl (items : list Item) (query : Query.t) (r : list Item) :
  listFiltered items query = Ok r -> incl r items.
Proof.
  unfold listFiltered. intros Hr. bind_inv Hr.
  apply textFilter_incl in Ha. apply categoryFilter_incl in Hr.
  intros x Hx. auto.
Qed.

(** The page of the list route inherits the order of the sort. *)
Lemma page_sorted `{Engine} (R : Item -> Item -> Prop) (P : Item -> Prop)
      (key order : string) (items : list Item) (query : Query.t) (pg : Page) :
  (forall a b v, P a -> P b -> comparator key order a b = Ok v ->
                 if 0 <? v then R b a else R a b) ->
  orDefault "id" (Query.sortBy query) = key ->
  orDefault "asc" (Query.sortOrder query) = order ->
  Forall P items ->
  listItems items query = Ok pg ->
  Sorted R (data pg).
Proof.
  intros Hcmp Hkey Horder Hall Hpg.
  destruct (RouteFacts.listItems_Ok items query pg Hpg)
    as (filtered & sorted & Hf & Hs & Hdata & _).
  rewrite Hdata. apply SortFacts.Sorted_slice.
  unfold sortedBy in Hs. rewrite Hkey, Horder in Hs.
  apply (SortFacts.sort_sorted (comparator key order) R P Hcmp filtered sorted);
    [| exact Hs].
  apply (RouteFacts.Forall_incl P items filtered); [| exact Hall].
  apply (listFiltered_incl items query), Hf.
Qed.

End OrderFacts.

(** C8.  On items whose prices are numbers, sorting by [price] with order
    [desc] succeeds and yields a rearrangement of the items in which each
    price is at least the next one; on items whose names are strings, sorting
    by [name] with order [asc] yields one in which each case-folded name is at
    most the next one.  The pages of the list route are in the same order. *)
Theorem sort_orders :
  forall (E : Engine) (items : list Item),
    (Forall numericPrice items ->
     exists sorted,
       Js.sort (comparator "price" "desc") items = Ok sorted /\
       Permutation items sorted /\ Sorted priceGe sorted) /\
    (Forall stringName items ->
     exists sorted,
       Js.sort (comparator "name" "asc") items = Ok sorted /\
       Permutation items sorted /\ Sorted nameLe sorted) /\
    (forall query pg,
        Query.sortBy query = Some "price" -> Query.sortOrder query = Some "desc" ->
        Forall numericPrice items ->
        listItems items query = Ok pg -> Sorted priceGe (data pg)) /\
    (forall query pg,
        Query.sortBy query = Some "name" -> Query.sortOrder query = Some "asc" ->
        Forall stringName items ->
        listItems items query = Ok pg -> Sorted nameLe (data pg)).
Proof.
  intros E items. split; [| split; [| split]].
  - apply OrderFacts.sort_price_desc.
  - apply OrderFacts.sort_name_asc.
  - intros query pg Hkey Horder Hall Hpg.
    apply (OrderFacts.page_sorted priceGe numericPrice "price" "desc" items query pg);
      trivial.
    + intros a b v. apply OrderFacts.comparator_price_desc.
    + rewrite Hkey. reflexivity.
    + rewrite Horder. reflexivity.
  - intros query pg Hkey Horder Hall Hpg.
    apply (OrderFacts.page_sorted nameLe stringName "name" "asc" items query pg);
      trivial.
    + intros a b v. apply OrderFacts.comparator_name_asc.
    + rewrite Hkey. reflexivity.
    + rewrite Horder. reflexivity.
Qed.

Lemma mockItems_numericPrice : Forall numericPrice mockItems.
Proof.
  unfold mockItems. repeat constructor; eexists; split; reflexivity.
Qed.

Lemma mockItems_stringName : Forall stringName mockItems.
Proof.
  unfold mockItems. repeat constructor; eexists; reflexivity.
Qed.

Lemma sort_orders_witness :
  Js.sort (comparator (H := sampleEngine) "price" "desc") mockItems =
  Ok [item 1 "Laptop Pro" "Electronics" 2499;
      item 3 "Monitor" "Electronics" 999;
      item 2 "Headphones" "Electronics" 399] /\
  Js.sort (comparator (H := sampleEngine) "name" "asc") mockItems =
  Ok [item 2 "Headphones" "Electronics" 399;
      item 1 "Laptop Pro" "Electronics" 2499;
      item 3 "Monitor" "Electronics" 999].
Proof.
  destruct (sort_orders sampleEngine mockItems) as (Hprice & Hname & _).
  destruct (Hprice mockItems_numericPrice) as (byPrice & Hp & _).
  destruct (Hname mockItems_stringName) as (byName & Hn & _).
  split.
  - rewrite Hp. vm_compute in Hp. injection Hp as <-. reflexivity.
  - rewrite Hn. vm_compute in Hn. injection Hn as <-. reflexivity.
Defined.

(** ** Categories *)

Module CategoryFacts.

Lemma sameValueZero_eq (a b : field string) :
  sameValueZero a b = true <-> a = b.
Proof.
  destruct a as [| | s], b as [| | t]; simpl;
    try (split; [reflexivity || discriminate | reflexivity || discriminate]).
  rewrite String.eqb_eq. split; [intros -> | intros Heq; injection Heq]; auto.
Qed.

Lemma seen_iff (seen : list (field string)) (v : field string) :
  existsb (sameValueZero v) seen = true <-> In v seen.
Proof.
  rewrite existsb_exists. split.
  - intros [y [Hy Heq]]. apply sameValueZero_eq in Heq. subst. exact Hy.
  - intros Hv. exists v. split; [exact Hv | apply sameValueZero_eq; reflexivity].
Qed.

Lemma fold_remember (values seen : list (field string)) :
  NoDup seen ->
  NoDup (fold_left remember values seen) /\
  forall x, In x (fold_left remember values seen) <-> In x seen \/ In x values.
Proof.
  revert seen. induction values as [| v values IH]; simpl; intros seen Hnd.
  - split; [exact Hnd | intros x; tauto].
  - unfold remember at 2 4. destruct (existsb (sameValueZero v) seen) eqn:Hseen.
    + apply seen_iff in Hseen. destruct (IH seen Hnd) as [Hnd' Hin].
      split; [exact Hnd' |]. intros x. rewrite Hin.
      split; [tauto |]. intros [Hx | [<- | Hx]]; auto.
    + assert (Hnew : ~ In v seen).
      { intros Hv. apply seen_iff in Hv. congruence. }
      assert (Hnd2 : NoDup (seen ++ [v])).
      { apply (Permutation_NoDup (Permutation_cons_append seen v)).
        constructor; assumption. }
      destruct (IH (seen ++ [v])%list Hnd2) as [Hnd' Hin].
      split; [exact Hnd' |]. intros x. rewrite Hin, in_app_iff. simpl. tauto.
Qed.

Lemma unique_spec (values : list (field string)) :
  NoDup (unique values) /\ forall x, In x (unique values) <-> In x values.
Proof.
  destruct (fold_remember values [] (NoDup_nil _)) as [Hnd Hin].
  split; [exact Hnd |]. intros x. unfold unique.
  rewrite Hin. simpl. tauto.
Qed.

Lemma defaultCompare_decides (a b : field string) (v : Z) :
  True -> True -> defaultCompare a b = Ok v ->
  if 0 <? v then keyLe b a else keyLe a b.
Proof.
  intros _ _ Hv. unfold defaultCompare in Hv. injection Hv as <-.
  destruct a as [| | s], b as [| | t]; simpl; trivial;
    match goal with
    | |- context [if String.ltb ?x ?y then _ else if String.ltb ?y ?x then _ else _] =>
        destruct (String.ltb x y) eqn:Hxy;
        [simpl; apply SortFacts.string_ltb_leb, Hxy |
         destruct (String.ltb y x) eqn:Hyx; simpl;
         [apply SortFacts.string_ltb_leb, Hyx |
          apply SortFacts.string_nltb_leb, Hyx]]
    end.
Qed.

Lemma defaultCompare_total (a b : field string) : exists v, defaultCompare a b = Ok v.
Proof. unfold defaultCompare. eauto. Qed.

Lemma keyLe_ascending (a b : field string) :
  (exists s, a = Val s) -> (exists t, b = Val t) ->
  keyLe a b /\ a <> b -> ascending a b.
Proof.
  intros [s ->] [t ->] [Hle Hne]. exists s, t. repeat split.
  simpl in Hle. apply SortFacts.string_leb_neq_ltb; [exact Hle | congruence].
Qed.

End CategoryFacts.

(** C9.  On a readable collection [getCategories] returns the category values
    of the items, each once (two values that differ only in case are two
    values), in the order of [sort()]: ascending by code units, which for
    strings is strictly ascending lexicographic order.  The categories
    "Electronics", "Electronics", "Furniture" give "Electronics", "Furniture". *)
Theorem categories_distinct_sorted :
  forall (w : World) (items : list Item),
    readData w = Ok items ->
    exists cs,
      getCategories w = Ok cs /\
      NoDup cs /\
      (forall c, In c cs <-> exists i, In i items /\ category i = c) /\
      Sorted keyLe cs /\
      ((forall i, In i items -> exists s, category i = Val s) ->
       Sorted ascending cs) /\
      (forall a b c,
          items = [a; b; c] ->
          category a = Val "Electronics" ->
          category b = Val "Electronics" ->
          category c = Val "Furniture" ->
          cs = [Val "Electronics"; Val "Furniture"]).
Proof.
  intros w items Hread. unfold getCategories. rewrite Hread. simpl.
  destruct (CategoryFacts.unique_spec (map category items)) as [Hnd Hin].
  destruct (JsFacts.sort_total defaultCompare (unique (map category items)))
    as [cs Hcs].
  { intros x y _ _. apply CategoryFacts.defaultCompare_total. }
  exists cs. split; [exact Hcs |].
  assert (Hperm := JsFacts.sort_perm _ _ _ Hcs).
  assert (Hmem : forall c, In c cs <-> exists i, In i items /\ category i = c).
  { intros c. split.
    - intros Hc. apply (Permutation_in c (Permutation_sym Hperm)) in Hc.
      apply Hin in Hc. apply in_map_iff in Hc.
      destruct Hc as [i [Hi Hc]]. exists i. auto.
    - intros [i [Hi Hc]]. apply (Permutation_in c Hperm). apply Hin.
      apply in_map_iff. exists i. auto. }
  assert (Hnd' : NoDup cs) by (apply (Permutation_NoDup Hperm), Hnd).
  assert (Hsorted : Sorted keyLe cs).
  { apply (SortFacts.sort_sorted defaultCompare keyLe (fun _ => True)
                                 CategoryFacts.defaultCompare_decides
                                 (unique (map category items)) cs); [| exact Hcs].
    apply Forall_forall. trivial. }
  repeat split; trivial.
  - apply Hmem.
  - apply Hmem.
  - intros Hstrings.
    apply (SortFacts.Sorted_impl (fun a b => keyLe a b /\ a <> b) ascending
                                 (fun c => exists s, c = Val s)).
    + intros a b. apply CategoryFacts.keyLe_ascending.
    + apply Forall_forall. intros c Hc. apply Hmem in Hc.
      destruct Hc as [i [Hi <-]]. apply Hstrings, Hi.
    + apply SortFacts.Sorted_NoDup; assumption.
  - intros a b c -> Ha Hb Hc. simpl in Hcs.
    rewrite Ha, Hb, Hc in Hcs. vm_compute in Hcs. injection Hcs as <-. reflexivity.
Qed.

Lemma categories_distinct_sorted_witness :
  getCategories
    (mkWorld (Ok [item 1 "Item 1" "Electronics" 100;
                  item 2 "Item 2" "Electronics" 200;
                  item 3 "Item 3" "Furniture" 300]) None) =
  Ok [Val "Electronics"; Val "Furniture"].
Proof.
  destruct (categories_distinct_sorted
              (mkWorld (Ok [item 1 "Item 1" "Electronics" 100;
                            item 2 "Item 2" "Electronics" 200;
                            item 3 "Item 3" "Furniture" 300]) None)
              _ eq_refl)
    as (cs & Hcs & _ & _ & _ & _ & Hexample).
  rewrite Hcs. f_equal.
  apply (Hexample _ _ _ eq_refl); reflexivity.
Defined.

(** * Further properties *)

(** ** Binary64 order, continued *)

Module FloatOrder.

Lemma leb_nltb (a b : float) :
  PrimFloat.leb a b = true -> PrimFloat.ltb b a = false.
Proof.
  rewrite FloatAxioms.ltb_spec, FloatAxioms.leb_spec. unfold SFltb, SFleb.
  rewrite (SortFacts.SFcompare_antisym (Prim2SF a) (Prim2SF b)).
  destruct (SFcompare (Prim2SF a) (Prim2SF b)) as [[] |]; simpl; auto; discriminate.
Qed.

(** Between numbers, "not below" is "at least". *)
Lemma nltb_iff_leb (a b : float) :
  isNumber a -> isNumber b ->
  (PrimFloat.ltb b a = false <-> PrimFloat.leb a b = true).
Proof.
  intros Ha Hb. split.
  - apply SortFacts.float_nltb_leb; assumption.
  - apply leb_nltb.
Qed.

Lemma SFcompare_nan_r (x : spec_float) : SFcompare x S754_nan = None.
Proof. destruct x; reflexivity. Qed.

Lemma ltb_nan_l (x : float) : PrimFloat.ltb nan x = false.
Proof. rewrite FloatAxioms.ltb_spec. reflexivity. Qed.

Lemma ltb_nan_r (x : float) : PrimFloat.ltb x nan = false.
Proof.
  rewrite FloatAxioms.ltb_spec. unfold SFltb.
  change (Prim2SF nan) with S754_nan. rewrite SFcompare_nan_r. reflexivity.
Qed.

End FloatOrder.

(** ** The category filter and the price filter *)

Module MoreFilters.

Lemma matchesCategory_string (wanted : string) (i : Item) :
  stringCategory i -> matchesCategory wanted i = Ok (keepsCategory wanted i).
Proof.
  intros [c Hc]. unfold matchesCategory, keepsCategory, lower.
  rewrite Hc. simpl. rewrite StringFacts.trim_toLowerCase. reflexivity.
Qed.

Lemma keepsCategory_spec (wanted : string) (i : Item) :
  keepsCategory wanted i = true <-> categoryMatch wanted i.
Proof.
  unfold keepsCategory, categoryMatch.
  destruct (category i) as [| | c];
    try (split; [discriminate | intros (? & ? & _); discriminate]).
  rewrite String.eqb_eq. split.
  - intros Heq. exists c. auto.
  - intros (c' & Hc & Heq). injection Hc as <-. exact Heq.
Qed.

Lemma lessThan_price `{Engine} (i : Item) (bound : float) :
  Js.lessThan (valueOf VNum (price i)) (VNum bound) =
  PrimFloat.ltb (priceNumber i) bound /\
  Js.lessThan (VNum bound) (valueOf VNum (price i)) =
  PrimFloat.ltb bound (priceNumber i).
Proof. unfold priceNumber. destruct (price i); split; reflexivity. Qed.

End MoreFilters.

(** X1.  On a collection whose items all have a string for category (the
    names may be anything), a [category] that is not blank makes the category
    filter of the list route, and [searchItems] with no other filter, keep
    exactly the items whose category, case-folded, equals the trimmed and
    case-folded parameter; a blank [category] keeps every item of every
    collection. *)
Theorem category_filter :
  forall (E : Engine) (items : list Item) (wanted : string),
    (blank wanted ->
     categoryFilter wanted items = Ok items /\
     searchItems items "" wanted "" "" = Ok items) /\
    (~ blank wanted ->
     Forall stringCategory items ->
     (forall i, keepsCategory wanted i = true <-> categoryMatch wanted i) /\
     categoryFilter wanted items = Ok (List.filter (keepsCategory wanted) items) /\
     searchItems items "" wanted "" "" = Ok (List.filter (keepsCategory wanted) items)).
Proof.
  intros E items wanted. split.
  - intros Hblank. unfold blank in Hblank.
    unfold categoryFilter, searchItems. rewrite Hblank, !andb_false_r.
    split; [reflexivity |].
    apply FilterFacts.filter_all. intros x _. reflexivity.
  - intros Hq Hall. unfold blank in Hq. apply not_false_is_true in Hq.
    rewrite Forall_forall in Hall.
    split; [intros i; apply MoreFilters.keepsCategory_spec |]. split.
    + unfold categoryFilter. rewrite Hq.
      apply FilterFacts.filter_by. intros x Hx.
      apply MoreFilters.matchesCategory_string. auto.
    + unfold searchItems. rewrite Hq, (StringFacts.truthy_trim wanted Hq). simpl.
      apply FilterFacts.filter_by. intros x Hx.
      rewrite (MoreFilters.matchesCategory_string wanted x (Hall x Hx)). simpl.
      destruct (keepsCategory wanted x); reflexivity.
Qed.

Lemma category_filter_witness :
  categoryFilter " ELECTRONICS " withNulls = Throw (typeError "null") /\
  categoryFilter " ELECTRONICS "
                 [mkItem (Val 9) Null (Val "electronics") Null Absent Absent Absent;
                  item 7 "Furniture Item" "Furniture" 500] =
  Ok [mkItem (Val 9) Null (Val "electronics") Null Absent Absent Absent].
Proof.
  split; [reflexivity |].
  destruct (category_filter sampleEngine
              [mkItem (Val 9) Null (Val "electronics") Null Absent Absent Absent;
               item 7 "Furniture Item" "Furniture" 500] " ELECTRONICS ")
    as [_ Hkeep].
  destruct Hkeep as (_ & -> & _).
  - discriminate.
  - repeat constructor; eexists; reflexivity.
  - reflexivity.
Defined.

(** X2.  With no text and no category to look for, [searchItems] never
    throws: it keeps the items that pass the two price tests.  An item with no
    price passes them whatever the bounds; an empty bound, and a bound that
    [parseFloat] reads as NaN, excludes nothing; between numbers the bounds are
    inclusive, a [null] price counting as 0. *)
Theorem price_filter :
  forall (E : Engine) (items : list Item) (minPrice maxPrice : string),
    searchItems items "" "" minPrice maxPrice =
    Ok (List.filter (withinBounds minPrice maxPrice) items) /\
    (forall i,
        (price i = Absent -> withinBounds minPrice maxPrice i = true) /\
        (minPrice = "" -> maxPrice = "" -> withinBounds minPrice maxPrice i = true) /\
        (parseFloat minPrice = nan -> parseFloat maxPrice = nan ->
         withinBounds minPrice maxPrice i = true) /\
        (minPrice <> "" -> maxPrice <> "" ->
         isNumber (parseFloat minPrice) -> isNumber (parseFloat maxPrice) ->
         isNumber (priceNumber i) ->
         (withinBounds minPrice maxPrice i = true <->
          PrimFloat.leb (parseFloat minPrice) (priceNumber i) = true /\
          PrimFloat.leb (priceNumber i) (parseFloat maxPrice) = true)) /\
        (price i = Null -> priceNumber i = zero)).
Proof.
  intros E items minPrice maxPrice. split.
  - unfold searchItems. apply FilterFacts.filter_by. intros x _. simpl.
    destruct (MoreFilters.lessThan_price x (parseFloat minPrice)) as [-> _].
    destruct (MoreFilters.lessThan_price x (parseFloat maxPrice)) as [_ ->].
    unfold withinBounds.
    destruct (JsString.truthy minPrice && _); simpl; [reflexivity |].
    destruct (JsString.truthy maxPrice && _); reflexivity.
  - intros i. unfold withinBounds.
    split; [| split; [| split; [| split]]].
    + intros Hp. unfold priceNumber. rewrite Hp.
      rewrite FloatOrder.ltb_nan_l, FloatOrder.ltb_nan_r, !andb_false_r.
      reflexivity.
    + intros -> ->. reflexivity.
    + intros -> ->.
      rewrite FloatOrder.ltb_nan_l, FloatOrder.ltb_nan_r, !andb_false_r.
      reflexivity.
    + intros Hmin Hmax Nlo Nhi Np.
      destruct minPrice as [| c1 s1]; [contradiction |].
      destruct maxPrice as [| c2 s2]; [contradiction |].
      simpl. rewrite andb_true_iff, !negb_true_iff.
      rewrite (FloatOrder.nltb_iff_leb _ _ Nlo Np).
      rewrite (FloatOrder.nltb_iff_leb _ _ Np Nhi).
      reflexivity.
    + intros Hp. unfold priceNumber. rewrite Hp. reflexivity.
Qed.

Lemma price_filter_witness :
  withinBounds (H := sampleEngine) "10" "999" (item 1 "Cheap Item" "Test" 10) = true /\
  searchItems (H := sampleEngine) cheapAndExpensive "" "" "10" "999" =
  Ok [item 1 "Cheap Item" "Test" 10].
Proof.
  destruct (price_filter sampleEngine cheapAndExpensive "10" "999") as [Hs Hitem].
  destruct (Hitem (item 1 "Cheap Item" "Test" 10)) as (_ & _ & _ & Hin & _).
  split.
  - apply Hin; try discriminate; try reflexivity. split; reflexivity.
  - rewrite Hs. reflexivity.
Defined.

(** ** The two routes side by side *)

Module Pipeline.

Lemma filter_ext {A : Type} (f g : A -> Res bool) (l : list A) :
  (forall x, f x = g x) -> Js.filter f l = Js.filter g l.
Proof.
  intros Hfg. induction l as [| x l IH]; simpl; [reflexivity |].
  rewrite Hfg, IH. reflexivity.
Qed.

(** Filtering twice is filtering once with both tests, as far as the result
    goes: which exception surfaces may differ. *)
Lemma filter_twice {A : Type} (t c : A -> Res bool) (l : list A) :
  value (r <- Js.filter t l ;; Js.filter c r) = value (Js.filter (andThen t c) l).
Proof.
  induction l as [| x l IH]; [reflexivity |].
  cbn [Js.filter]. unfold andThen at 1.
  destruct (t x) as [b | e]; [| reflexivity]. cbn [bind].
  destruct (Js.filter t l) as [r1 | e1]; cbn [bind] in *.
  - destruct b; cbn [Js.filter bind].
    + destruct (c x) as [b' | e']; [| reflexivity]. cbn [bind].
      destruct (Js.filter c r1) as [r2 | e2];
        destruct (Js.filter (andThen t c) l) as [r3 | e3];
        cbn [bind value] in *; try discriminate; try reflexivity.
      injection IH as <-. reflexivity.
    + destruct (Js.filter c r1) as [r2 | e2];
        destruct (Js.filter (andThen t c) l) as [r3 | e3];
        cbn [bind value] in *; try discriminate; try reflexivity.
      injection IH as <-. reflexivity.
  - destruct (if b then c x else Ok false) as [b' | e']; [| reflexivity].
    cbn [bind].
    destruct (Js.filter (andThen t c) l) as [r3 | e3];
      cbn [bind value] in *; [discriminate | reflexivity].
Qed.

Lemma textFilter_test (q : string) (items : list Item) :
  textFilter q items = Js.filter (textTest q) items.
Proof.
  unfold textFilter, textTest. destruct (JsString.truthy (JsString.trim q)).
  - reflexivity.
  - symmetry. apply FilterFacts.filter_all. reflexivity.
Qed.

Lemma categoryFilter_test (wanted : string) (items : list Item) :
  categoryFilter wanted items = Js.filter (categoryTest wanted) items.
Proof.
  unfold categoryFilter, categoryTest.
  destruct (JsString.truthy (JsString.trim wanted)).
  - reflexivity.
  - symmetry. apply FilterFacts.filter_all. reflexivity.
Qed.

Lemma truthy_and_trim (s : string) :
  JsString.truthy s && JsString.truthy (JsString.trim s) =
  JsString.truthy (JsString.trim s).
Proof.
  destruct (JsString.truthy (JsString.trim s)) eqn:Ht.
  - rewrite (StringFacts.truthy_trim s Ht). reflexivity.
  - apply andb_false_r.
Qed.

(** Without price bounds the callback of [searchItems] is the two tests of
    the list route in a row. *)
Lemma searchItems_tests `{Engine} (items : list Item) (q wanted : string) :
  searchItems items q wanted "" "" =
  Js.filter (andThen (textTest q) (categoryTest wanted)) items.
Proof.
  unfold searchItems. apply filter_ext. intros x.
  unfold andThen, textTest, categoryTest.
  rewrite !truthy_and_trim.
  destruct (if JsString.truthy (JsString.trim q) then _ else _) as [[|] | e];
    simpl; try reflexivity.
  destruct (if JsString.truthy (JsString.trim wanted) then _ else _) as [[|] | e];
    reflexivity.
Qed.

Lemma listItems_eq `{Engine} (items : list Item) (query : Query.t) :
  listItems items query =
  (filtered <- listFiltered items query ;;
   sorted <- sortedBy query filtered ;;
   Ok (pageOfSorted query filtered sorted
         (Filters.mk (orDefault "" (Query.q query))
                     (orDefault "" (Query.category query)) None None
                     (orDefault "id" (Query.sortBy query))
                     (orDefault "asc" (Query.sortOrder query))))).
Proof.
  unfold listItems, listFiltered.
  destruct (textFilter _ items) as [f1 | e]; [| reflexivity]. reflexivity.
Qed.

Lemma searchRoute_eq `{Engine} (items : list Item) (query : Query.t) :
  searchRoute items query =
  (filtered <- searchFiltered items query ;;
   sorted <- sortedBy query filtered ;;
   Ok (pageOfSorted query filtered sorted
         (Filters.mk (orDefault "" (Query.q query))
                     (orDefault "" (Query.category query))
                     (Some (orDefault "" (Query.minPrice query)))
                     (Some (orDefault "" (Query.maxPrice query)))
                     (orDefault "id" (Query.sortBy query))
                     (orDefault "asc" (Query.sortOrder query))))).
Proof. reflexivity. Qed.

Lemma filtered_agree `{Engine} (items : list Item) (query : Query.t) :
  orDefault "" (Query.minPrice query) = "" ->
  orDefault "" (Query.maxPrice query) = "" ->
  value (listFiltered items query) = value (searchFiltered items query).
Proof.
  intros Hmin Hmax. unfold searchFiltered. rewrite Hmin, Hmax.
  rewrite searchItems_tests, <- filter_twice.
  unfold listFiltered. rewrite textFilter_test.
  destruct (Js.filter (textTest _) items) as [r | e]; [| reflexivity].
  cbn [bind]. rewrite categoryFilter_test. reflexivity.
Qed.

End Pipeline.

(** X3.  Without price bounds the search route is the list route: whenever
    one of them returns a page, the other returns a page with the same items
    and the same metadata, and when one throws so does the other. *)
Theorem search_without_bounds_is_list :
  forall (E : Engine) (items : list Item) (query : Query.t),
    orDefault "" (Query.minPrice query) = "" ->
    orDefault "" (Query.maxPrice query) = "" ->
    value (listFiltered items query) = value (searchFiltered items query) /\
    option_map data (value (listItems items query)) =
    option_map data (value (searchRoute items query)) /\
    option_map pagination (value (listItems items query)) =
    option_map pagination (value (searchRoute items query)).
Proof.
  intros E items query Hmin Hmax.
  assert (Hf := Pipeline.filtered_agree items query Hmin Hmax).
  split; [exact Hf |].
  rewrite Pipeline.listItems_eq, Pipeline.searchRoute_eq.
  destruct (listFiltered items query) as [f | e];
    destruct (searchFiltered items query) as [f' | e'];
    cbn [value] in Hf; try discriminate; cbn [bind].
  - injection Hf as <-.
    destruct (sortedBy query f) as [s | e]; split; reflexivity.
  - split; reflexivity.
Qed.

Lemma search_without_bounds_is_list_witness :
  option_map data (value (searchRoute (H := sampleEngine) mockItems (withQ "o"))) =
  Some [item 1 "Laptop Pro" "Electronics" 2499;
        item 2 "Headphones" "Electronics" 399;
        item 3 "Monitor" "Electronics" 999] /\
  value (searchRoute (H := sampleEngine) withNulls (withQ "o")) = None.
Proof.
  destruct (search_without_bounds_is_list sampleEngine mockItems (withQ "o")
                                          eq_refl eq_refl) as (_ & <- & _).
  destruct (search_without_bounds_is_list sampleEngine withNulls (withQ "o")
                                          eq_refl eq_refl) as (Hf & _ & _).
  split; [reflexivity |].
  rewrite Pipeline.searchRoute_eq.
  destruct (searchFiltered withNulls (withQ "o")) as [f | e];
    [discriminate Hf | reflexivity].
Defined.

(** ** What a page holds *)

Module Soundness.

Lemma andThen_true {A : Type} (t c : A -> Res bool) (x : A) :
  accepts (andThen t c) x = true <-> t x = Ok true /\ c x = Ok true.
Proof.
  unfold accepts, andThen.
  destruct (t x) as [[|] | e]; simpl;
    try (split; [discriminate | intros [Ht _]; discriminate]).
  destruct (c x) as [[|] | e]; simpl;
    try (split; [discriminate | intros [_ Hc]; discriminate]).
  split; auto.
Qed.

Lemma accepts_true {A : Type} (t : A -> Res bool) (x : A) :
  accepts t x = true <-> t x = Ok true.
Proof.
  unfold accepts. destruct (t x) as [[|] | e];
    split; congruence.
Qed.

Lemma matchesText_hit (q : string) (i : Item) :
  matchesText (JsString.trim (JsString.toLowerCase q)) i = Ok true <-> textHit q i.
Proof.
  unfold matchesText, textHit, lower.
  rewrite StringFacts.trim_toLowerCase.
  destruct (name i) as [| | n]; simpl;
    try (split; [discriminate | intros (? & ? & _); discriminate]).
  destruct (JsString.includes (JsString.toLowerCase n) _) eqn:Hn.
  - apply StringFacts.includes_spec in Hn. split; [| reflexivity].
    intros _. exists n. auto.
  - assert (Hno : ~ occursIn (JsString.toLowerCase (JsString.trim q))
                            (JsString.toLowerCase n)).
    { intros Hocc. apply StringFacts.includes_spec in Hocc. congruence. }
    destruct (category i) as [| | c]; simpl.
    + split; [discriminate |].
      intros (n' & Hn' & [Hocc | (c' & Hc' & _)]);
        [injection Hn' as <-; contradiction | discriminate].
    + split; [discriminate |].
      intros (n' & Hn' & [Hocc | (c' & Hc' & _)]);
        [injection Hn' as <-; contradiction | discriminate].
    + split.
      * intros Hc. injection Hc as Hc. apply StringFacts.includes_spec in Hc.
        exists n. split; [reflexivity |]. right. exists c. auto.
      * intros (n' & Hn' & [Hocc | (c' & Hc' & Hocc)]).
        -- injection Hn' as <-. contradiction.
        -- injection Hc' as <-. apply StringFacts.includes_spec in Hocc.
           rewrite Hocc. reflexivity.
Qed.

Lemma matchesCategory_hit (wanted : string) (i : Item) :
  matchesCategory wanted i = Ok true <-> categoryMatch wanted i.
Proof.
  unfold matchesCategory, categoryMatch, lower.
  rewrite StringFacts.trim_toLowerCase.
  destruct (category i) as [| | c]; simpl;
    try (split; [discriminate | intros (? & ? & _); discriminate]).
  split.
  - intros Heq. injection Heq as Heq. apply String.eqb_eq in Heq.
    exists c. auto.
  - intros (c' & Hc & Heq). injection Hc as <-.
    apply String.eqb_eq in Heq. rewrite Heq. reflexivity.
Qed.

Lemma textTest_hit (q : string) (i : Item) :
  textTest q i = Ok true -> ~ blank q -> textHit q i.
Proof.
  unfold textTest, blank. intros Ht Hq.
  destruct (JsString.truthy (JsString.trim q)); [| contradiction Hq; reflexivity].
  apply matchesText_hit, Ht.
Qed.

Lemma categoryTest_hit (wanted : string) (i : Item) :
  categoryTest wanted i = Ok true -> ~ blank wanted -> categoryMatch wanted i.
Proof.
  unfold categoryTest, blank. intros Ht Hq.
  destruct (JsString.truthy (JsString.trim wanted));
    [| contradiction Hq; reflexivity].
  apply matchesCategory_hit, Ht.
Qed.

(** The callback of [searchItems] is three tests in a row. *)
Lemma searchItems_three `{Engine} (items : list Item)
      (q wanted minPrice maxPrice : string) :
  searchItems items q wanted minPrice maxPrice =
  Js.filter (andThen (textTest q)
               (andThen (categoryTest wanted)
                  (fun i => Ok (withinBounds minPrice maxPrice i)))) items.
Proof.
  unfold searchItems. apply Pipeline.filter_ext. intros x.
  unfold andThen, textTest, categoryTest.
  rewrite !Pipeline.truthy_and_trim.
  destruct (if JsString.truthy (JsString.trim q) then _ else _) as [[|] | e];
    simpl; try reflexivity.
  destruct (if JsString.truthy (JsString.trim wanted) then _ else _) as [[|] | e];
    simpl; try reflexivity.
  destruct (MoreFilters.lessThan_price x (parseFloat minPrice)) as [-> _].
  destruct (MoreFilters.lessThan_price x (parseFloat maxPrice)) as [_ ->].
  unfold withinBounds.
  destruct (JsString.truthy minPrice && _); simpl; [reflexivity |].
  destruct (JsString.truthy maxPrice && _); reflexivity.
Qed.

Lemma listFiltered_filter (items : list Item) (query : Query.t) (r : list Item) :
  listFiltered items query = Ok r ->
  r = List.filter (accepts (categoryTest (orDefault "" (Query.category query))))
        (List.filter (accepts (textTest (orDefault "" (Query.q query)))) items).
Proof.
  unfold listFiltered. rewrite Pipeline.textFilter_test. intros Hr.
  bind_inv Hr. rewrite Pipeline.categoryFilter_test in Hr.
  apply JsFacts.filter_Ok in Ha. destruct Ha as [_ ->].
  apply JsFacts.filter_Ok in Hr. destruct Hr as [_ ->]. reflexivity.
Qed.

Lemma searchFiltered_filter `{Engine} (items : list Item) (query : Query.t)
      (r : list Item) :
  searchFiltered items query = Ok r ->
  r = List.filter
        (accepts (andThen (textTest (orDefault "" (Query.q query)))
                    (andThen (categoryTest (orDefault "" (Query.category query)))
                       (fun i => Ok (withinBounds
                                       (orDefault "" (Query.minPrice query))
                                       (orDefault "" (Query.maxPrice query)) i)))))
        items.
Proof.
  unfold searchFiltered. rewrite searchItems_three. intros Hr.
  apply JsFacts.filter_Ok in Hr. destruct Hr as [_ ->]. reflexivity.
Qed.

Lemma slice_incl {A : Type} (l : list A) (start stop : num) :
  incl (JsArray.slice l start stop) l.
Proof.
  unfold JsArray.slice. intros x Hx.
  set (k := Z.to_nat (JsArray.clampIndex _ start)) in *.
  set (n := Z.to_nat _) in Hx.
  rewrite <- (firstn_skipn k l). apply in_or_app. right.
  rewrite <- (firstn_skipn n (skipn k l)). apply in_or_app. left. exact Hx.
Qed.

Lemma slice_NoDup {A : Type} (l : list A) (start stop : num) :
  NoDup l -> NoDup (JsArray.slice l start stop).
Proof.
  unfold JsArray.slice. intros Hl.
  set (k := Z.to_nat (JsArray.clampIndex _ start)).
  set (n := Z.to_nat _).
  rewrite <- (firstn_skipn k l) in Hl. apply NoDup_app_remove_l in Hl.
  rewrite <- (firstn_skipn n (skipn k l)) in Hl.
  apply NoDup_app_remove_r in Hl. exact Hl.
Qed.

Lemma filter_length_le {A : Type} (f : A -> bool) (l : list A) :
  (List.length (List.filter f l) <= List.length l)%nat.
Proof.
  induction l as [| x l IH]; simpl; [lia |].
  destruct (f x); simpl; lia.
Qed.

Lemma sliced {A : Type} (filtered sorted : list A) (start stop : num) :
  Permutation filtered sorted ->
  incl (JsArray.slice sorted start stop) filtered /\
  (NoDup filtered -> NoDup (JsArray.slice sorted start stop)) /\
  (List.length (JsArray.slice sorted start stop) <= List.length filtered)%nat.
Proof.
  intros Hp. split; [| split].
  - intros x Hx. apply slice_incl in Hx.
    apply (Permutation_in x (Permutation_sym Hp) Hx).
  - intros Hnd. apply slice_NoDup. apply (Permutation_NoDup Hp Hnd).
  - rewrite (Permutation_length Hp).
    pose proof (JsFacts.slice_length sorted start stop) as Hlen. cbv zeta in Hlen.
    pose proof (JsFacts.clampIndex_range (Z.of_nat (List.length sorted)) start
                                         (Nat2Z.is_nonneg _)).
    pose proof (JsFacts.clampIndex_range (Z.of_nat (List.length sorted)) stop
                                         (Nat2Z.is_nonneg _)).
    lia.
Qed.

End Soundness.

(** X4.  A page never invents, repeats or mislabels an item.  Every item on
    a page returned by the list route or by the search route is an item of
    the collection; it passed the text search when the request has a text
    that is not blank, and the category test when the request has a category
    that is not blank; on the search route it also lies within the price
    bounds.  A collection without repeated items gives a page without
    repeated items; the page is no longer than the total reported, which is
    no more than the size of the collection. *)
Theorem page_sound :
  forall (E : Engine) (items : list Item) (query : Query.t) (pg : Page),
    let q := orDefault "" (Query.q query) in
    let wanted := orDefault "" (Query.category query) in
    let minPrice := orDefault "" (Query.minPrice query) in
    let maxPrice := orDefault "" (Query.maxPrice query) in
    let sound (bounded : bool) :=
      (forall i, In i (data pg) ->
         In i items /\
         (~ blank q -> textHit q i) /\
         (~ blank wanted -> categoryMatch wanted i) /\
         (bounded = true -> withinBounds minPrice maxPrice i = true)) /\
      (NoDup items -> NoDup (data pg)) /\
      (List.length (data pg) <= totalItems (pagination pg))%nat /\
      (totalItems (pagination pg) <= List.length items)%nat in
    (listItems items query = Ok pg -> sound false) /\
    (searchRoute items query = Ok pg -> sound true).
Proof.
  intros E items query pg q wanted minPrice maxPrice sound. subst sound.
  split; intros Hpg.
  - destruct (RouteFacts.listItems_Ok items query pg Hpg)
      as (filtered & sorted & Hf & Hs & Hdata & Hmeta).
    apply JsFacts.sort_perm in Hs.
    pose proof (Soundness.listFiltered_filter items query filtered Hf) as Heq.
    fold q wanted in Heq.
    destruct (Soundness.sliced filtered sorted (offsetOf query)
                (Num.add (offsetOf query) (limitNumOf query)) Hs)
      as (Hincl & Hnd & Hlen).
    rewrite <- Hdata in Hincl, Hnd, Hlen. rewrite Hmeta. cbn [totalItems paginate].
    split; [| split; [| split]].
    + intros i Hi. apply Hincl in Hi. rewrite Heq in Hi.
      apply filter_In in Hi. destruct Hi as [Hi Hc].
      apply filter_In in Hi. destruct Hi as [Hi Ht].
      apply Soundness.accepts_true in Hc, Ht.
      split; [exact Hi |]. split; [| split].
      * apply Soundness.textTest_hit, Ht.
      * apply Soundness.categoryTest_hit, Hc.
      * discriminate.
    + intros Hitems. apply Hnd. rewrite Heq.
      apply NoDup_filter, NoDup_filter, Hitems.
    + exact Hlen.
    + rewrite Heq.
      etransitivity; [apply Soundness.filter_length_le |].
      apply Soundness.filter_length_le.
  - destruct (RouteFacts.searchRoute_Ok items query pg Hpg)
      as (filtered & sorted & Hf & Hs & Hdata & Hmeta).
    apply JsFacts.sort_perm in Hs.
    pose proof (Soundness.searchFiltered_filter items query filtered Hf) as Heq.
    fold q wanted minPrice maxPrice in Heq.
    destruct (Soundness.sliced filtered sorted (offsetOf query)
                (Num.add (offsetOf query) (limitNumOf query)) Hs)
      as (Hincl & Hnd & Hlen).
    rewrite <- Hdata in Hincl, Hnd, Hlen. rewrite Hmeta. cbn [totalItems paginate].
    split; [| split; [| split]].
    + intros i Hi. apply Hincl in Hi. rewrite Heq in Hi.
      apply filter_In in Hi. destruct Hi as [Hi Hacc].
      apply Soundness.andThen_true in Hacc. destruct Hacc as [Ht Hacc].
      apply Soundness.accepts_true, Soundness.andThen_true in Hacc.
      destruct Hacc as [Hc Hb]. injection Hb as Hb.
      split; [exact Hi |]. split; [| split].
      * apply Soundness.textTest_hit, Ht.
      * apply Soundness.categoryTest_hit, Hc.
      * intros _. exact Hb.
    + intros Hitems. apply Hnd. rewrite Heq. apply NoDup_filter, Hitems.
    + exact Hlen.
    + rewrite Heq. apply Soundness.filter_length_le.
Qed.

Lemma page_sound_witness :
  exists pg,
    searchRoute (H := sampleEngine) mockItems
      (Query.mk None None (Some "PRO") None None (Some " electronics") None (Some "3000"))
    = Ok pg /\
    forall i, In i (data pg) ->
              In i mockItems /\ textHit "PRO" i /\ categoryMatch " electronics" i /\
              withinBounds (H := sampleEngine) "" "3000" i = true.
Proof.
  destruct (searchRoute (H := sampleEngine) mockItems
              (Query.mk None None (Some "PRO") None None (Some " electronics")
                        None (Some "3000"))) as [pg | e] eqn:Hpg;
    [| vm_compute in Hpg; discriminate Hpg].
  exists pg. split; [reflexivity |].
  intros i Hi.
  destruct (page_sound sampleEngine mockItems
              (Query.mk None None (Some "PRO") None None (Some " electronics")
                        None (Some "3000")) pg) as [_ Hsearch].
  destruct (Hsearch Hpg) as (Hitems & _).
  destruct (Hitems i Hi) as (Hin & Ht & Hc & Hb).
  split; [exact Hin |]. split; [| split].
  - apply Ht. discriminate.
  - apply Hc. discriminate.
  - apply Hb. reflexivity.
Defined.

(** ** The pages of one request *)

Module Pages.

Lemma firstn_add {A : Type} (a b : nat) (s : list A) :
  firstn (a + b) s = (firstn a s ++ firstn b (skipn a s))%list.
Proof.
  revert s. induction a as [| a IH]; intros s; [reflexivity |].
  destruct s as [| x s]; simpl.
  - rewrite firstn_nil. reflexivity.
  - rewrite IH. reflexivity.
Qed.

(** Consecutive chunks of [l] elements, put together again. *)
Lemma chunks {A : Type} (s : list A) (l n : nat) :
  List.concat (List.map (fun k => firstn l (skipn ((k - 1) * l) s)) (seq 1 n)) =
  firstn (n * l) s.
Proof.
  induction n as [| n IH]; [reflexivity |].
  rewrite seq_S, map_app, concat_app, IH. simpl.
  rewrite app_nil_r, Nat.sub_0_r.
  replace (l + n * l)%nat with (n * l + l)%nat by lia.
  symmetry. apply firstn_add.
Qed.

(** The cut of both routes, for an offset that is a non-negative integer. *)
Lemma slice_chunk {A : Type} (s : list A) (a l : Z) :
  0 <= a -> 0 < l ->
  JsArray.slice s (Fin a) (Num.add (Fin a) (Fin l)) =
  firstn (Z.to_nat l) (skipn (Z.to_nat a) s).
Proof.
  intros Ha Hl. unfold JsArray.slice. simpl.
  replace (a <? 0) with false by (symmetry; apply Z.ltb_ge; lia).
  replace (a + l <? 0) with false by (symmetry; apply Z.ltb_ge; lia).
  destruct (Z_lt_le_dec a (Z.of_nat (List.length s))) as [Hin | Hout].
  - replace (Z.min a (Z.of_nat (List.length s))) with a by lia.
    set (t := skipn (Z.to_nat a) s).
    assert (Ht : List.length t = (List.length s - Z.to_nat a)%nat)
      by apply length_skipn.
    destruct (Z_le_gt_dec l (Z.of_nat (List.length t))) as [Hfull | Hshort].
    + f_equal. lia.
    + rewrite (firstn_all2 (n := Z.to_nat l)) by lia.
      apply firstn_all2. lia.
  - rewrite (skipn_all2 (n := Z.to_nat (Z.min _ _))) by lia.
    rewrite (skipn_all2 (n := Z.to_nat a)) by lia.
    rewrite !firstn_nil. reflexivity.
Qed.

Lemma pageNumOf_atPage (query : Query.t) (p : Z) :
  0 <= p -> pageNumOf (atPage query p) = Fin p.
Proof. intros Hp. apply NumberFacts.parseInt_toString, Hp. Qed.

Lemma offsetOf_atPage (query : Query.t) (p l : Z) :
  limitNumOf query = Fin l -> 1 <= p -> 0 < l ->
  offsetOf (atPage query p) = Fin ((p - 1) * l).
Proof.
  intros Hlim Hp Hl. unfold offsetOf.
  rewrite pageNumOf_atPage by lia.
  change (limitNumOf (atPage query p)) with (limitNumOf query). rewrite Hlim.
  apply JsFacts.offset_Fin; assumption.
Qed.

(** The page [p] that both routes build from one sorted collection. *)
Lemma page_of_sorted (query : Query.t) (p l : Z) (filtered sorted : list Item)
      (echo : Filters.t) (pages : Z) :
  limitNumOf query = Fin l -> 0 < l -> 1 <= p ->
  Permutation filtered sorted ->
  Num.ceilDiv (List.length filtered) (Fin l) = Fin pages ->
  (pages - 1) * l < Z.of_nat (List.length filtered) <= pages * l ->
  let pg := pageOfSorted (atPage query p) filtered sorted echo in
  data pg = firstn (Z.to_nat l) (skipn (Z.to_nat ((p - 1) * l)) sorted) /\
  currentPage (pagination pg) = Fin p /\
  totalPages (pagination pg) = Fin pages /\
  (hasNextPage (pagination pg) = true <-> p < pages) /\
  (hasPrevPage (pagination pg) = true <-> 1 < p) /\
  (pages < p <-> data pg = []).
Proof.
  intros Hlim Hl Hp Hperm Hceil Hbounds pg.
  assert (Hdata : data pg =
                  firstn (Z.to_nat l) (skipn (Z.to_nat ((p - 1) * l)) sorted)).
  { subst pg. unfold pageOfSorted. cbn [data].
    rewrite (offsetOf_atPage query p l Hlim Hp Hl).
    change (limitNumOf (atPage query p)) with (limitNumOf query). rewrite Hlim.
    apply slice_chunk; nia. }
  assert (Hmeta : pagination pg =
                  paginate (Fin p) (Fin l) (List.length filtered)).
  { subst pg. unfold pageOfSorted. cbn [pagination].
    rewrite pageNumOf_atPage by lia.
    change (limitNumOf (atPage query p)) with (limitNumOf query). rewrite Hlim.
    reflexivity. }
  split; [exact Hdata |].
  rewrite Hmeta. unfold paginate. cbv zeta. rewrite Hceil.
  cbn [currentPage totalPages hasNextPage hasPrevPage].
  split; [reflexivity |]. split; [reflexivity |].
  split; [simpl; apply Z.ltb_lt |].
  split; [simpl; apply Z.ltb_lt |].
  rewrite Hdata.
  assert (Hlen := Permutation_length Hperm).
  assert (Hoff : 0 <= (p - 1) * l) by nia.
  split.
  - intros Hbeyond. rewrite skipn_all2; [apply firstn_nil |].
    assert ((pages * l) <= (p - 1) * l) by nia. lia.
  - intros Hnil.
    destruct (Z_lt_le_dec pages p) as [Hlt | Hle]; [exact Hlt | exfalso].
    assert (Hin : (p - 1) * l < Z.of_nat (List.length filtered)) by nia.
    apply (f_equal (@List.length Item)) in Hnil.
    rewrite length_firstn, length_skipn in Hnil. simpl in Hnil. lia.
Qed.

Lemma walk_sorted (route : Query.t -> Res Page) (query : Query.t)
      (l : Z) (sorted : list Item) (pages : nat) :
  0 < l ->
  (forall p, 1 <= p ->
             itemsOf (route (atPage query p)) =
             firstn (Z.to_nat l) (skipn (Z.to_nat ((p - 1) * l)) sorted)) ->
  Z.of_nat (List.length sorted) <= Z.of_nat pages * l ->
  walk route query pages = sorted.
Proof.
  intros Hl Hpage Hall. unfold walk.
  rewrite (map_ext_in _
             (fun k => firstn (Z.to_nat l) (skipn ((k - 1) * Z.to_nat l) sorted))).
  - rewrite chunks. apply firstn_all2. nia.
  - intros k Hk. apply in_seq in Hk. rewrite Hpage by lia.
    do 2 f_equal. rewrite Z2Nat.inj_mul by lia. f_equal. lia.
Qed.

End Pages.

(** ** Sort keys that order the items *)

Module SortKeys.

Lemma ordered_uniform (key : string) (l : list Item) :
  ordered key l -> uniform key l.
Proof.
  assert (Hsame : forall b : bool,
             Forall (fun i => isStr (getField key i) = b) l -> uniform key l).
  { intros b Hall x y Hx Hy. rewrite Forall_forall in Hall.
    rewrite (Hall x Hx), (Hall y Hy). reflexivity. }
  intros [[-> _] | [[-> Hall] | [[-> Hall] | [[-> Hall] | Hall]]]].
  - apply RouteFacts.uniform_id.
  - apply (Hsame true). apply (Forall_impl _ (P := stringName)); [| exact Hall].
    intros i [n Hn]. unfold getField. simpl. rewrite Hn. reflexivity.
  - apply (Hsame true). apply (Forall_impl _ (P := stringCategory)); [| exact Hall].
    intros i [c Hc]. unfold getField. simpl. rewrite Hc. reflexivity.
  - apply (Hsame false). apply (Forall_impl _ (P := numericPrice)); [| exact Hall].
    intros i (f & Hf & _). unfold getField. simpl. rewrite Hf. reflexivity.
  - apply (Hsame false). unfold keyless in Hall.
    apply (Forall_impl _ (P := fun i => getField key i = VUndefined));
      [| exact Hall].
    intros i ->. reflexivity.
Qed.

(** The sort of such a collection goes through. *)
Lemma ordered_sorts `{Engine} (query : Query.t) (filtered : list Item) :
  ordered (orDefault "id" (Query.sortBy query)) filtered ->
  exists sorted, sortedBy query filtered = Ok sorted.
Proof.
  intros Hordered.
  apply (RouteFacts.sortedBy_total query filtered filtered);
    [apply ordered_uniform, Hordered | apply incl_refl].
Qed.

End SortKeys.

(** X5.  The pages of one request partition its result.  Take a limit [l]
    with [0 < l < 2^53] and a filtered collection that the sort key of the
    request orders.  Then the sort goes through; let [sorted] be its result.
    Both routes answer every page [p] with [1 <= p < 2^53] of the request,
    page [p] holds the items of [sorted] from position [(p - 1) * l] on, at
    most [l] of them, [hasNextPage] is true exactly on the pages before the
    last and [hasPrevPage] exactly after the first, the pages after
    [totalPages] and only they are empty, and the pages 1 to [totalPages] put
    one after the other are [sorted]: no item is skipped and none is served
    twice. *)
Theorem pages_partition :
  forall (E : Engine) (items : list Item) (query : Query.t) (l : Z)
         (filtered : list Item),
    limitNumOf query = Fin l -> 0 < l < 2 ^ 53 ->
    ordered (orDefault "id" (Query.sortBy query)) filtered ->
    exists sorted,
      sortedBy query filtered = Ok sorted /\
      let partition (route : Query.t -> Res Page) :=
        exists pages : nat,
          Num.ceilDiv (List.length filtered) (Fin l) = Fin (Z.of_nat pages) /\
          (forall p, 1 <= p < 2 ^ 53 ->
             exists pg,
               route (atPage query p) = Ok pg /\
               data pg = firstn (Z.to_nat l) (skipn (Z.to_nat ((p - 1) * l)) sorted) /\
               currentPage (pagination pg) = Fin p /\
               totalPages (pagination pg) = Fin (Z.of_nat pages) /\
               (hasNextPage (pagination pg) = true <-> p < Z.of_nat pages) /\
               (hasPrevPage (pagination pg) = true <-> 1 < p) /\
               (Z.of_nat pages < p <-> data pg = [])) /\
          walk route query pages = sorted in
      (listFiltered items query = Ok filtered -> partition (listItems items)) /\
      (searchFiltered items query = Ok filtered -> partition (searchRoute items)).
Proof.
  intros E items query l filtered Hlim [Hl Hsafe] Hordered.
  destruct (SortKeys.ordered_sorts query filtered Hordered) as [sorted Hsorted].
  exists sorted. split; [exact Hsorted |]. intros partition.
  assert (Hgen : forall route : Query.t -> Res Page,
             (forall p, exists echo,
                 route (atPage query p) =
                 Ok (pageOfSorted (atPage query p) filtered sorted echo)) ->
             partition route).
  { intros route Hroute. subst partition.
    destruct (RouteFacts.ceilDiv_positive (List.length filtered) l Hl)
      as (pagesZ & Hceil & Hbounds).
    assert (Hperm := JsFacts.sort_perm _ _ _ Hsorted).
    assert (Hpos : 0 <= pagesZ) by nia.
    exists (Z.to_nat pagesZ). rewrite Z2Nat.id by exact Hpos.
    split; [exact Hceil |]. split.
    - intros p [Hp _]. destruct (Hroute p) as [echo Hpg].
      eexists. split; [exact Hpg |].
      apply (Pages.page_of_sorted query p l filtered sorted echo pagesZ);
        assumption.
    - apply (Pages.walk_sorted route query l sorted); [exact Hl | |].
      + intros p Hp. destruct (Hroute p) as [echo ->]. cbn [itemsOf].
        apply (Pages.page_of_sorted query p l filtered sorted echo pagesZ);
          assumption.
      + rewrite <- (Permutation_length Hperm), Z2Nat.id by exact Hpos. lia. }
  split; intros Hf; apply Hgen; intros p; eexists.
  - rewrite Pipeline.listItems_eq.
    change (listFiltered items (atPage query p)) with (listFiltered items query).
    rewrite Hf. cbn [bind].
    change (sortedBy (atPage query p) filtered) with (sortedBy query filtered).
    rewrite Hsorted. reflexivity.
  - rewrite Pipeline.searchRoute_eq.
    change (searchFiltered items (atPage query p))
      with (searchFiltered items query).
    rewrite Hf. cbn [bind].
    change (sortedBy (atPage query p) filtered) with (sortedBy query filtered).
    rewrite Hsorted. reflexivity.
Qed.

Lemma pages_partition_witness :
  walk (listItems (H := sampleEngine) mockItems) (withLimit "2") 2 = mockItems /\
  exists pg,
    listItems (H := sampleEngine) mockItems (atPage (withLimit "2") 2) = Ok pg /\
    data pg = [item 3 "Monitor" "Electronics" 999] /\
    (hasNextPage (pagination pg) = true <-> 2 < 2).
Proof.
  destruct (pages_partition sampleEngine mockItems (withLimit "2") 2
                            mockItems eq_refl (conj eq_refl eq_refl))
    as (sorted & Hsorted & Hlist & _).
  - left. split; [reflexivity |].
    repeat constructor; eexists; reflexivity.
  - vm_compute in Hsorted. injection Hsorted as <-.
    destruct (Hlist eq_refl) as (pages & Hceil & Hpage & Hwalk).
    vm_compute in Hceil. injection Hceil as Hceil.
    apply (Nat2Z.inj 2 pages) in Hceil. subst pages.
    split; [exact Hwalk |].
    destruct (Hpage 2) as (pg & Hpg & Hdata & _ & _ & Hnext & _); [lia |].
    exists pg. split; [exact Hpg |]. split; [exact Hdata | exact Hnext].
Defined.

(** ** Page numbers outside the pages *)

Module OddPages.

Lemma mul_nan_r (a : num) : Num.mul a NaN = NaN.
Proof. destruct a as [z | | | |]; reflexivity. Qed.

Lemma num_ltb_nan_r (a : num) : Num.ltb a NaN = false.
Proof. destruct a as [z | | | |]; reflexivity. Qed.

Lemma slice_nan {A : Type} (l : list A) (stop : num) :
  JsArray.slice l NaN NaN = [] /\ JsArray.slice l stop NaN = [].
Proof.
  split; [reflexivity |]. unfold JsArray.slice. simpl.
  pose proof (JsFacts.clampIndex_range (Z.of_nat (List.length l)) stop
                                       (Nat2Z.is_nonneg _)).
  replace (Z.to_nat (Z.max (0 - _) 0)) with 0%nat by lia. reflexivity.
Qed.

(** The offset of a page that is zero or negative. *)
Lemma offset_back (p l : Z) :
  p <= 0 -> 0 < l ->
  Num.mul (Num.sub (Fin p) (Fin 1)) (Fin l) = Fin ((p - 1) * l) /\
  Num.add (Fin ((p - 1) * l)) (Fin l) = Fin (p * l).
Proof.
  intros Hp Hl. unfold Num.sub. simpl.
  destruct ((p + -1) * l =? 0) eqn:Hz; [apply Z.eqb_eq in Hz; nia |].
  split; f_equal; lia.
Qed.

(** The cut for an offset and an end counted from the end of the array. *)
Lemma slice_back {A : Type} (s : list A) (a b : Z) :
  a < 0 -> a <= b -> b <= 0 ->
  let n := Z.of_nat (List.length s) in
  JsArray.slice s (Fin a) (Fin b) =
  if b =? 0 then []
  else firstn (Z.to_nat (Z.max (n + b) 0) - Z.to_nat (Z.max (n + a) 0))
              (skipn (Z.to_nat (Z.max (n + a) 0)) s).
Proof.
  intros Ha Hab Hb n. unfold JsArray.slice. fold n. simpl.
  replace (a <? 0) with true by (symmetry; apply Z.ltb_lt; lia).
  destruct (b =? 0) eqn:Hz.
  - apply Z.eqb_eq in Hz. subst b. simpl.
    replace (Z.to_nat (Z.max (Z.min 0 n - Z.max (n + a) 0) 0)) with 0%nat by lia.
    reflexivity.
  - apply Z.eqb_neq in Hz.
    replace (b <? 0) with true by (symmetry; apply Z.ltb_lt; lia).
    f_equal. lia.
Qed.

End OddPages.


(** X6.  A page number or a limit that is not a number, and a page number
    below 1, are served, not refused.  Whenever the filters and the sort of a
    request go through, both routes return a page.  When [parseInt] reads the
    page or the limit as NaN the page is empty and [hasNextPage] is false.
    For a limit [l > 0]: page 0 is empty; a page [p < 0] holds the items of
    the sorted collection from position [n + (p - 1) * l] up to [n + p * l]
    counted from its end [n], and reports [hasNextPage = true] whatever the
    collection; [hasPrevPage] is false for both. *)
Theorem page_out_of_range :
  forall (E : Engine) (items : list Item) (query : Query.t)
         (filtered sorted : list Item),
    sortedBy query filtered = Ok sorted ->
    let served (route : Query.t -> Res Page) :=
      exists pg,
        route query = Ok pg /\
        (pageNumOf query = NaN \/ limitNumOf query = NaN ->
         data pg = [] /\ hasNextPage (pagination pg) = false) /\
        (pageNumOf query = NaN -> hasPrevPage (pagination pg) = false) /\
        (forall l p,
            limitNumOf query = Fin l -> 0 < l ->
            pageNumOf query = Fin p -> p <= 0 ->
            hasPrevPage (pagination pg) = false /\
            (p = 0 -> data pg = []) /\
            (p < 0 ->
             hasNextPage (pagination pg) = true /\
             let n := Z.of_nat (List.length sorted) in
             data pg =
             firstn (Z.to_nat (Z.max (n + p * l) 0) -
                     Z.to_nat (Z.max (n + (p - 1) * l) 0))
                    (skipn (Z.to_nat (Z.max (n + (p - 1) * l) 0)) sorted))) in
    (listFiltered items query = Ok filtered -> served (listItems items)) /\
    (searchFiltered items query = Ok filtered -> served (searchRoute items)).
Proof.
  intros E items query filtered sorted Hs served.
  assert (Hgen : forall (route : Query.t -> Res Page) echo,
             route query = Ok (pageOfSorted query filtered sorted echo) ->
             served route).
  { intros route echo Hroute. subst served. eexists. split; [exact Hroute |].
    unfold pageOfSorted, paginate, offsetOf. cbv zeta.
    cbn [data pagination hasNextPage hasPrevPage].
    split; [| split].
    - intros [Hnan | Hnan]; rewrite Hnan.
      + split; [| reflexivity]. simpl. apply OddPages.slice_nan.
      + rewrite OddPages.mul_nan_r. split.
        * apply OddPages.slice_nan.
        * simpl. apply OddPages.num_ltb_nan_r.
    - intros ->. reflexivity.
    - intros l p Hlim Hl Hpage Hp. rewrite Hlim, Hpage.
      destruct (OddPages.offset_back p l Hp Hl) as [-> ->].
      destruct (RouteFacts.ceilDiv_positive (List.length filtered) l Hl)
        as (pages & -> & Hbounds).
      assert (Hpages : 0 <= pages) by nia.
      rewrite (OddPages.slice_back sorted ((p - 1) * l) (p * l)) by nia.
      split; [| split].
      + simpl. apply Z.ltb_ge. lia.
      + intros ->. reflexivity.
      + intros Hneg. split; [simpl; apply Z.ltb_lt; lia |].
        cbv zeta.
        replace (p * l =? 0) with false by (symmetry; apply Z.eqb_neq; nia).
        reflexivity. }
  split; intros Hf.
  - eapply Hgen. rewrite Pipeline.listItems_eq, Hf. cbn [bind].
    rewrite Hs. reflexivity.
  - eapply Hgen. rewrite Pipeline.searchRoute_eq, Hf. cbn [bind].
    rewrite Hs. reflexivity.
Qed.

Lemma page_out_of_range_witness :
  exists pg,
    listItems (H := sampleEngine) mockItems (withPage "-1" "1") = Ok pg /\
    hasPrevPage (pagination pg) = false /\
    hasNextPage (pagination pg) = true /\
    data pg = [item 2 "Headphones" "Electronics" 399].
Proof.
  destruct (page_out_of_range sampleEngine mockItems (withPage "-1" "1")
                              mockItems mockItems eq_refl) as [Hlist _].
  destruct (Hlist eq_refl) as (pg & Hpg & _ & _ & Hback).
  exists pg. split; [exact Hpg |].
  destruct (Hback 1 (-1) eq_refl eq_refl eq_refl) as (Hprev & _ & Hneg);
    [discriminate |].
  destruct (Hneg eq_refl) as (Hnext & Hdata).
  split; [exact Hprev |]. split; [exact Hnext |]. exact Hdata.
Defined.

(** ** The order of a page *)

Module Order.

(** What both routes do to the collection, in three steps. *)
Lemma page_shape `{Engine} (items : list Item) (query : Query.t) (pg : Page) :
  listItems items query = Ok pg \/ searchRoute items query = Ok pg ->
  exists filtered sorted,
    incl filtered items /\
    sortedBy query filtered = Ok sorted /\
    data pg = cut query sorted.
Proof.
  intros [Hpg | Hpg].
  - destruct (RouteFacts.listItems_Ok items query pg Hpg)
      as (f & s & Hf & Hs & Hd & _).
    exists f, s. split; [| split; assumption].
    rewrite (Soundness.listFiltered_filter items query f Hf).
    intros x Hx. apply filter_In in Hx. destruct Hx as [Hx _].
    apply filter_In in Hx. tauto.
  - destruct (RouteFacts.searchRoute_Ok items query pg Hpg)
      as (f & s & Hf & Hs & Hd & _).
    exists f, s. split; [| split; assumption].
    rewrite (Soundness.searchFiltered_filter items query f Hf).
    intros x Hx. apply filter_In in Hx. tauto.
Qed.


Lemma comparator_id `{Engine} (order : string) (a b : Item) (v : Z) :
  integerId a -> integerId b ->
  comparator "id" order a b = Ok v ->
  if String.eqb order "desc"
  then (if 0 <? v then idLe a b else idLe b a)
  else (if 0 <? v then idLe b a else idLe a b).
Proof.
  intros (x & Hx) (y & Hy). unfold comparator, getField. simpl.
  rewrite Hx, Hy. simpl. unfold Js.lessThan. simpl.
  destruct (String.eqb order "desc"); intros Hv; injection Hv as <-.
  - destruct (x <? y) eqn:Hxy; simpl.
    + exists x, y. repeat split; trivial. apply Z.ltb_lt in Hxy. lia.
    + apply Z.ltb_ge in Hxy.
      destruct (y <? x); simpl; exists y, x; repeat split; trivial.
  - destruct (y <? x) eqn:Hyx; simpl.
    + exists y, x. repeat split; trivial. apply Z.ltb_lt in Hyx. lia.
    + apply Z.ltb_ge in Hyx.
      destruct (x <? y); simpl; exists x, y; repeat split; trivial.
Qed.





(** Elements that the comparator does not put in strict order keep their
    order: the sort is stable. *)
Lemma insert_stable {A : Type} (cmp : A -> A -> Res Z) (sel : A -> bool)
      (x : A) (l r : list A) :
  (forall y v, cmp x y = Ok v -> 0 < v -> sel x && sel y = false) ->
  Js.insert cmp x l = Ok r ->
  List.filter sel r = List.filter sel (x :: l).
Proof.
  intros Hsel. revert r. induction l as [| y l IH]; simpl; intros r Hr.
  - injection Hr as <-. reflexivity.
  - bind_inv Hr. destruct (0 <? a) eqn:Hpos.
    + bind_inv Hr. injection Hr as <-. simpl.
      rewrite (IH _ Ha0). simpl.
      apply Z.ltb_lt in Hpos. specialize (Hsel y a Ha Hpos).
      destruct (sel x), (sel y); simpl in *; try discriminate; reflexivity.
    + injection Hr as <-. reflexivity.
Qed.

Lemma sort_stable {A : Type} (cmp : A -> A -> Res Z) (sel : A -> bool)
      (l s : list A) :
  (forall x y v, cmp x y = Ok v -> 0 < v -> sel x && sel y = false) ->
  Js.sort cmp l = Ok s ->
  List.filter sel s = List.filter sel l.
Proof.
  intros Hsel. revert s. induction l as [| x l IH]; simpl; intros s Hs.
  - injection Hs as <-. reflexivity.
  - bind_inv Hs.
    rewrite (insert_stable cmp sel x a s (Hsel x) Hs). simpl.
    rewrite (IH _ Ha). reflexivity.
Qed.

Lemma string_ltb_irrefl (s : string) : String.ltb s s = false.
Proof.
  unfold String.ltb. pose proof (String.compare_antisym s s) as Hc.
  destruct (String.compare s s); try discriminate Hc; reflexivity.
Qed.

Lemma comparator_category `{Engine} (order wanted : string) (a b : Item) (v : Z) :
  comparator "category" order a b = Ok v -> 0 < v ->
  keepsCategory wanted a && keepsCategory wanted b = false.
Proof.
  unfold comparator, getField, keepsCategory. simpl.
  destruct (category a) as [| | s]; simpl; try reflexivity.
  destruct (category b) as [| | t]; simpl; try (rewrite andb_false_r; reflexivity).
  unfold Js.lessThan. simpl.
  destruct (String.eqb_spec (JsString.toLowerCase s)
                            (JsString.toLowerCase (JsString.trim wanted)))
    as [Hs | Hs]; [| reflexivity].
  destruct (String.eqb_spec (JsString.toLowerCase t)
                            (JsString.toLowerCase (JsString.trim wanted)))
    as [Ht | Ht]; [| reflexivity].
  rewrite Hs, Ht, string_ltb_irrefl.
  destruct (String.eqb order "desc"); intros Hv; injection Hv as <-; lia.
Qed.

Lemma comparator_same_id `{Engine} (order : string) (n : num) (a b : Item) (v : Z) :
  comparator "id" order a b = Ok v -> 0 < v ->
  idIs n a && idIs n b = false.
Proof.
  intros Hv Hpos. unfold idIs.
  destruct (id a) as [| | x] eqn:Ha; try reflexivity.
  destruct (id b) as [| | y] eqn:Hb; try (rewrite andb_false_r; reflexivity).
  destruct (Num.eqb (Fin x) n) eqn:Hx; [| reflexivity].
  destruct (Num.eqb (Fin y) n) eqn:Hy; [| rewrite andb_false_r; reflexivity].
  exfalso.
  assert (Hxy : x = y).
  { destruct n as [z | | | |]; simpl in Hx, Hy; try discriminate;
      apply Z.eqb_eq in Hx, Hy; lia. }
  subst y. revert Hv. unfold comparator, getField. simpl.
  rewrite Ha, Hb. simpl. unfold Js.lessThan. simpl. rewrite Z.ltb_irrefl.
  destruct (String.eqb order "desc"); intros Hv; injection Hv as <-; lia.
Qed.

End Order.

(** X7.  The default order.  A request that names no sort key, or the key
    [id], never fails in the sort when the ids are integers, and every page
    that the list route or the search route returns is in ascending order of
    id, or in descending order when [sortOrder] is [desc]. *)
Theorem order_by_id :
  forall (E : Engine) (items : list Item) (query : Query.t),
    Forall integerId items ->
    orDefault "id" (Query.sortBy query) = "id" ->
    (forall filtered,
        incl filtered items -> exists sorted, sortedBy query filtered = Ok sorted) /\
    (forall pg,
        listItems items query = Ok pg \/ searchRoute items query = Ok pg ->
        if String.eqb (orDefault "asc" (Query.sortOrder query)) "desc"
        then Sorted (fun a b => idLe b a) (data pg)
        else Sorted idLe (data pg)).
Proof.
  intros E items query Hids Hkey. split.
  - intros filtered Hincl.
    apply (RouteFacts.sortedBy_total query items filtered); [| exact Hincl].
    rewrite Hkey. apply RouteFacts.uniform_id.
  - intros pg Hpg.
    destruct (Order.page_shape items query pg Hpg)
      as (filtered & sorted & Hincl & Hs & ->).
    assert (Hall : Forall integerId filtered)
      by (apply (RouteFacts.Forall_incl integerId items filtered); assumption).
    unfold sortedBy in Hs. rewrite Hkey in Hs. unfold cut.
    pose proof (fun a b v => Order.comparator_id
                               (orDefault "asc" (Query.sortOrder query)) a b v)
      as Hcmp.
    destruct (String.eqb (orDefault "asc" (Query.sortOrder query)) "desc").
    + apply SortFacts.Sorted_slice.
      apply (SortFacts.sort_sorted _ (fun a b => idLe b a) integerId Hcmp
                                   filtered sorted Hall Hs).
    + apply SortFacts.Sorted_slice.
      apply (SortFacts.sort_sorted _ idLe integerId Hcmp
                                   filtered sorted Hall Hs).
Qed.

Lemma order_by_id_witness :
  exists pg,
    searchRoute (H := sampleEngine)
                [item 3 "Monitor" "Electronics" 999;
                 item 1 "Laptop Pro" "Electronics" 2499;
                 item 2 "Headphones" "Electronics" 399]
                Query.empty = Ok pg /\
    Sorted idLe (data pg).
Proof.
  destruct (order_by_id sampleEngine
              [item 3 "Monitor" "Electronics" 999;
               item 1 "Laptop Pro" "Electronics" 2499;
               item 2 "Headphones" "Electronics" 399]
              Query.empty) as [_ Hsorted].
  - repeat constructor; eexists; reflexivity.
  - reflexivity.
  - eexists. split; [reflexivity |].
    apply (Hsorted _ (or_intror eq_refl)).
Defined.



(** X9.  The sort keeps ties in the order of the file.  On items whose
    categories are strings, sorting by [category] leaves the items of one
    category, compared as the category filter compares them, in the order
    they had before the sort; so a collection that holds one category only
    is not rearranged at all.  On items whose ids are integers, sorting by
    [id] does the same for items that share an id. *)
Theorem sort_keeps_ties :
  forall (E : Engine) (query : Query.t) (filtered sorted : list Item),
    sortedBy query filtered = Ok sorted ->
    (orDefault "id" (Query.sortBy query) = "category" ->
     Forall stringCategory filtered ->
     (forall wanted,
         List.filter (keepsCategory wanted) sorted =
         List.filter (keepsCategory wanted) filtered) /\
     (forall wanted,
         Forall (fun i => keepsCategory wanted i = true) filtered ->
         sorted = filtered)) /\
    (orDefault "id" (Query.sortBy query) = "id" ->
     Forall integerId filtered ->
     forall n,
       List.filter (idIs n) sorted = List.filter (idIs n) filtered).
Proof.
  intros E query filtered sorted Hs. unfold sortedBy in Hs. split.
  - intros Hkey _. rewrite Hkey in Hs.
    assert (Hties : forall wanted,
               List.filter (keepsCategory wanted) sorted =
               List.filter (keepsCategory wanted) filtered).
    { intros wanted.
      eapply Order.sort_stable; [| exact Hs].
      intros x y v. apply Order.comparator_category. }
    split; [exact Hties |].
    intros wanted Hall. specialize (Hties wanted).
    assert (Hall' : Forall (fun i => keepsCategory wanted i = true) sorted)
      by (apply (Permutation_Forall (JsFacts.sort_perm _ _ _ Hs)), Hall).
    rewrite (forallb_filter_id (keepsCategory wanted) sorted) in Hties
      by (apply forallb_forall, Forall_forall, Hall').
    rewrite (forallb_filter_id (keepsCategory wanted) filtered) in Hties
      by (apply forallb_forall, Forall_forall, Hall).
    exact Hties.
  - intros Hkey _ n. rewrite Hkey in Hs.
    eapply Order.sort_stable; [| exact Hs].
    intros x y v. apply Order.comparator_same_id.
Qed.

Lemma sort_keeps_ties_witness :
  List.filter (keepsCategory "tools")
              [item 2 "Atlas" "Books" 20; item 1 "Saw" "Tools" 35;
               item 3 "Drill" "tools" 80] =
  [item 1 "Saw" "Tools" 35; item 3 "Drill" "tools" 80].
Proof.
  destruct (sort_keeps_ties sampleEngine (sortedOn "category" "asc")
              [item 1 "Saw" "Tools" 35; item 2 "Atlas" "Books" 20;
               item 3 "Drill" "tools" 80]
              [item 2 "Atlas" "Books" 20; item 1 "Saw" "Tools" 35;
               item 3 "Drill" "tools" 80] eq_refl) as [Hcat _].
  destruct (Hcat eq_refl) as [Hties _].
  - repeat constructor; eexists; reflexivity.
  - rewrite (Hties "tools"). reflexivity.
Defined.

(** ** The id in the path *)

Module Segments.

Import NumberToString.

Lemma digitsOf_app (fuel : nat) (z : Z) (acc tail : string) :
  (digitsOf fuel z acc ++ tail)%string = digitsOf fuel z (acc ++ tail).
Proof.
  revert z acc. induction fuel as [| fuel IH]; intros z acc; [reflexivity |].
  cbn [digitsOf]. destruct (z <? 10); [reflexivity |].
  rewrite IH. reflexivity.
Qed.

(** The first digit written is 0 for the number 0 only. *)
Lemma digitsOf_lead (fuel : nat) (z : Z) (acc : string) :
  0 <= z < 10 ^ Z.of_nat (S fuel) ->
  exists d rest,
    0 <= d < 10 /\ digitsOf (S fuel) z acc = String (digitChar d) rest /\
    (d = 0 -> z = 0 /\ rest = acc).
Proof.
  revert z acc. induction fuel as [| fuel IH]; intros z acc Hz.
  - change (10 ^ Z.of_nat 1) with 10 in Hz.
    exists z, acc. split; [exact Hz |]. split; [| auto].
    cbn [digitsOf]. rewrite Z.mod_small by exact Hz.
    destruct (z <? 10); reflexivity.
  - assert (Hmod : 0 <= z mod 10 < 10) by (apply Z.mod_pos_bound; lia).
    change (digitsOf (S (S fuel)) z acc)
      with (if z <? 10 then String (digitChar (z mod 10)) acc
            else digitsOf (S fuel) (z / 10) (String (digitChar (z mod 10)) acc)).
    destruct (z <? 10) eqn:Hlt.
    + apply Z.ltb_lt in Hlt. exists z, acc.
      rewrite Z.mod_small by lia. split; [lia |]. split; [reflexivity | auto].
    + apply Z.ltb_ge in Hlt.
      destruct (IH (z / 10) (String (digitChar (z mod 10)) acc))
        as (d & rest & Hd & Heq & Hzero).
      { split; [apply Z.div_pos; lia |].
        apply Z.div_lt_upper_bound; [lia |].
        rewrite Nat2Z.inj_succ, Z.pow_succ_r in Hz by lia. lia. }
      exists d, rest. split; [exact Hd |]. split; [exact Heq |].
      intros Hd0. destruct (Hzero Hd0) as [Hq _].
      assert (1 <= z / 10) by (apply Z.div_le_lower_bound; lia). lia.
Qed.

(** A text that starts with a decimal digit is read in base ten, unless it
    starts with 0x or 0X. *)
Lemma parseInt_lead (d : Z) (rest : string) :
  0 <= d < 10 ->
  (d = 0 ->
   match rest with
   | EmptyString => True
   | String c _ => c <> "x"%char /\ c <> "X"%char
   end) ->
  ParseInt.parseInt (String (digitChar d) rest) =
  match ParseInt.digits 10 (String (digitChar d) rest) None with
  | None => NaN
  | Some v => Fin v
  end.
Proof.
  intros Hd Hzero.
  destruct (NumberFacts.small_cases d Hd)
    as [-> | [-> | [-> | [-> | [-> | [-> | [-> | [-> | [-> | ->]]]]]]]]];
    try reflexivity.
  specialize (Hzero eq_refl).
  destruct rest as [| c r]; [reflexivity |].
  destruct Hzero as [Hx HX].
  destruct c as [[] [] [] [] [] [] [] []];
    try reflexivity; exfalso; solve [apply Hx; reflexivity | apply HX; reflexivity].
Qed.

(** [parseInt] stops at the first character that is no digit. *)
Lemma parseInt_tail (n : Z) (tail : string) :
  0 <= n -> trailing n tail ->
  ParseInt.parseInt (toString n ++ tail) = Fin n.
Proof.
  intros Hn Htail. unfold toString.
  replace (n <? 0) with false by (symmetry; apply Z.ltb_ge; exact Hn).
  unfold unsigned. rewrite digitsOf_app. cbn [append].
  pose proof (NumberFacts.fuel_enough n Hn) as Hfuel.
  destruct (digitsOf_lead (Z.to_nat (Z.log2 n)) n tail Hfuel)
    as (d & rest & Hd & Heq & Hzero).
  rewrite Heq, parseInt_lead; [| exact Hd |].
  - rewrite <- Heq, NumberFacts.digits_digitsOf by exact Hfuel.
    destruct tail as [| c r]; [reflexivity |].
    destruct Htail as [Hc _]. cbn [ParseInt.digits]. rewrite Hc. reflexivity.
  - intros Hd0. destruct (Hzero Hd0) as [Hn0 ->].
    destruct tail as [| c r]; [exact I |].
    destruct Htail as [_ Hx]. apply Hx, Hn0.
Qed.

Lemma idIs_Fin (n : Z) (i : Item) :
  idIs (Fin n) i = true <-> id i = Val n.
Proof.
  unfold idIs. destruct (id i) as [| | z]; simpl;
    try (split; discriminate).
  rewrite Z.eqb_eq. split; congruence.
Qed.

Lemma idIs_NaN (i : Item) : idIs NaN i = false.
Proof. unfold idIs. destruct (id i); reflexivity. Qed.

(** What [Array.prototype.find] returns: the first element that passes. *)
Lemma find_first {A : Type} (f : A -> bool) (l : list A) (x : A) :
  find f l = Some x <->
  exists before after,
    l = (before ++ x :: after)%list /\ f x = true /\
    Forall (fun y => f y = false) before.
Proof.
  induction l as [| y l IH]; simpl.
  - split; [discriminate |].
    intros (before & after & Heq & _). destruct before; discriminate Heq.
  - destruct (f y) eqn:Hy.
    + split.
      * intros Hx. injection Hx as <-. exists [], l. auto.
      * intros (before & after & Heq & Hx & Hall).
        destruct before as [| b before]; simpl in Heq.
        -- injection Heq as -> _. reflexivity.
        -- injection Heq as <- _. inversion Hall; congruence.
    + rewrite IH. split.
      * intros (before & after & -> & Hx & Hall).
        exists (y :: before), after. auto.
      * intros (before & after & Heq & Hx & Hall).
        destruct before as [| b before]; simpl in Heq.
        -- injection Heq as -> _. congruence.
        -- injection Heq as _ ->. inversion Hall; subst.
           exists before, after. auto.
Qed.

End Segments.

(** X10.  How GET /api/items/:id reads the id in the path.  A segment that
    [parseInt] cannot read as a number gets the answer of a missing item,
    404, whatever the collection holds.  Text after the decimal digits of a
    number is ignored, so the segments 42, 42abc and 42.9 name the same
    item.  The item returned for an [n] below 2^53, which the engine holds
    exactly, is the first item of the file whose id is [n]: a later item
    with the same id is never returned. *)
Theorem id_segment :
  forall (data : list Item),
    (forall s,
        ParseInt.parseInt s = NaN ->
        findItem data s = Throw (mkExn "Item not found" (Some 404))) /\
    (forall n tail,
        0 <= n -> trailing n tail ->
        findItem data (NumberToString.toString n ++ tail) =
        findItem data (NumberToString.toString n)) /\
    (forall n i,
        0 <= n < 2 ^ 53 ->
        (findItem data (NumberToString.toString n) = Ok i <->
         exists before after,
           data = (before ++ i :: after)%list /\ id i = Val n /\
           Forall (fun j => id j <> Val n) before)).
Proof.
  intros data. split; [| split].
  - intros s Hs. unfold findItem. rewrite Hs.
    rewrite (find_none_of (idIs NaN) data); [reflexivity |].
    intros i _. apply Segments.idIs_NaN.
  - intros n tail Hn Htail. unfold findItem.
    rewrite (Segments.parseInt_tail n tail Hn Htail).
    rewrite (NumberFacts.parseInt_toString n Hn). reflexivity.
  - intros n i [Hn Hsafe]. unfold findItem.
    rewrite (NumberFacts.parseInt_toString n Hn).
    destruct (find (idIs (Fin n)) data) as [x |] eqn:Hfind.
    + apply Segments.find_first in Hfind.
      destruct Hfind as (before & after & Hdata & Hx & Hall).
      assert (Hall' : Forall (fun j => id j <> Val n) before).
      { apply Forall_forall. intros j Hj Hid.
        rewrite Forall_forall in Hall. specialize (Hall j Hj).
        apply Segments.idIs_Fin in Hid. congruence. }
      split.
      * intros Heq. injection Heq as <-. exists before, after.
        split; [exact Hdata |]. split; [apply Segments.idIs_Fin, Hx | exact Hall'].
      * intros (before' & after' & Hdata' & Hi & Hall'').
        assert (Hfind' : find (idIs (Fin n)) data = Some i).
        { apply Segments.find_first. exists before', after'.
          split; [exact Hdata' |]. split; [apply Segments.idIs_Fin, Hi |].
          apply Forall_forall. intros j Hj.
          rewrite Forall_forall in Hall''. specialize (Hall'' j Hj).
          destruct (idIs (Fin n) j) eqn:Hj'; [| reflexivity].
          apply Segments.idIs_Fin in Hj'. contradiction. }
        assert (Hfind0 : find (idIs (Fin n)) data = Some x).
        { apply Segments.find_first. exists before, after. auto. }
        congruence.
    + split; [discriminate |].
      intros (before & after & Hdata & Hi & Hall).
      assert (Hfind' : find (idIs (Fin n)) data = Some i).
      { apply Segments.find_first. exists before, after.
        split; [exact Hdata |]. split; [apply Segments.idIs_Fin, Hi |].
        apply Forall_forall. intros j Hj.
        rewrite Forall_forall in Hall. specialize (Hall j Hj).
        destruct (idIs (Fin n) j) eqn:Hj'; [| reflexivity].
        apply Segments.idIs_Fin in Hj'. contradiction. }
      congruence.
Qed.

Lemma id_segment_witness :
  findItem mockItems "2.9" = Ok (item 2 "Headphones" "Electronics" 399) /\
  findItem mockItems "two" = Throw (mkExn "Item not found" (Some 404)).
Proof.
  destruct (id_segment mockItems) as (Hnan & Htail & _).
  split.
  - change "2.9" with (NumberToString.toString 2 ++ ".9")%string.
    rewrite Htail; [reflexivity | lia |].
    split; [reflexivity | intros Hn; discriminate Hn].
  - apply Hnan. reflexivity.
Defined.

(** ** Failures *)

Module Failures.

Lemma filter_throws {A : Type} (f : A -> Res bool) (l : list A) (e : Exn) :
  Js.filter f l = Throw e -> exists x, In x l /\ f x = Throw e.
Proof.
  induction l as [| x l IH]; simpl; [discriminate |].
  destruct (f x) as [b | e'] eqn:Hx; simpl.
  - destruct (Js.filter f l) as [r | e'']; simpl; [discriminate |].
    intros Heq. injection Heq as ->.
    destruct (IH eq_refl) as (y & Hy & Hfy). eauto.
  - intros Heq. injection Heq as ->. eauto.
Qed.

Lemma filter_fails_iff {A : Type} (f : A -> Res bool) (l : list A) :
  value (Js.filter f l) = None <-> Exists (fun x => value (f x) = None) l.
Proof.
  induction l as [| x l IH]; simpl.
  - split; [discriminate | intros Hex; inversion Hex].
  - destruct (f x) as [b | e] eqn:Hx; simpl.
    + destruct (Js.filter f l) as [r | e]; simpl in *.
      * split; [discriminate |].
        intros Hex. inversion Hex as [? ? Hv | ? ? Hl]; subst.
        -- rewrite Hx in Hv. discriminate.
        -- apply IH in Hl. discriminate.
      * split; [| reflexivity]. intros _. right. apply IH. reflexivity.
    + split; [| reflexivity]. intros _. left. rewrite Hx. reflexivity.
Qed.

Lemma insert_throws {A : Type} (cmp : A -> A -> Res Z) (x : A) (l : list A) (e : Exn) :
  Js.insert cmp x l = Throw e -> exists y, cmp x y = Throw e.
Proof.
  induction l as [| y l IH]; simpl; [discriminate |].
  destruct (cmp x y) as [v | e'] eqn:Hxy; simpl.
  - destruct (0 <? v); [| discriminate].
    destruct (Js.insert cmp x l) as [r | e'']; simpl; [discriminate |].
    intros Heq. injection Heq as ->. apply IH. reflexivity.
  - intros Heq. injection Heq as ->. eauto.
Qed.

Lemma sort_throws {A : Type} (cmp : A -> A -> Res Z) (l : list A) (e : Exn) :
  Js.sort cmp l = Throw e -> exists x y, cmp x y = Throw e.
Proof.
  induction l as [| x l IH]; simpl; [discriminate |].
  destruct (Js.sort cmp l) as [s | e']; simpl.
  - intros Hins. exists x. apply (insert_throws cmp x s e Hins).
  - intros Heq. injection Heq as ->. apply IH. reflexivity.
Qed.

Lemma toLowerCase_unmarked (v : JsVal) (e : Exn) :
  Js.toLowerCase v = Throw e -> status e = None.
Proof.
  destruct v; simpl; intros Heq; try discriminate;
    injection Heq as <-; reflexivity.
Qed.

Lemma matchesText_unmarked (term : string) (i : Item) (e : Exn) :
  matchesText term i = Throw e -> status e = None.
Proof.
  unfold matchesText, lower.
  destruct (Js.toLowerCase (valueOf VStr (name i))) as [n | e'] eqn:Hn; simpl.
  - destruct (JsString.includes n term); [discriminate |].
    destruct (Js.toLowerCase (valueOf VStr (category i))) as [c | e'] eqn:Hc;
      simpl; [discriminate |].
    intros Heq. injection Heq as ->. apply (toLowerCase_unmarked _ _ Hc).
  - intros Heq. injection Heq as ->. apply (toLowerCase_unmarked _ _ Hn).
Qed.

Lemma matchesCategory_unmarked (wanted : string) (i : Item) (e : Exn) :
  matchesCategory wanted i = Throw e -> status e = None.
Proof.
  unfold matchesCategory, lower.
  destruct (Js.toLowerCase (valueOf VStr (category i))) as [c | e'] eqn:Hc;
    simpl; [discriminate |].
  intros Heq. injection Heq as ->. apply (toLowerCase_unmarked _ _ Hc).
Qed.

Lemma textTest_unmarked (q : string) (i : Item) (e : Exn) :
  textTest q i = Throw e -> status e = None.
Proof.
  unfold textTest. destruct (JsString.truthy _); [| discriminate].
  apply matchesText_unmarked.
Qed.

Lemma categoryTest_unmarked (wanted : string) (i : Item) (e : Exn) :
  categoryTest wanted i = Throw e -> status e = None.
Proof.
  unfold categoryTest. destruct (JsString.truthy _); [| discriminate].
  apply matchesCategory_unmarked.
Qed.

Lemma comparator_unmarked `{Engine} (key order : string) (a b : Item) (e : Exn) :
  comparator key order a b = Throw e -> status e = None.
Proof.
  unfold comparator.
  destruct (getField key a) as [| | z | f | s | l]; simpl;
    try (destruct (String.eqb order "desc"); discriminate).
  destruct (Js.toLowerCase (getField key b)) as [t | e'] eqn:Hb; simpl.
  - destruct (String.eqb order "desc"); discriminate.
  - intros Heq. injection Heq as ->. apply (toLowerCase_unmarked _ _ Hb).
Qed.

Lemma listFiltered_unmarked (items : list Item) (query : Query.t) (e : Exn) :
  listFiltered items query = Throw e -> status e = None.
Proof.
  unfold listFiltered. rewrite Pipeline.textFilter_test.
  destruct (Js.filter _ items) as [r | e'] eqn:Ht; simpl.
  - rewrite Pipeline.categoryFilter_test. intros Hc.
    destruct (filter_throws _ _ _ Hc) as (x & _ & Hx).
    apply (categoryTest_unmarked _ _ _ Hx).
  - intros Heq. injection Heq as ->.
    destruct (filter_throws _ _ _ Ht) as (x & _ & Hx).
    apply (textTest_unmarked _ _ _ Hx).
Qed.

Lemma searchFiltered_unmarked `{Engine} (items : list Item) (query : Query.t)
      (e : Exn) :
  searchFiltered items query = Throw e -> status e = None.
Proof.
  unfold searchFiltered. rewrite Soundness.searchItems_three. intros Hf.
  destruct (filter_throws _ _ _ Hf) as (x & _ & Hx).
  unfold andThen in Hx.
  destruct (textTest _ x) as [[|] | e'] eqn:Ht; simpl in Hx; try discriminate.
  - destruct (categoryTest _ x) as [[|] | e'] eqn:Hc; simpl in Hx;
      try discriminate.
    injection Hx as ->. apply (categoryTest_unmarked _ _ _ Hc).
  - injection Hx as ->. apply (textTest_unmarked _ _ _ Ht).
Qed.

Lemma sortedBy_unmarked `{Engine} (query : Query.t) (filtered : list Item)
      (e : Exn) :
  sortedBy query filtered = Throw e -> status e = None.
Proof.
  unfold sortedBy. intros Hs.
  destruct (sort_throws _ _ _ Hs) as (x & y & Hxy).
  apply (comparator_unmarked _ _ _ _ _ Hxy).
Qed.

(** No exception of the two routes carries a [status]. *)
Lemma routes_unmarked `{Engine} (items : list Item) (query : Query.t) (e : Exn) :
  listItems items query = Throw e \/ searchRoute items query = Throw e ->
  status e = None.
Proof.
  intros [Hl | Hs].
  - rewrite Pipeline.listItems_eq in Hl.
    destruct (listFiltered items query) as [f | e'] eqn:Hf; simpl in Hl.
    + destruct (sortedBy query f) as [s | e'] eqn:Hsort; simpl in Hl;
        [discriminate |].
      injection Hl as ->. apply (sortedBy_unmarked _ _ _ Hsort).
    + injection Hl as ->. apply (listFiltered_unmarked _ _ _ Hf).
  - rewrite Pipeline.searchRoute_eq in Hs.
    destruct (searchFiltered items query) as [f | e'] eqn:Hf; simpl in Hs.
    + destruct (sortedBy query f) as [s | e'] eqn:Hsort; simpl in Hs;
        [discriminate |].
      injection Hs as ->. apply (sortedBy_unmarked _ _ _ Hsort).
    + injection Hs as ->. apply (searchFiltered_unmarked _ _ _ Hf).
Qed.

Lemma matchesText_fails (q : string) (i : Item) :
  value (matchesText (JsString.trim (JsString.toLowerCase q)) i) = None <->
  textFails q i.
Proof.
  unfold matchesText, textFails, lower, stringCategory.
  rewrite StringFacts.trim_toLowerCase.
  destruct (name i) as [| | n]; simpl;
    [split; [exact (fun _ => I) | reflexivity] ..|].
  destruct (JsString.includes (JsString.toLowerCase n) _) eqn:Hn; simpl.
  - apply StringFacts.includes_spec in Hn.
    split; [discriminate | intros [Hno _]; contradiction].
  - assert (Hno : ~ occursIn (JsString.toLowerCase (JsString.trim q))
                            (JsString.toLowerCase n)).
    { intros Hocc. apply StringFacts.includes_spec in Hocc. congruence. }
    destruct (category i) as [| | c]; simpl.
    + split; [| reflexivity]. intros _. split; [exact Hno |].
      intros [c Hc]. discriminate.
    + split; [| reflexivity]. intros _. split; [exact Hno |].
      intros [c Hc]. discriminate.
    + split; [discriminate |]. intros [_ Hc]. exfalso. apply Hc. eauto.
Qed.

Lemma matchesCategory_fails (wanted : string) (i : Item) :
  value (matchesCategory wanted i) = None <-> ~ stringCategory i.
Proof.
  unfold matchesCategory, lower, stringCategory.
  destruct (category i) as [| | c]; simpl.
  - split; [| reflexivity]. intros _ [c Hc]. discriminate.
  - split; [| reflexivity]. intros _ [c Hc]. discriminate.
  - split; [discriminate |]. intros Hc. exfalso. apply Hc. eauto.
Qed.

End Failures.

(** X11.  When the filters of the list route fail.  For a [q] that is not
    blank the text filter throws exactly when the collection holds an item
    whose name is no string, or whose name does not contain the term and
    whose category is no string: an item without a category passes
    unnoticed when its name matches.  For a category that is not blank the
    category filter throws exactly when some item has no string for
    category.  Whatever the two routes throw, in a filter or in the sort,
    carries no [status]: the answer is 500. *)
Theorem filter_failures :
  forall (E : Engine) (nodeEnv : option string) (items : list Item),
    (forall q,
        ~ blank q ->
        (value (textFilter q items) = None <-> Exists (textFails q) items)) /\
    (forall wanted,
        ~ blank wanted ->
        (value (categoryFilter wanted items) = None <->
         Exists (fun i => ~ stringCategory i) items)) /\
    (forall query e,
        listItems items query = Throw e \/ searchRoute items query = Throw e ->
        status e = None /\ statusCode (errorHandler nodeEnv e) = 500).
Proof.
  intros E nodeEnv items. split; [| split].
  - intros q Hq. unfold textFilter.
    destruct (JsString.truthy (JsString.trim q)) eqn:Ht;
      [| exfalso; apply Hq; exact Ht].
    rewrite Failures.filter_fails_iff.
    split; intros Hex; apply Exists_exists in Hex; apply Exists_exists;
      destruct Hex as (i & Hi & Hfail); exists i; split; trivial;
      apply Failures.matchesText_fails; exact Hfail.
  - intros wanted Hw. unfold categoryFilter.
    destruct (JsString.truthy (JsString.trim wanted)) eqn:Ht;
      [| exfalso; apply Hw; exact Ht].
    rewrite Failures.filter_fails_iff.
    split; intros Hex; apply Exists_exists in Hex; apply Exists_exists;
      destruct Hex as (i & Hi & Hfail); exists i; split; trivial;
      apply (Failures.matchesCategory_fails wanted); exact Hfail.
  - intros query e Hthrow.
    pose proof (Failures.routes_unmarked items query e Hthrow) as Hstatus.
    split; [exact Hstatus |].
    unfold errorHandler, statusOf. cbn [statusCode]. rewrite Hstatus. reflexivity.
Qed.

Lemma filter_failures_witness :
  value (textFilter "monitor" withNulls) = None /\
  textFilter "o" [mkItem (Val 7) (Val "Monitor") Null (Val 999%float)
                         Absent Absent Absent] =
  Ok [mkItem (Val 7) (Val "Monitor") Null (Val 999%float) Absent Absent Absent].
Proof.
  split.
  - destruct (filter_failures sampleEngine None withNulls) as (Htext & _ & _).
    apply (Htext "monitor"); [discriminate |].
    apply Exists_exists. exists (withId 4 nullBody).
    split; [| exact I].
    unfold withNulls. apply in_or_app. right. left. reflexivity.
  - destruct (textFilter "o" _) as [r | e] eqn:Hr; [| exfalso].
    + vm_compute in Hr. injection Hr as <-. reflexivity.
    + destruct (filter_failures sampleEngine None
                  [mkItem (Val 7) (Val "Monitor") Null (Val 999%float)
                          Absent Absent Absent]) as (Htext & _ & _).
      destruct (Htext "o") as [Hfail _]; [discriminate |].
      rewrite Hr in Hfail. specialize (Hfail eq_refl).
      vm_compute in Hr. discriminate Hr.
Defined.

(** ** The answers of the application *)

Module Answers.

Lemma unmarked_500 `{Engine} (nodeEnv : option string) (e : Exn) :
  status e = None -> statusCode (errorHandler nodeEnv e) = 500.
Proof.
  intros He. unfold errorHandler, statusOf. cbn [statusCode]. rewrite He.
  reflexivity.
Qed.

Lemma getCategories_readable (w : World) (items : list Item) :
  readData w = Ok items -> exists cs, getCategories w = Ok cs.
Proof.
  intros Hread. unfold getCategories. rewrite Hread. cbn [bind].
  apply JsFacts.sort_total. intros x y _ _.
  apply CategoryFacts.defaultCompare_total.
Qed.

End Answers.

(** X12.  The status codes of the application.  When the errors of reading
    and of writing the file carry no [status], as those of [fs] and of
    [JSON.parse] do, the list route, the search route and the categories
    route answer 200 or 500, and the categories route answers 200 whenever
    the file is readable; GET /api/items/:id answers 200, 404 or 500, and
    never 500 on a readable file; POST answers 201 and has appended exactly
    the new item, or answers 500 and has left the file as it was.  A request
    that no route takes is answered 404 by [notFound]. *)
Theorem status_codes :
  forall (E : Engine) (nodeEnv : option string) (w : World),
    (forall e, readData w = Throw e -> status e = None) ->
    (forall e, writeFault w = Some e -> status e = None) ->
    (forall query,
        statusCode (App.getItems nodeEnv w query) = 200 \/
        statusCode (App.getItems nodeEnv w query) = 500) /\
    (forall query,
        statusCode (App.getSearch nodeEnv w query) = 200 \/
        statusCode (App.getSearch nodeEnv w query) = 500) /\
    (statusCode (App.getCategoriesRoute nodeEnv w) = 200 \/
     statusCode (App.getCategoriesRoute nodeEnv w) = 500) /\
    (forall items,
        readData w = Ok items ->
        statusCode (App.getCategoriesRoute nodeEnv w) = 200) /\
    (forall idParam,
        statusCode (App.getItemById nodeEnv w idParam) = 200 \/
        statusCode (App.getItemById nodeEnv w idParam) = 404 \/
        statusCode (App.getItemById nodeEnv w idParam) = 500) /\
    (forall items idParam,
        readData w = Ok items ->
        statusCode (App.getItemById nodeEnv w idParam) <> 500) /\
    (forall now body,
        (statusCode (snd (App.postItem nodeEnv w now body)) = 201 /\
         exists items,
           readData w = Ok items /\
           readData (fst (App.postItem nodeEnv w now body)) =
           Ok (items ++ [withId now body])%list) \/
        (statusCode (snd (App.postItem nodeEnv w now body)) = 500 /\
         fst (App.postItem nodeEnv w now body) = w)) /\
    (forall url, statusCode (errorHandler nodeEnv (notFound url)) = 404).
Proof.
  intros E nodeEnv w Hread Hwrite.
  split; [| split; [| split; [| split; [| split; [| split; [| split]]]]]].
  - intros query. unfold App.getItems.
    destruct (readData w) as [items | e] eqn:Hr; cbn [bind respond].
    + destruct (listItems items query) as [pg | e] eqn:Hpg; cbn [respond].
      * left. reflexivity.
      * right. apply Answers.unmarked_500.
        apply (Failures.routes_unmarked items query e). left. exact Hpg.
    + right. apply Answers.unmarked_500, Hread. reflexivity.
  - intros query. unfold App.getSearch.
    destruct (readData w) as [items | e] eqn:Hr; cbn [bind respond].
    + destruct (searchRoute items query) as [pg | e] eqn:Hpg; cbn [respond].
      * left. reflexivity.
      * right. apply Answers.unmarked_500.
        apply (Failures.routes_unmarked items query e). right. exact Hpg.
    + right. apply Answers.unmarked_500, Hread. reflexivity.
  - unfold App.getCategoriesRoute.
    destruct (readData w) as [items | e] eqn:Hr.
    + destruct (Answers.getCategories_readable w items Hr) as [cs ->].
      left. reflexivity.
    + unfold getCategories. rewrite Hr. cbn [bind respond].
      right. apply Answers.unmarked_500, Hread. reflexivity.
  - intros items Hr. unfold App.getCategoriesRoute.
    destruct (Answers.getCategories_readable w items Hr) as [cs ->].
    reflexivity.
  - intros idParam. unfold App.getItemById.
    destruct (readData w) as [items | e] eqn:Hr; cbn [bind respond].
    + unfold findItem. destruct (find _ items); cbn [respond].
      * left. reflexivity.
      * right. left. reflexivity.
    + right. right. apply Answers.unmarked_500, Hread. reflexivity.
  - intros items idParam Hr. unfold App.getItemById. rewrite Hr.
    cbn [bind respond]. unfold findItem.
    destruct (find _ items); cbn [respond]; discriminate.
  - intros now body. unfold App.postItem, createItem.
    destruct (readData w) as [items | e] eqn:Hr.
    + destruct (writeFault w) as [e |] eqn:Hw; cbn [fst snd respond].
      * right. split; [| reflexivity].
        apply Answers.unmarked_500, Hwrite. reflexivity.
      * left. split; [reflexivity |]. exists items. split; reflexivity.
    + cbn [fst snd respond]. right. split; [| reflexivity].
      apply Answers.unmarked_500, Hread. reflexivity.
  - intros url. reflexivity.
Qed.

Lemma status_codes_witness :
  statusCode (App.getCategoriesRoute (H := sampleEngine) None
                                     (mkWorld (Ok withNulls) None)) = 200 /\
  statusCode (App.getItemById (H := sampleEngine) None
                              (mkWorld (Ok withNulls) None) "abc") <> 500.
Proof.
  destruct (status_codes sampleEngine None (mkWorld (Ok withNulls) None))
    as (_ & _ & _ & Hcategories & _ & Hitem & _).
  - intros e He. discriminate He.
  - intros e He. discriminate He.
  - split.
    + apply (Hcategories withNulls). reflexivity.
    + apply (Hitem withNulls). reflexivity.
Defined.

(** ** Several creations *)

(** X13.  Creations accumulate.  On a readable file whose writes succeed, a
    sequence of POST requests answers 201 to each and leaves the file with
    the old items followed by the new ones in the order of the requests,
    each with the time of its request for id, whatever id, name or price
    the body held; the list route without filters then counts them all.  On
    a file that cannot be read or written every request is answered by the
    error handler and the world stays as it was. *)
Theorem creations_accumulate :
  forall (E : Engine) (nodeEnv : option string) (w : World)
         (requests : list (Z * Item)),
    (forall items,
        readData w = Ok items -> writeFault w = None ->
        postAll nodeEnv w requests =
        (mkWorld (Ok (items ++ map created requests)%list) None,
         map (fun r => mkResponse 201 (JsonItem (created r))) requests) /\
        (forall r, In r requests -> id (created r) = Val (fst r)) /\
        (forall query,
            blank (orDefault "" (Query.q query)) ->
            blank (orDefault "" (Query.category query)) ->
            orDefault "id" (Query.sortBy query) = "id" ->
            exists pg,
              listItems (items ++ map created requests) query = Ok pg /\
              totalItems (pagination pg) =
              (List.length items + List.length requests)%nat)) /\
    (forall e,
        readData w = Throw e \/ writeFault w = Some e ->
        fst (postAll nodeEnv w requests) = w /\
        Forall (fun r => exists e', r = errorHandler nodeEnv e')
               (snd (postAll nodeEnv w requests))).
Proof.
  intros E nodeEnv w requests. split.
  - intros items Hread Hwrite. split; [| split].
    + destruct w as [f wf]. simpl in Hread, Hwrite. subst f wf.
      revert items. induction requests as [| [now body] rest IH]; intros items.
      * simpl. rewrite app_nil_r. reflexivity.
      * cbn [postAll]. unfold App.postItem, createItem. cbn.
        rewrite (IH (items ++ [withId now body])%list).
        rewrite <- app_assoc. reflexivity.
    + intros r _. reflexivity.
    + intros query Hq Hc Hkey.
      set (all := (items ++ map created requests)%list).
      destruct (RouteFacts.routes_total_blank all query Hq Hc) as [[pg Hpg] _].
      { rewrite Hkey. apply RouteFacts.uniform_id. }
      exists pg. split; [exact Hpg |].
      destruct (RouteFacts.listItems_Ok all query pg Hpg)
        as (filtered & sorted & Hf & _ & _ & Hmeta).
      rewrite (RouteFacts.listFiltered_blank all query Hq Hc) in Hf.
      injection Hf as <-. rewrite Hmeta. cbn [paginate totalItems].
      unfold all. rewrite length_app, length_map. reflexivity.
  - intros e Hfault.
    induction requests as [| [now body] rest IH]; [split; [reflexivity | constructor] |].
    cbn [postAll]. unfold App.postItem.
    assert (Hstep : createItem w now body = (w, Throw e) \/
                    exists e', createItem w now body = (w, Throw e')).
    { unfold createItem. destruct Hfault as [Hr | Hw].
      - rewrite Hr. left. reflexivity.
      - rewrite Hw. destruct (readData w) as [items | e'];
          [left; reflexivity | right; eauto]. }
    assert (Hstep' : exists e', createItem w now body = (w, Throw e'))
      by (destruct Hstep as [Hs | Hs]; eauto).
    destruct Hstep' as [e' ->]. cbn [respond].
    destruct (postAll nodeEnv w rest) as [w2 rs]. cbn [fst snd] in *.
    destruct IH as [-> Hall]. split; [reflexivity |].
    constructor; [eauto | exact Hall].
Qed.

Lemma creations_accumulate_witness :
  fst (postAll (H := sampleEngine) None (mkWorld (Ok mockItems) None)
               [(10, newBody); (11, nullBody)]) =
  mkWorld (Ok (mockItems ++ [withId 10 newBody; withId 11 nullBody])%list) None.
Proof.
  destruct (creations_accumulate sampleEngine None (mkWorld (Ok mockItems) None)
                                 [(10, newBody); (11, nullBody)]) as [Hok _].
  destruct (Hok mockItems eq_refl eq_refl) as (Hpost & _).
  rewrite Hpost. reflexivity.
Defined.

(** ** The average price *)

Module Average.

Lemma float_add_nan_r (x : float) : PrimFloat.add x nan = nan.
Proof.
  rewrite <- (SF2Prim_Prim2SF (PrimFloat.add x nan)), add_spec.
  change (Prim2SF nan) with SpecFloat.S754_nan.
  unfold SF64add, SpecFloat.SFadd. destruct (Prim2SF x); reflexivity.
Qed.

Lemma float_add_nan_l (x : float) : PrimFloat.add nan x = nan.
Proof.
  rewrite <- (SF2Prim_Prim2SF (PrimFloat.add nan x)), add_spec.
  change (Prim2SF nan) with SpecFloat.S754_nan. reflexivity.
Qed.

Lemma div_nan_l (x : float) : PrimFloat.div nan x = nan.
Proof.
  rewrite <- (SF2Prim_Prim2SF (PrimFloat.div nan x)), div_spec.
  change (Prim2SF nan) with SpecFloat.S754_nan. reflexivity.
Qed.

Lemma plus_nan (p : field float) : Stats.plus nan p = nan.
Proof. destruct p; apply float_add_nan_l. Qed.

Lemma sum_nan (l : list Item) :
  fold_left (fun acc cur => Stats.plus acc (price cur)) l nan = nan.
Proof.
  induction l as [| x l IH]; [reflexivity |].
  cbn [fold_left]. rewrite plus_nan. exact IH.
Qed.

(** One price that is missing or NaN turns the sum into NaN. *)
Lemma sum_priceless (l : list Item) (acc : float) :
  Exists priceless l ->
  fold_left (fun acc cur => Stats.plus acc (price cur)) l acc = nan.
Proof.
  intros Hex. revert acc. induction Hex as [x l Hx | x l _ IH]; intros acc.
  - cbn [fold_left].
    replace (Stats.plus acc (price x)) with nan; [apply sum_nan |].
    destruct Hx as [-> | ->]; symmetry; apply float_add_nan_r.
  - cbn [fold_left]. apply IH.
Qed.

Lemma sum_zeroed (l : list Item) (acc : float) :
  fold_left (fun acc cur => Stats.plus acc (price cur)) (map zeroed l) acc =
  fold_left (fun acc cur => Stats.plus acc (price cur)) l acc.
Proof.
  revert acc. induction l as [| x l IH]; intros acc; [reflexivity |].
  cbn [map fold_left]. rewrite IH. f_equal.
  unfold zeroed. destruct (price x) eqn:Hp; try rewrite Hp; reflexivity.
Qed.

End Average.

(** X14.  The average of the stats route.  [total] is the number of items.
    [averagePrice] is NaN for the empty collection, where 0 is divided by 0,
    and for every collection with an item whose price is missing or NaN,
    wherever that item stands.  An item whose price is [null] counts with
    the price 0: it lowers the average instead of being left out. *)
Theorem average_of_prices :
  forall (items : list Item),
    Stats.total (Stats.calculate items) = List.length items /\
    (items = [] -> Stats.averagePrice (Stats.calculate items) = nan) /\
    (Exists priceless items ->
     Stats.averagePrice (Stats.calculate items) = nan) /\
    Stats.calculate (map zeroed items) = Stats.calculate items.
Proof.
  intros items. split; [reflexivity |]. split; [| split].
  - intros ->. reflexivity.
  - intros Hex. unfold Stats.calculate. cbn [Stats.averagePrice].
    rewrite (Average.sum_priceless items zero Hex). apply Average.div_nan_l.
  - unfold Stats.calculate. rewrite Average.sum_zeroed, length_map. reflexivity.
Qed.

Lemma average_of_prices_witness :
  Stats.averagePrice
    (Stats.calculate
       (mockItems ++ [withId 4 newBody;
                      mkItem (Val 5) (Val "Gift") (Val "Misc") Absent
                             Absent Absent Absent])) = nan.
Proof.
  destruct (average_of_prices
              (mockItems ++ [withId 4 newBody;
                             mkItem (Val 5) (Val "Gift") (Val "Misc") Absent
                                    Absent Absent Absent]))
    as (_ & _ & Hnan & _).
  apply Hnan. apply Exists_exists.
  exists (mkItem (Val 5) (Val "Gift") (Val "Misc") Absent Absent Absent Absent).
  split.
  - apply in_or_app. right. right. left. reflexivity.
  - left. reflexivity.
Defined.

(** ** The history of the stats cache *)

Module History.

Import Stats.

(** One request either leaves the variables alone, and then could not have
    computed anything newer than what they record, or computes and records. *)
Lemma getStats_cases (c : Cache) (d : Disk) :
  paired c ->
  (cache (getStats c d) = c /\
   forall t s, computes d t s -> exists r, lastModified c = Some r /\ t <= r) \/
  (exists t s,
      computes d t s /\
      cache (getStats c d) = mkCache (Some s) (Some t) /\
      forall r, lastModified c = Some r -> r < t).
Proof.
  intros Hp. unfold getStats, computes.
  destruct (stat d) as [m | e] eqn:Hstat.
  - assert (Hread :
        (cache (readAndCalculate c m d) = c /\
         forall items, readFile d <> Ok (Parsed items)) \/
        (exists items,
            readFile d = Ok (Parsed items) /\
            cache (readAndCalculate c m d) =
            mkCache (Some (calculate items)) (Some m))).
    { unfold readAndCalculate.
      destruct (readFile d) as [[e | items] | e]; cbn [cache].
      - left. split; [reflexivity | discriminate].
      - right. exists items. split; reflexivity.
      - left. split; [reflexivity | discriminate]. }
    destruct Hp as [[Hs Hl] | (s & r & Hs & Hl)]; rewrite Hs; [| rewrite Hl].
    + destruct Hread as [[Hsame Hno] | (items & Hitems & Hnew)].
      * left. split; [exact Hsame |].
        intros t s' [_ (items & Hitems & _)]. exfalso. apply (Hno items Hitems).
      * right. exists m, (calculate items).
        split; [split; [reflexivity | eauto] |]. split; [exact Hnew |].
        intros r Hr. congruence.
    + destruct (m <=? r) eqn:Hle.
      * apply Z.leb_le in Hle. left. split; [reflexivity |].
        intros t s' [Ht _]. injection Ht as <-. eauto.
      * apply Z.leb_gt in Hle.
        destruct Hread as [[Hsame Hno] | (items & Hitems & Hnew)].
        -- left. split; [exact Hsame |].
           intros t s' [_ (items & Hitems & _)]. exfalso.
           apply (Hno items Hitems).
        -- right. exists m, (calculate items).
           split; [split; [reflexivity | eauto] |]. split; [exact Hnew |].
           intros r' Hr'. injection Hr' as <-. exact Hle.
  - left. split; [reflexivity |]. intros t s [Ht _]. discriminate Ht.
Qed.

(** What a request answers was cached before or is computed by it. *)
Lemma getStats_answer (c : Cache) (d : Disk) (s : t) :
  outcome (getStats c d) = Json s ->
  statsCache c = Some s \/ exists m, computes d m s.
Proof.
  unfold getStats, computes.
  destruct (stat d) as [m | e] eqn:Hstat; [| discriminate].
  assert (Hread : outcome (readAndCalculate c m d) = Json s ->
                  exists m', Ok m = Ok m' /\
                             exists items, readFile d = Ok (Parsed items) /\
                                           s = calculate items).
  { unfold readAndCalculate.
    destruct (readFile d) as [[e | items] | e]; cbn [outcome]; try discriminate.
    intros Heq. injection Heq as <-. exists m. eauto. }
  destruct (statsCache c) as [cached |]; [| intros H; right; apply Hread, H].
  destruct (lastModified c) as [r |]; [| intros H; right; apply Hread, H].
  destruct (m <=? r); [| intros H; right; apply Hread, H].
  cbn [outcome]. intros Heq. injection Heq as <-. left. reflexivity.
Qed.

(** The invariant of the two variables over a sequence of requests. *)
Lemma invariant (requests : list Disk) :
  let c := after requests in
  (forall s r, statsCache c = Some s -> lastModified c = Some r ->
               exists d, In d requests /\ computes d r s) /\
  (forall d m s, In d requests -> computes d m s ->
                 exists r, lastModified c = Some r /\ m <= r).
Proof.
  induction requests as [| d requests IH] using rev_ind.
  - split; [discriminate | intros d m s []].
  - cbv zeta in *. rewrite StatsFacts.after_app.
    destruct IH as [Hfrom Hcover].
    destruct (getStats_cases (after requests) d (StatsFacts.paired_after requests))
      as [[-> Hold] | (m & s & Hd & -> & Hnew)].
    + split.
      * intros s r Hs Hr. destruct (Hfrom s r Hs Hr) as (d' & Hin & Hc).
        exists d'. split; [apply in_or_app; left; exact Hin | exact Hc].
      * intros d' m s Hin Hc. apply in_app_or in Hin.
        destruct Hin as [Hin | [<- | []]]; [apply (Hcover d' m s Hin Hc) |].
        apply (Hold m s Hc).
    + split.
      * intros s' r Hs Hr. cbn in Hs, Hr.
        injection Hs as <-. injection Hr as <-.
        exists d. split; [apply in_or_app; right; left; reflexivity | exact Hd].
      * intros d' m' s' Hin Hc. cbn [lastModified].
        exists m. split; [reflexivity |].
        apply in_app_or in Hin. destruct Hin as [Hin | [<- | []]].
        -- destruct (Hcover d' m' s' Hin Hc) as (r & Hr & Hle).
           specialize (Hnew r Hr). lia.
        -- destruct Hd as [Hm _]. destruct Hc as [Hm' _].
           rewrite Hm in Hm'. injection Hm' as <-. lia.
Qed.

End History.

(** X15.  What the stats cache holds.  After any sequence of requests, the
    cached statistics are those of a content that one of the requests read,
    and the recorded time is the time that this request saw; the recorded
    time is at least the time of every request that could read and parse
    the file, so the cache is empty only if none could; the recorded time
    never goes back; and every answer is the statistics of a content read by
    the request itself or by an earlier one. *)
Theorem stats_cache_history :
  forall (requests : list Stats.Disk),
    let c := Stats.after requests in
    (forall s r,
        Stats.statsCache c = Some s -> Stats.lastModified c = Some r ->
        exists d, In d requests /\ computes d r s) /\
    (forall d m s,
        In d requests -> computes d m s ->
        exists r, Stats.lastModified c = Some r /\ m <= r) /\
    (Stats.statsCache c = None ->
     forall d m s, In d requests -> ~ computes d m s) /\
    (forall d r r',
        Stats.lastModified c = Some r ->
        Stats.lastModified (Stats.after (requests ++ [d])) = Some r' ->
        r <= r') /\
    (forall d s,
        Stats.outcome (Stats.getStats c d) = Stats.Json s ->
        exists d' m, In d' (requests ++ [d]) /\ computes d' m s).
Proof.
  intros requests c.
  destruct (History.invariant requests) as [Hfrom Hcover]. fold c in Hfrom, Hcover.
  assert (Hp : paired c) by apply StatsFacts.paired_after.
  split; [exact Hfrom |]. split; [exact Hcover |]. split; [| split].
  - intros Hnone d m s Hin Hc.
    destruct (Hcover d m s Hin Hc) as (r & Hr & _).
    destruct Hp as [[_ Hl] | (s' & t' & Hs & _)]; congruence.
  - intros d r r' Hr Hr'. rewrite StatsFacts.after_app in Hr'. fold c in Hr'.
    destruct (History.getStats_cases c d Hp)
      as [[Hsame _] | (m & s & _ & Hnew & Hlater)].
    + rewrite Hsame in Hr'. rewrite Hr in Hr'. injection Hr' as <-. lia.
    + rewrite Hnew in Hr'. cbn in Hr'. injection Hr' as <-.
      specialize (Hlater r Hr). lia.
  - intros d s Hout.
    destruct (History.getStats_answer c d s Hout) as [Hs | [m Hc]].
    + destruct Hp as [[Hnone _] | (s' & r & Hs' & Hr)]; [congruence |].
      rewrite Hs in Hs'. injection Hs' as <-.
      destruct (Hfrom s r Hs Hr) as (d' & Hin & Hc).
      exists d', r. split; [apply in_or_app; left; exact Hin | exact Hc].
    + exists d, m. split; [apply in_or_app; right; left; reflexivity | exact Hc].
Qed.

Lemma stats_cache_history_witness :
  exists r,
    Stats.lastModified (Stats.after [Stats.mkDisk (Ok 900) (Ok (Stats.Parsed []));
                                     sampleDisk;
                                     Stats.mkDisk (Ok 950) (Ok (Stats.Parsed []))]) =
    Some r /\ 1000 <= r.
Proof.
  destruct (stats_cache_history [Stats.mkDisk (Ok 900) (Ok (Stats.Parsed []));
                                 sampleDisk;
                                 Stats.mkDisk (Ok 950) (Ok (Stats.Parsed []))])
    as (_ & Hcover & _).
  apply (Hcover sampleDisk 1000 (Stats.calculate mockItems)).
  - right. left. reflexivity.
  - split; [reflexivity |]. exists mockItems. split; reflexivity.
Defined.

(** ** The pagination bar *)

Module Bar.

Import Ui.

(** The window of numbered pages that [renderPagination] computes. *)
Lemma window (current total : Z) :
  1 < total ->
  let startPage := Z.max 1 (current - maxVisiblePages / 2) in
  let endPage := Z.min total (startPage + maxVisiblePages - 1) in
  let startPage' :=
    if endPage - startPage + 1 <? maxVisiblePages
    then Z.max 1 (endPage - maxVisiblePages + 1)
    else startPage in
  1 <= startPage' /\ startPage' < endPage /\ endPage <= total /\
  endPage - startPage' + 1 = Z.min 5 total /\
  (forall p, current - 2 <= p <= current + 2 -> 1 <= p <= total ->
             startPage' <= p <= endPage).
Proof.
  intros Htotal. change (maxVisiblePages / 2) with 2.
  unfold maxVisiblePages. cbv zeta.
  set (s0 := Z.max 1 (current - 2)).
  set (e := Z.min total (s0 + 5 - 1)).
  destruct (Z.ltb_spec (e - s0 + 1) 5) as [Hshort | Hfull];
    subst e s0; repeat split; try lia; intros p Hnear Hin; lia.
Qed.

Lemma numbersOf_app (a b : list Control) :
  numbersOf (a ++ b) = (numbersOf a ++ numbersOf b)%list.
Proof. apply flat_map_app. Qed.

Lemma activeOf_app (a b : list Control) :
  activeOf (a ++ b) = (activeOf a ++ activeOf b)%list.
Proof. apply flat_map_app. Qed.

Lemma targetsOf_app (a b : list Control) :
  targetsOf (a ++ b) = (targetsOf a ++ targetsOf b)%list.
Proof. apply flat_map_app. Qed.

Lemma upFrom_In (a : Z) (n : nat) (p : Z) :
  In p (upFrom a n) <-> a <= p < a + Z.of_nat n.
Proof.
  revert a. induction n as [| n IH]; intros a.
  - simpl. lia.
  - cbn [upFrom In]. rewrite IH. lia.
Qed.

Lemma numbersOf_buttons (f : Z -> bool) (l : list Z) :
  numbersOf (map (fun i => Numbered i (f i)) l) = l.
Proof.
  induction l as [| x l IH]; [reflexivity |].
  cbn. f_equal. exact IH.
Qed.

Lemma targetsOf_buttons (f : Z -> bool) (l : list Z) :
  targetsOf (map (fun i => Numbered i (f i)) l) = l.
Proof.
  induction l as [| x l IH]; [reflexivity |].
  cbn. f_equal. exact IH.
Qed.

Lemma activeOf_buttons (f : Z -> bool) (l : list Z) :
  activeOf (map (fun i => Numbered i (f i)) l) = List.filter f l.
Proof.
  induction l as [| x l IH]; [reflexivity |].
  cbn. destruct (f x); cbn; rewrite <- IH; reflexivity.
Qed.

(** The loop meets the current page once if it lies in the window, and not
    at all otherwise. *)
Lemma filter_upFrom (c a : Z) (n : nat) :
  List.filter (fun i => i =? c) (upFrom a n) =
  if (a <=? c) && (c <? a + Z.of_nat n) then [c] else [].
Proof.
  revert a. induction n as [| n IH]; intros a.
  - cbn. destruct (a <=? c) eqn:H1; destruct (c <? a + 0) eqn:H2;
      try reflexivity. apply Z.leb_le in H1. apply Z.ltb_lt in H2. lia.
  - cbn [upFrom List.filter]. rewrite IH.
    destruct (Z.eqb_spec a c) as [-> | Hne].
    + replace (c + 1 <=? c) with false by (symmetry; apply Z.leb_gt; lia).
      replace (c <=? c) with true by (symmetry; apply Z.leb_le; lia).
      replace (c <? c + Z.of_nat (S n)) with true
        by (symmetry; apply Z.ltb_lt; lia).
      reflexivity.
    + destruct (Z.leb_spec (a + 1) c) as [H1 | H1];
        destruct (Z.ltb_spec c (a + 1 + Z.of_nat n)) as [H2 | H2]; cbn [andb].
      * replace (a <=? c) with true by (symmetry; apply Z.leb_le; lia).
        replace (c <? a + Z.of_nat (S n)) with true
          by (symmetry; apply Z.ltb_lt; lia).
        reflexivity.
      * replace (c <? a + Z.of_nat (S n)) with false
          by (symmetry; apply Z.ltb_ge; lia).
        rewrite andb_false_r. reflexivity.
      * replace (a <=? c) with false by (symmetry; apply Z.leb_gt; lia).
        reflexivity.
      * replace (a <=? c) with false by (symmetry; apply Z.leb_gt; lia).
        reflexivity.
Qed.

(** A run of consecutive numbered buttons is spaced when it starts right
    after the last page shown. *)
Lemma spaced_buttons (f : Z -> bool) (shown : Z) (n : nat) (rest : list Control) :
  spaced shown (map (fun i => Numbered i (f i)) (upFrom (shown + 1) n) ++ rest) =
  spaced (shown + Z.of_nat n) rest.
Proof.
  revert shown. induction n as [| n IH]; intros shown.
  - cbn [upFrom map app]. f_equal. lia.
  - cbn [upFrom map app spaced]. rewrite Z.eqb_refl, IH. cbn [andb].
    f_equal. lia.
Qed.

(** Spaced controls show strictly increasing pages. *)
Lemma spaced_increasing (n : nat) (controls : list Control) (shown : Z) :
  (List.length controls <= n)%nat ->
  spaced shown controls = true ->
  Sorted Z.lt (numbersOf controls) /\
  Forall (fun p => shown < p) (numbersOf controls).
Proof.
  revert controls shown. induction n as [| n IH]; intros controls shown Hlen Hs.
  - destruct controls; [split; constructor | simpl in Hlen; lia].
  - destruct controls as [| c rest]; [split; constructor |].
    cbn [List.length] in Hlen.
    assert (Hcons : forall p tail,
               (List.length tail <= n)%nat -> shown < p ->
               spaced p tail = true ->
               Sorted Z.lt (p :: numbersOf tail) /\
               Forall (fun q => shown < q) (p :: numbersOf tail)).
    { intros p tail Htail Hp Hrest.
      destruct (IH tail p Htail Hrest) as [Hsorted Hall]. split.
      - constructor; [exact Hsorted |].
        destruct (numbersOf tail) as [| q l]; constructor.
        inversion Hall; assumption.
      - constructor; [exact Hp |].
        eapply Forall_impl; [| exact Hall]. intros q Hq. cbn beta in *. lia. }
    destruct c as [t d | p a | | t d].
    + apply (IH rest shown); [lia | exact Hs].
    + cbn [spaced] in Hs. apply andb_true_iff in Hs. destruct Hs as [Hp Hs].
      apply Z.eqb_eq in Hp. apply (Hcons p rest); [lia | lia | exact Hs].
    + cbn [spaced] in Hs.
      destruct rest as [| [t d | p a | | t d] rest']; try discriminate Hs.
      apply andb_true_iff in Hs. destruct Hs as [Hp Hs]. apply Z.ltb_lt in Hp.
      cbn [List.length] in Hlen. apply (Hcons p rest'); [lia | lia | exact Hs].
    + apply (IH rest shown); [lia | exact Hs].
Qed.

Lemma upFrom_snoc (a : Z) (n : nat) :
  upFrom a (S n) = (upFrom a n ++ [a + Z.of_nat n])%list.
Proof.
  revert a. induction n as [| n IH]; intros a.
  - cbn. f_equal. lia.
  - change (upFrom a (S (S n))) with (a :: upFrom (a + 1) (S n)).
    rewrite IH. cbn [upFrom app]. do 3 f_equal. lia.
Qed.

Lemma upFrom_length (a : Z) (n : nat) : List.length (upFrom a n) = n.
Proof.
  revert a. induction n as [| n IH]; intros a; [reflexivity |].
  cbn. rewrite IH. reflexivity.
Qed.

End Bar.

(** X16.  The pagination bar of the items page.  With at most one page
    there is no bar.  Otherwise the bar shows the previous button, numbered
    buttons and the next button; the numbered pages increase strictly from 1
    to the last page, at most seven of them, each either the successor of
    the page shown before it or behind an ellipsis that hides at least one
    page; every existing page within two of the current one is shown; the
    current page, when it exists, is the one button marked active, and no
    button is marked when the current page lies outside the pages.  For a
    current page that exists, with the flags that the server computes, no
    enabled control asks for a page outside 1 .. totalPages. *)
Theorem pagination_bar :
  forall (pagination : Pagination) (current total : Z),
    currentPage pagination = Fin current ->
    totalPages pagination = Fin total ->
    (total <= 1 -> Ui.renderPagination pagination = None) /\
    (1 < total ->
     exists controls,
       Ui.renderPagination pagination = Some controls /\
       Ui.spaced 0 controls = true /\
       Sorted Z.lt (Ui.numbersOf controls) /\
       hd_error (Ui.numbersOf controls) = Some 1 /\
       last (Ui.numbersOf controls) 0 = total /\
       (List.length (Ui.numbersOf controls) <= 7)%nat /\
       (forall p, current - 2 <= p <= current + 2 -> 1 <= p <= total ->
                  In p (Ui.numbersOf controls)) /\
       (1 <= current <= total -> Ui.activeOf controls = [current]) /\
       (current < 1 \/ total < current -> Ui.activeOf controls = []) /\
       (hasPrevPage pagination = (1 <? current) ->
        hasNextPage pagination = (current <? total) ->
        1 <= current <= total ->
        Forall (fun t => 1 <= t <= total) (Ui.targetsOf controls))).
Proof.
  intros pagination current total Hcur Htotal.
  unfold Ui.renderPagination. rewrite Hcur, Htotal. cbn [Ui.received Ui.numeric].
  split.
  - intros Hle. replace (total <=? 1) with true by (symmetry; apply Z.leb_le; lia).
    reflexivity.
  - intros Hlt. replace (total <=? 1) with false by (symmetry; apply Z.leb_gt; lia).
    pose proof (Bar.window current total Hlt) as Hw. cbv zeta in Hw |- *.
    set (s0 := Z.max 1 (current - Ui.maxVisiblePages / 2)) in *.
    set (e := Z.min total (s0 + Ui.maxVisiblePages - 1)) in *.
    set (s := if e - s0 + 1 <? Ui.maxVisiblePages
              then Z.max 1 (e - Ui.maxVisiblePages + 1) else s0) in *.
    clearbody s e. clear s0.
    destruct Hw as (Hs1 & Hse & Het & Hsize & Hnear).
    eexists. split; [reflexivity |].
    unfold Ui.pageButtons.
    set (n := Z.to_nat (e - s + 1)).
    assert (Hn : Z.of_nat n = e - s + 1) by (unfold n; lia).
    set (lead := if 1 <? s
                 then Ui.Numbered 1 false :: (if 2 <? s then [Ui.Ellipsis] else [])
                 else []).
    set (trail := if e <? total
                  then ((if e <? total - 1 then [Ui.Ellipsis] else [])
                        ++ [Ui.Numbered total false])%list
                  else []).
    set (buttons := map (fun i => Ui.Numbered i (Ui.isCurrent (Some current) i))
                        (Ui.upFrom s n)).
    assert (Hlead : Ui.numbersOf lead = if 1 <? s then [1] else []).
    { unfold lead. destruct (1 <? s); [| reflexivity].
      destruct (2 <? s); reflexivity. }
    assert (Htrail : Ui.numbersOf trail = if e <? total then [total] else []).
    { unfold trail. destruct (e <? total); [| reflexivity].
      destruct (e <? total - 1); reflexivity. }
    assert (Hnumbers :
              Ui.numbersOf ([Ui.Previous (current - 1) (negb (hasPrevPage pagination))]
                            ++ lead ++ buttons ++ trail
                            ++ [Ui.Following (current + 1)
                                             (negb (hasNextPage pagination))]) =
              ((if 1 <? s then [1] else []) ++ Ui.upFrom s n
               ++ (if e <? total then [total] else []))%list).
    { rewrite !Bar.numbersOf_app, Hlead, Htrail.
      unfold buttons. rewrite Bar.numbersOf_buttons. cbn [Ui.numbersOf flat_map app].
      rewrite app_nil_r. reflexivity. }
    assert (Hspaced :
              Ui.spaced 0 ([Ui.Previous (current - 1) (negb (hasPrevPage pagination))]
                           ++ lead ++ buttons ++ trail
                           ++ [Ui.Following (current + 1)
                                            (negb (hasNextPage pagination))]) = true).
    { assert (Hend : Ui.spaced e (trail ++ [Ui.Following (current + 1)
                                               (negb (hasNextPage pagination))]) = true).
      { unfold trail. destruct (Z.ltb_spec e total) as [He | He]; [| reflexivity].
        destruct (Z.ltb_spec e (total - 1)) as [He' | He']; cbn.
        - replace (e + 1 <? total) with true by (symmetry; apply Z.ltb_lt; lia).
          reflexivity.
        - replace (total =? e + 1) with true by (symmetry; apply Z.eqb_eq; lia).
          reflexivity. }
      cbn [app Ui.spaced]. unfold lead, buttons.
      destruct (Z.ltb_spec 1 s) as [H1 | H1].
      - destruct (Z.ltb_spec 2 s) as [H2 | H2].
        + destruct n as [| n']; [lia |].
          cbn [app Ui.spaced Ui.upFrom map]. rewrite Z.eqb_refl. cbn [andb].
          replace (1 + 1 <? s) with true by (symmetry; apply Z.ltb_lt; lia).
          cbn [andb].
          rewrite (Bar.spaced_buttons _ s n').
          replace (s + Z.of_nat n') with e by lia. exact Hend.
        + cbn [app Ui.spaced]. rewrite Z.eqb_refl. cbn [andb].
          replace s with (1 + 1) by lia.
          rewrite (Bar.spaced_buttons _ 1 n).
          replace (1 + Z.of_nat n) with e by lia. exact Hend.
      - cbn [app]. replace s with (0 + 1) by lia.
        rewrite (Bar.spaced_buttons _ 0 n).
        replace (0 + Z.of_nat n) with e by lia. exact Hend. }
    split; [exact Hspaced |].
    split.
    { apply (Bar.spaced_increasing _ _ 0 (Nat.le_refl _) Hspaced). }
    rewrite Hnumbers.
    assert (Hup : Ui.upFrom s n = (s :: Ui.upFrom (s + 1) (Nat.pred n))%list)
      by (destruct n; [lia | reflexivity]).
    assert (Hup' : Ui.upFrom s n = (Ui.upFrom s (Nat.pred n) ++ [e])%list).
    { destruct n as [| n']; [lia |]. rewrite Bar.upFrom_snoc. cbn [Nat.pred].
      do 2 f_equal. lia. }
    split; [| split; [| split; [| split; [| split; [| split]]]]].
    + destruct (Z.ltb_spec 1 s); [reflexivity |].
      rewrite Hup. cbn. f_equal. lia.
    + destruct (Z.ltb_spec e total) as [He | He].
      * rewrite !app_assoc. apply last_last.
      * rewrite app_nil_r, Hup', app_assoc, last_last. lia.
    + rewrite !length_app, Bar.upFrom_length.
      destruct (1 <? s); destruct (e <? total); cbn [List.length]; lia.
    + intros p Hp Hin. apply in_or_app. right. apply in_or_app. left.
      apply Bar.upFrom_In. specialize (Hnear p Hp Hin). lia.
    + intros Hin. rewrite !Bar.activeOf_app.
      replace (Ui.activeOf lead) with (@nil Z)
        by (unfold lead; destruct (1 <? s); [destruct (2 <? s) |]; reflexivity).
      replace (Ui.activeOf trail) with (@nil Z)
        by (unfold trail; destruct (e <? total); [destruct (e <? total - 1) |];
            reflexivity).
      unfold buttons.
      rewrite (Bar.activeOf_buttons (Ui.isCurrent (Some current))).
      change (Ui.isCurrent (Some current)) with (fun i => i =? current).
      rewrite Bar.filter_upFrom.
      specialize (Hnear current ltac:(lia) Hin).
      replace (s <=? current) with true by (symmetry; apply Z.leb_le; lia).
      replace (current <? s + Z.of_nat n) with true
        by (symmetry; apply Z.ltb_lt; lia).
      reflexivity.
    + intros Hout. rewrite !Bar.activeOf_app.
      replace (Ui.activeOf lead) with (@nil Z)
        by (unfold lead; destruct (1 <? s); [destruct (2 <? s) |]; reflexivity).
      replace (Ui.activeOf trail) with (@nil Z)
        by (unfold trail; destruct (e <? total); [destruct (e <? total - 1) |];
            reflexivity).
      unfold buttons.
      rewrite (Bar.activeOf_buttons (Ui.isCurrent (Some current))).
      change (Ui.isCurrent (Some current)) with (fun i => i =? current).
      rewrite Bar.filter_upFrom.
      destruct (Z.leb_spec s current) as [H1 | H1];
        destruct (Z.ltb_spec current (s + Z.of_nat n)) as [H2 | H2];
        try reflexivity.
      lia.
    + intros Hprev Hnext Hin. rewrite !Bar.targetsOf_app.
      unfold buttons. rewrite Bar.targetsOf_buttons.
      apply Forall_app; split; [| apply Forall_app; split;
                                  [| apply Forall_app; split;
                                     [| apply Forall_app; split]]].
      * cbn. rewrite Hprev. destruct (Z.ltb_spec 1 current); cbn; repeat constructor; lia.
      * unfold lead. destruct (Z.ltb_spec 1 s); [| constructor].
        destruct (2 <? s); cbn; repeat constructor; lia.
      * apply Forall_forall. intros p Hp. apply Bar.upFrom_In in Hp. lia.
      * unfold trail. destruct (Z.ltb_spec e total); [| constructor].
        destruct (e <? total - 1); cbn; repeat constructor; lia.
      * cbn. rewrite Hnext. destruct (Z.ltb_spec current total); cbn;
          repeat constructor; lia.
Qed.

Lemma pagination_bar_witness :
  Ui.renderPagination (mkPagination (Fin 5) (Fin 9) 90 (Fin 10) true true) =
  Some [Ui.Previous 4 false; Ui.Numbered 1 false; Ui.Ellipsis;
        Ui.Numbered 3 false; Ui.Numbered 4 false; Ui.Numbered 5 true;
        Ui.Numbered 6 false; Ui.Numbered 7 false;
        Ui.Ellipsis; Ui.Numbered 9 false; Ui.Following 6 false] /\
  Ui.activeOf [Ui.Previous 4 false; Ui.Numbered 1 false; Ui.Ellipsis;
               Ui.Numbered 3 false; Ui.Numbered 4 false; Ui.Numbered 5 true;
               Ui.Numbered 6 false; Ui.Numbered 7 false;
               Ui.Ellipsis; Ui.Numbered 9 false; Ui.Following 6 false] = [5].
Proof.
  destruct (pagination_bar (mkPagination (Fin 5) (Fin 9) 90 (Fin 10) true true)
                           5 9 eq_refl eq_refl) as [_ Hbar].
  destruct (Hbar eq_refl) as (controls & Hrender & _ & _ & _ & _ & _ & _ & Hactive & _).
  vm_compute in Hrender. injection Hrender as <-.
  split; [reflexivity |]. apply Hactive. lia.
Defined.

(** ** The client and the server *)

Module Paging.



Lemma limit_of_fetchAllItems (searchParams : Client.Params) :
  Client.limit searchParams = None ->
  limitNumOf (Client.fetchAllItemsQuery searchParams) = Fin 1000.
Proof. intros Hl. unfold limitNumOf, Client.fetchAllItemsQuery. rewrite Hl. reflexivity. Qed.

Lemma page_of_fetchAllItems (searchParams : Client.Params) :
  Client.page searchParams = None ->
  pageNumOf (Client.fetchAllItemsQuery searchParams) = Fin 1.
Proof. intros Hp. unfold pageNumOf, Client.fetchAllItemsQuery. rewrite Hp. reflexivity. Qed.

End Paging.



(** X18.  What the client makes of the answers.  An answer of the error
    handler leaves the client with no items and with a pagination of one
    page, for which no bar is drawn: a failure looks like an empty result.
    [fetchAllItems], which asks for a limit of 1000 and no page, keeps the
    items of the answer and counts them itself: the client holds the first
    1000 items of the result at most, reports their number as the total, and
    draws no bar. *)
Theorem client_views :
  forall (E : Engine) (nodeEnv : option string),
    (forall e,
        Client.afterFetchItems (errorHandler nodeEnv e) =
        Client.mkState [] Client.fallbackPagination /\
        Ui.renderPagination Client.fallbackPagination = None) /\
    (forall items searchParams pg,
        Client.limit searchParams = None ->
        Client.page searchParams = None ->
        listItems items (Client.fetchAllItemsQuery searchParams) = Ok pg ->
        let state := Client.afterFetchAllItems (mkResponse 200 (JsonPage pg)) in
        Client.items state = data pg /\
        Z.of_nat (List.length (Client.items state)) =
        Z.min 1000 (Z.of_nat (totalItems (pagination pg))) /\
        totalItems (Client.pagination state) = List.length (Client.items state) /\
        Ui.renderPagination (Client.pagination state) = None).
Proof.
  intros E nodeEnv. split.
  - intros e. split; reflexivity.
  - intros items searchParams pg Hlimit Hpage Hpg state.
    assert (Hstate : Client.items state = data pg)
      by (subst state; destruct pg; reflexivity).
    split; [exact Hstate |]. split; [| split].
    + rewrite Hstate.
      destruct (RouteFacts.listItems_Ok items _ pg Hpg)
        as (filtered & sorted & _ & Hs & Hdata & Hmeta).
      rewrite Hdata, Hmeta. cbn [paginate totalItems].
      unfold offsetOf.
      rewrite (Paging.limit_of_fetchAllItems searchParams Hlimit).
      rewrite (Paging.page_of_fetchAllItems searchParams Hpage).
      rewrite (JsFacts.offset_Fin 1 1000) by lia.
      rewrite (RouteFacts.page_slice_length sorted 1 1000) by lia.
      unfold sortedBy in Hs. rewrite (JsFacts.sort_length _ _ _ Hs). lia.
    + subst state. destruct pg. reflexivity.
    + subst state. destruct pg. reflexivity.
Qed.

Lemma client_views_witness :
  Client.items
    (Client.afterFetchAllItems
       (mkResponse 200
          (JsonPage (mkPage mockItems (paginate (Fin 1) (Fin 1000) 3)
                            (Filters.mk "" "" None None "id" "asc"))))) = mockItems.
Proof.
  destruct (client_views sampleEngine None) as [_ Hall].
  destruct (Hall mockItems Client.noParams
                 (mkPage mockItems (paginate (Fin 1) (Fin 1000) 3)
                         (Filters.mk "" "" None None "id" "asc"))
                 eq_refl eq_refl eq_refl) as (Hitems & _).
  exact Hitems.
Defined.
